(** * TypeScriptParser: lowering a resolved TypeScript tree to the KSLang schema

    A shallow embedding of [src/TypeScriptParser.ts].  Every method of the
    class [TypeScriptParser] that takes part in the lowering is a function of
    the same name here.  The two effects of the source are explicit:

    - [logNodeError] writes to the console; the messages are collected in
      order in a log;
    - reading a property of [undefined] throws a [TypeError] that nothing in
      the file catches; it ends the computation and keeps the log written so
      far. *)

From Stdlib Require Import NArith List String Ascii Lia.
From stdpp Require Import base option list countable gmap.

Local Set Warnings "-register-all".
Local Open Scope N_scope.
Local Open Scope list_scope.

(** ** JavaScript strings

    [for (let c of name)] walks a string by code points, so a string is the
    list of its code points.  [str] reads an ASCII literal. *)

Abbreviation jsstring := (list N).

Definition str (s : string) : jsstring :=
  List.map N_of_ascii (list_ascii_of_string s).

(** ["lo" <= c && c <= "hi"] for a one-code-point string [c] and ASCII
    bounds: strings compare by code units, and the first unit of a code point
    above the BMP is a surrogate, above every ASCII bound. *)
Definition between (lo hi : string) (c : N) : bool :=
  match str lo, str hi with
  | [l], [h] => (l <=? c) && (c <=? h)
  | _, _ => false
  end.

(** [c.toLowerCase()] on ASCII text; the source applies it to the letters
    [A]-[Z] and to the names of [ts.SyntaxKind] members only. *)
Definition charToLowerCase (c : N) : N :=
  if between "A" "Z" c then c + 32 else c.

Definition toLowerCase (s : jsstring) : jsstring := List.map charToLowerCase s.

Definition jsstring_eqb (a b : jsstring) : bool := bool_decide (a = b).

(** A value that may be [undefined], [null] or present. *)
Inductive JsOpt (A : Type) : Type :=
| Undefined
| Null
| Val (a : A).
Arguments Undefined {A}.
Arguments Null {A}.
Arguments Val {A} a.

(** ** Effects: the console log and uncaught TypeErrors *)

(** The optional second argument of [logNodeError]. *)
Inductive Node : Type := NodeRef (id : N).

Record Diagnostic : Type := mkDiagnostic {
  message : jsstring;
  node : option Node
}.

Inductive Completion (A : Type) : Type :=
| Normal (a : A)
| TypeError.
Arguments Normal {A} a.
Arguments TypeError {A}.

Definition M (A : Type) : Type := (list Diagnostic * Completion A)%type.

Definition ret {A} (a : A) : M A := ([], Normal a).

Definition throw {A} : M A := ([], TypeError).

Definition bind {A B} (m : M A) (f : A -> M B) : M B :=
  match m with
  | (l1, Normal a) => let '(l2, r) := f a in (l1 ++ l2, r)
  | (l1, TypeError) => (l1, TypeError)
  end.

Notation "'let*' x ':=' m 'in' f" := (bind m (fun x => f))
  (at level 10, x name, m at level 100, f at level 200).
Notation "m ';;' f" := (bind m (fun _ => f))
  (at level 100, f at level 200, right associativity, only parsing).

(** [logNodeError(message, node)]: [console.warn(message, node)]. *)
Definition logNodeError (msg : jsstring) (n : option Node) : M unit :=
  ([mkDiagnostic msg n], Normal tt).

(** [xs.map(x => f(x))] for an effectful [f]: left to right, stopping at the
    first exception. *)
Definition mapM {A B} (f : A -> M B) : list A -> M (list B) :=
  fix go (l : list A) : M (list B) :=
    match l with
    | [] => ret []
    | x :: xs => let* y := f x in let* ys := go xs in ret (y :: ys)
    end.

(** [for (const x of xs) body], threading the variables the body assigns. *)
Definition forOf {A S} (body : S -> A -> M S) : list A -> S -> M S :=
  fix go (l : list A) (s : S) : M S :=
    match l with
    | [] => ret s
    | x :: xs => let* s' := body s x in go xs s'
    end.

(** [flattenArray]: [[].concat.apply([], arrays)]. *)
Definition flattenArray {T} (arrays : list (list T)) : list T := concat arrays.

(** ** The input: TypeScript compiler nodes

    The part of the [ts] compiler API the parser reads: each node kind the
    source tests for is a constructor, with the properties the source reads
    from it.  A property the API declares optional is an [option]. *)

Module ts.

(** [ts.SyntaxKind]: the members the source names, [Block] (the kind of the
    only statement node that has a [statements] property), and every other
    member by its numeric value. *)
Module SyntaxKind.
Inductive t : Type :=
| CallExpression | BinaryExpression | PropertyAccessExpression
| ElementAccessExpression | Identifier | NewExpression
| ConditionalExpression | StringLiteral | NumericLiteral
| FalseKeyword | TrueKeyword | NullKeyword
| ParenthesizedExpression | PostfixUnaryExpression
| PrefixUnaryExpression | ArrayLiteralExpression
| PlusPlusToken | MinusMinusToken | PlusToken | MinusToken
| TildeToken | ExclamationToken
| VariableDeclarationList
| IfStatement | ReturnStatement | ThrowStatement | ExpressionStatement
| VariableStatement | WhileStatement | ForOfStatement | ForStatement
| Block
| Other (value : N).

Definition eq_dec (a b : t) : {a = b} + {a <> b}.
Proof. decide equality. apply N.eq_dec. Defined.

Definition eqb (a b : t) : bool := if eq_dec a b then true else false.
End SyntaxKind.

Record Symbol : Type := mkSymbol { name : jsstring }.

(** [ts.Type], as far as [convertTsType] probes it. *)
Inductive Type_ : Type :=
| mkType (intrinsicName : option jsstring)
         (symbol : option Symbol)
         (typeArguments : option (list Type_)).

(** Expression nodes.  [operatorToken] holds [operatorToken.getText()];
    the keyword literals hold no text, their [getText()] is the keyword. *)
Inductive Expression : Type :=
| CallExpression (expression : Expression) (arguments : list Expression)
| BinaryExpression (left : Expression) (operatorToken : jsstring)
                   (right : Expression)
| PropertyAccessExpression (expression : Expression) (name : Expression)
| ElementAccessExpression (expression : Expression)
                          (argumentExpression : option Expression)
| Identifier (text : jsstring)
| NewExpression (expression : Expression)
                (arguments : option (list Expression))
| ConditionalExpression (condition whenTrue whenFalse : Expression)
| StringLiteral (text : jsstring)
| NumericLiteral (text : jsstring)
| FalseKeyword
| TrueKeyword
| NullKeyword
| ParenthesizedExpression (expression : Expression)
| PostfixUnaryExpression (operand : Expression) (operator : SyntaxKind.t)
| PrefixUnaryExpression (operator : SyntaxKind.t) (operand : Expression)
| ArrayLiteralExpression (elements : list Expression)
| OtherExpression (kind : SyntaxKind.t).

(** [tsExpr.kind]. *)
Definition kind (e : Expression) : SyntaxKind.t :=
  match e with
  | CallExpression _ _ => SyntaxKind.CallExpression
  | BinaryExpression _ _ _ => SyntaxKind.BinaryExpression
  | PropertyAccessExpression _ _ => SyntaxKind.PropertyAccessExpression
  | ElementAccessExpression _ _ => SyntaxKind.ElementAccessExpression
  | Identifier _ => SyntaxKind.Identifier
  | NewExpression _ _ => SyntaxKind.NewExpression
  | ConditionalExpression _ _ _ => SyntaxKind.ConditionalExpression
  | StringLiteral _ => SyntaxKind.StringLiteral
  | NumericLiteral _ => SyntaxKind.NumericLiteral
  | FalseKeyword => SyntaxKind.FalseKeyword
  | TrueKeyword => SyntaxKind.TrueKeyword
  | NullKeyword => SyntaxKind.NullKeyword
  | ParenthesizedExpression _ => SyntaxKind.ParenthesizedExpression
  | PostfixUnaryExpression _ _ => SyntaxKind.PostfixUnaryExpression
  | PrefixUnaryExpression _ _ => SyntaxKind.PrefixUnaryExpression
  | ArrayLiteralExpression _ => SyntaxKind.ArrayLiteralExpression
  | OtherExpression k => k
  end.

(** [varDecl.name.getText()] and [varDecl.initializer]. *)
Record VariableDeclaration : Type := mkVariableDeclaration {
  nameText : jsstring;
  initializer : option Expression
}.

(** [ts.ForInitializer]: a declaration list or an expression. *)
Inductive ForInitializer : Type :=
| VariableDeclarationList (declarations : list VariableDeclaration)
| InitializerExpression (e : Expression).

Inductive Statement : Type :=
| IfStatement (expression : Expression) (thenStatement : Statement)
              (elseStatement : option Statement)
| ReturnStatement (expression : option Expression)
| ThrowStatement (expression : option Expression)
| ExpressionStatement (expression : Expression)
| VariableStatement (declarations : list VariableDeclaration)
| WhileStatement (expression : Expression) (statement : Statement)
| ForOfStatement (initializer : ForInitializer) (expression : Expression)
                 (statement : Statement)
| ForStatement (initializer : option ForInitializer)
               (condition incrementor : option Expression)
               (statement : Statement)
| Block (statements : list Statement)
| OtherStatement (kind : SyntaxKind.t).

(** [tsStatement.kind]. *)
Definition statementKind (s : Statement) : SyntaxKind.t :=
  match s with
  | IfStatement _ _ _ => SyntaxKind.IfStatement
  | ReturnStatement _ => SyntaxKind.ReturnStatement
  | ThrowStatement _ => SyntaxKind.ThrowStatement
  | ExpressionStatement _ => SyntaxKind.ExpressionStatement
  | VariableStatement _ => SyntaxKind.VariableStatement
  | WhileStatement _ _ => SyntaxKind.WhileStatement
  | ForOfStatement _ _ _ => SyntaxKind.ForOfStatement
  | ForStatement _ _ _ _ => SyntaxKind.ForStatement
  | Block _ => SyntaxKind.Block
  | OtherStatement k => k
  end.

End ts.

(** ** The input: ts-simple-ast wrappers

    What [createSchemaFromSourceFile] asks of the wrapped declarations; a
    record field holds what the getter of that name returns. *)

Module SimpleAst.

(** A parameter, also when [getInstanceProperties] lists it as a promoted
    property.  [getType] is [getType().compilerType]; [getInitializer] is
    the text of the initializer, if there is one. *)
Module ParameterDeclaration.
Record t : Type := mk {
  getName : jsstring;
  getType : ts.Type_;
  getScope : jsstring;
  getInitializer : option jsstring
}.
End ParameterDeclaration.

Module PropertyDeclaration.
Record t : Type := mk {
  getName : jsstring;
  getType : ts.Type_;
  getScope : jsstring;
  getInitializer : option jsstring
}.
End PropertyDeclaration.

(** The members [getInstanceProperties] returns. *)
Inductive ClassInstancePropertyTypes : Type :=
| IsPropertyDeclaration (p : PropertyDeclaration.t)
| IsParameterDeclaration (p : ParameterDeclaration.t)
| IsGetAccessorDeclaration
| IsSetAccessorDeclaration.

(** [getBody] is [getBody().compilerNode] when [getBody()] is defined. *)
Module MethodDeclaration.
Record t : Type := mk {
  getName : jsstring;
  getReturnType : ts.Type_;
  getParameters : list ParameterDeclaration.t;
  getBody : option ts.Statement
}.
End MethodDeclaration.

Module ConstructorDeclaration.
Record t : Type := mk {
  getParameters : list ParameterDeclaration.t;
  getBody : option ts.Statement
}.
End ConstructorDeclaration.

Module ClassDeclaration.
Record t : Type := mk {
  getName : jsstring;
  getInstanceProperties : list ClassInstancePropertyTypes;
  getInstanceMethods : list MethodDeclaration.t;
  getConstructors : list ConstructorDeclaration.t
}.
End ClassDeclaration.

Module EnumMember.
Record t : Type := mk { getName : jsstring }.
End EnumMember.

Module EnumDeclaration.
Record t : Type := mk {
  getName : jsstring;
  getMembers : list EnumMember.t
}.
End EnumDeclaration.

Module SourceFile.
Record t : Type := mk {
  getEnums : list EnumDeclaration.t;
  getClasses : list ClassDeclaration.t
}.
End SourceFile.

End SimpleAst.

(** ** The output: the KSLang schema

    The objects the parser builds, field by field as its object literals
    write them.  An [Expression] or [Statement] constructor stands for the
    object whose [type] tag is the [ks.ExpressionType] or [ks.StatementType]
    member of that name. *)

Module ks.

(** Modelled from the spec: [KSLangSchema.ts], which declares the tags and
    interfaces of the schema, is not among the sources; the members are the
    ones [TypeScriptParser.ts] uses and section 3 of the specification
    lists. *)
Inductive PrimitiveType : Type :=
| Int32 | String | Boolean | Void | Array | Class.

(** Modelled from the spec: [ks.Visibility] of the missing
    [KSLangSchema.ts], [{Public, Protected, Private}]. *)
Inductive Visibility : Type := Public | Protected | Private.

(** [ks.Type]: [className] and [typeArguments] are set on some paths only. *)
Inductive Type_ : Type :=
| mkType (type : PrimitiveType)
         (className : option jsstring)
         (typeArguments : option (list Type_)).

Record MethodParameter : Type := mkMethodParameter {
  parameterName : jsstring;
  parameterType : Type_
}.

Inductive Expression : Type :=
| Call (method : JsOpt Expression) (arguments : list (JsOpt Expression))
| Binary (left right : JsOpt Expression) (operator : jsstring)
| PropertyAccess (object propertyName : JsOpt Expression)
| Identifier (text : jsstring)
| New (class : JsOpt Expression) (arguments : list (JsOpt Expression))
| Conditional (condition whenTrue whenFalse : JsOpt Expression)
| Literal (literalType : jsstring) (value : jsstring)
| Parenthesized (expression : JsOpt Expression)
| Unary (unaryType : jsstring) (operator : JsOpt jsstring)
        (operand : JsOpt Expression)
| ArrayLiteral (items : list (JsOpt Expression)).

(** The object [convertVariableDeclaration] builds; its tag is
    [ks.StatementType.Variable]. *)
Record VariableDeclaration : Type := mkVariableDeclaration {
  variableName : jsstring;
  initializer : JsOpt Expression
}.

Inductive Statement : Type :=
| If (condition : JsOpt Expression) (then_ else_ : JsOpt Block)
| Return (expression : JsOpt Expression)
| Throw (expression : JsOpt Expression)
| ExpressionStatement (expression : JsOpt Expression)
| Variable_ (declaration : VariableDeclaration)
| While (condition : JsOpt Expression) (body : JsOpt Block)
| Foreach (itemVariable : JsOpt VariableDeclaration)
          (items : JsOpt Expression) (body : JsOpt Block)
| For (itemVariable : JsOpt VariableDeclaration)
      (condition incrementor : JsOpt Expression) (body : JsOpt Block)
with Block : Type :=
| mkBlock (statements : list (JsOpt Statement)).

Definition statements (b : Block) : list (JsOpt Statement) :=
  match b with mkBlock s => s end.

Record Field : Type := mkField {
  fieldType : Type_;
  visibility : Visibility;
  defaultValue : option jsstring
}.

Record Method : Type := mkMethod {
  returns : Type_;
  parameters : list MethodParameter;
  body : JsOpt Block
}.

Record Constructor : Type := mkConstructor {
  constructorParameters : list MethodParameter;
  constructorBody : JsOpt Block
}.

Record Class_ : Type := mkClass {
  fields : gmap jsstring Field;
  methods : gmap jsstring Method;
  constructor : option Constructor
}.

Record EnumMember : Type := mkEnumMember { enumMemberName : jsstring }.

Record Enum : Type := mkEnum { values : list EnumMember }.

Record SchemaFile : Type := mkSchemaFile {
  enums : gmap jsstring Enum;
  classes : gmap jsstring Class_
}.

End ks.

(** ** nameToKS *)

Definition invalidCharacterMessage (c : N) (name : jsstring) : jsstring :=
  str "Invalid character ('" ++ [c] ++ str "') in name: " ++ name ++ str ".".

Definition nameToKS_body (name : jsstring) (n : option Node)
    (result : jsstring) (c : N) : M jsstring :=
  if between "A" "Z" c then
    ret (result ++ (if jsstring_eqb result [] then [] else str "_")
                ++ [charToLowerCase c])
  else if between "a" "z" c || jsstring_eqb [c] (str "_") || between "0" "9" c then
    ret (result ++ [c])
  else
    logNodeError (invalidCharacterMessage c name) n ;; ret result.

Definition nameToKS (name : jsstring) (n : option Node) : M jsstring :=
  forOf (nameToKS_body name n) name [].

(** ** convertTsType *)

(** [(<any>tsType).intrinsicName || tsType.symbol.name]: an absent or empty
    [intrinsicName] is falsy, and reading [name] of an absent [symbol]
    throws. *)
Definition typeText (intrinsicName : option jsstring)
    (symbol : option ts.Symbol) : M jsstring :=
  match intrinsicName with
  | Some (c :: s) => ret (c :: s)
  | _ => match symbol with
         | Some sym => ret (ts.name sym)
         | None => throw
         end
  end.

Fixpoint convertTsType (tsType : ts.Type_) : M ks.Type_ :=
  match tsType with
  | ts.mkType intrinsicName symbol typeArgs =>
    let* typeText := typeText intrinsicName symbol in
    if jsstring_eqb typeText (str "number") then
      ret (ks.mkType ks.Int32 None None)
    else if jsstring_eqb typeText (str "string") then
      ret (ks.mkType ks.String None None)
    else if jsstring_eqb typeText (str "boolean") then
      ret (ks.mkType ks.Boolean None None)
    else if jsstring_eqb typeText (str "void") then
      ret (ks.mkType ks.Void None None)
    else
      let isArray := jsstring_eqb typeText (str "Array") in
      let type := if isArray then ks.Array else ks.Class in
      let* className :=
        if negb isArray
        then (let* n := nameToKS typeText None in ret (Some n))
        else ret None in
      let* typeArguments :=
        match typeArgs with
        | Some typeArgs =>
            let* r := mapM convertTsType typeArgs in ret (Some r)
        | None => ret None
        end in
      ret (ks.mkType type className typeArguments)
  end.

(** [convertParameter] *)
Definition convertParameter (tsParam : SimpleAst.ParameterDeclaration.t)
    : M ks.MethodParameter :=
  let* name := nameToKS (SimpleAst.ParameterDeclaration.getName tsParam) None in
  let* type := convertTsType (SimpleAst.ParameterDeclaration.getType tsParam) in
  ret (ks.mkMethodParameter name type).

(** The guard [if (typeof x === "undefined") return undefined;] in front of
    a conversion of present nodes. *)
Definition orUndefined {A B} (f : A -> M (JsOpt B)) (x : option A)
    : M (JsOpt B) :=
  match x with
  | None => ret Undefined
  | Some a => f a
  end.

Definition dquote : jsstring := [34].

Section Lowering.

(** [ts.SyntaxKind[kind]]: the member name the TypeScript library answers
    for a kind.  The table belongs to the library, not to this file. *)
Variable SyntaxKindName : ts.SyntaxKind.t -> jsstring.

(** ** convertExpression *)

Definition knownKeywords : list jsstring := [str "this"; str "super"].

Definition unexpectedExpressionKind (k : ts.SyntaxKind.t) : jsstring :=
  str "Unexpected expression kind " ++ dquote ++ SyntaxKindName k
    ++ dquote ++ str ".".

Definition postfixOperator (operator : ts.SyntaxKind.t) : JsOpt jsstring :=
  if ts.SyntaxKind.eqb operator ts.SyntaxKind.PlusPlusToken then Val (str "++")
  else if ts.SyntaxKind.eqb operator ts.SyntaxKind.MinusMinusToken then Val (str "--")
  else Null.

Definition prefixOperator (operator : ts.SyntaxKind.t) : JsOpt jsstring :=
  if ts.SyntaxKind.eqb operator ts.SyntaxKind.PlusPlusToken then Val (str "++")
  else if ts.SyntaxKind.eqb operator ts.SyntaxKind.MinusMinusToken then Val (str "--")
  else if ts.SyntaxKind.eqb operator ts.SyntaxKind.PlusToken then Val (str "+")
  else if ts.SyntaxKind.eqb operator ts.SyntaxKind.MinusToken then Val (str "-")
  else if ts.SyntaxKind.eqb operator ts.SyntaxKind.TildeToken then Val (str "~")
  else if ts.SyntaxKind.eqb operator ts.SyntaxKind.ExclamationToken then Val (str "!")
  else Null.

(** The last [else] of [convertExpression]: a kind none of the tests
    matched. *)
Definition convertOtherExpression (k : ts.SyntaxKind.t)
    : M (JsOpt ks.Expression) :=
  let kindName := SyntaxKindName k in
  match List.find (fun x => jsstring_eqb (toLowerCase kindName)
                                         (x ++ str "keyword"))
                  knownKeywords with
  | Some keyword => ret (Val (ks.Identifier keyword))
  | None => logNodeError (unexpectedExpressionKind k) None ;; ret Null
  end.

(** [convertExpression] on a present node. *)
Fixpoint convertExpressionNode (tsExpr : ts.Expression)
    : M (JsOpt ks.Expression) :=
  match tsExpr with
  | ts.CallExpression expression arguments =>
      let* method := convertExpressionNode expression in
      let* arguments := mapM convertExpressionNode arguments in
      ret (Val (ks.Call method arguments))
  | ts.BinaryExpression tsLeft operatorToken tsRight =>
      let* ksLeft := convertExpressionNode tsLeft in
      let* ksRight := convertExpressionNode tsRight in
      ret (Val (ks.Binary ksLeft ksRight operatorToken))
  | ts.PropertyAccessExpression expression name =>
      let* object := convertExpressionNode expression in
      let* propertyName := convertExpressionNode name in
      ret (Val (ks.PropertyAccess object propertyName))
  | ts.ElementAccessExpression expression argumentExpression =>
      let* object := convertExpressionNode expression in
      let* propertyName :=
        orUndefined convertExpressionNode argumentExpression in
      ret (Val (ks.PropertyAccess object propertyName))
  | ts.Identifier text =>
      ret (Val (ks.Identifier text))
  | ts.NewExpression expression arguments =>
      let* class := convertExpressionNode expression in
      let* arguments :=
        match arguments with
        | Some arguments => mapM convertExpressionNode arguments
        | None => throw
        end in
      ret (Val (ks.New class arguments))
  | ts.ConditionalExpression condition whenTrue whenFalse =>
      let* condition := convertExpressionNode condition in
      let* whenTrue := convertExpressionNode whenTrue in
      let* whenFalse := convertExpressionNode whenFalse in
      ret (Val (ks.Conditional condition whenTrue whenFalse))
  | ts.StringLiteral text =>
      ret (Val (ks.Literal (str "string") text))
  | ts.NumericLiteral text =>
      ret (Val (ks.Literal (str "numeric") text))
  | ts.FalseKeyword =>
      ret (Val (ks.Literal (str "boolean") (str "false")))
  | ts.TrueKeyword =>
      ret (Val (ks.Literal (str "boolean") (str "true")))
  | ts.NullKeyword =>
      ret (Val (ks.Literal (str "null") (str "null")))
  | ts.ParenthesizedExpression expression =>
      let* expression := convertExpressionNode expression in
      ret (Val (ks.Parenthesized expression))
  | ts.PostfixUnaryExpression operand operator =>
      let* operand := convertExpressionNode operand in
      ret (Val (ks.Unary (str "postfix") (postfixOperator operator) operand))
  | ts.PrefixUnaryExpression operator operand =>
      let* operand := convertExpressionNode operand in
      ret (Val (ks.Unary (str "prefix") (prefixOperator operator) operand))
  | ts.ArrayLiteralExpression elements =>
      let* items := mapM convertExpressionNode elements in
      ret (Val (ks.ArrayLiteral items))
  | ts.OtherExpression k =>
      convertOtherExpression k
  end.

Definition convertExpression (tsExpr : option ts.Expression)
    : M (JsOpt ks.Expression) :=
  orUndefined convertExpressionNode tsExpr.

(** ** convertVariableDeclaration, convertInitializer *)

Definition convertVariableDeclaration (varDecl : ts.VariableDeclaration)
    : M ks.VariableDeclaration :=
  let* initializer := convertExpression (ts.initializer varDecl) in
  ret (ks.mkVariableDeclaration (ts.nameText varDecl) initializer).

Definition multipleDeclarations : jsstring :=
  str "Multiple declarations are not supported as for of initializers.".

Definition initializerNotSupported (k : ts.SyntaxKind.t) : jsstring :=
  SyntaxKindName k ++ str " is not supported yet as for of initializer.".

(** [convertInitializer] reads [initializer.kind] unguarded: an absent
    initializer throws.  So does [declarations[0]] of an empty list, in
    [convertVariableDeclaration], after the diagnostic. *)
Definition convertInitializer (initializer : option ts.ForInitializer)
    : M (JsOpt ks.VariableDeclaration) :=
  match initializer with
  | None => throw
  | Some (ts.VariableDeclarationList declarations) =>
      (if negb (length declarations =? 1)%nat
       then logNodeError multipleDeclarations None
       else ret tt) ;;
      match declarations with
      | [] => throw
      | varDecl :: _ =>
          let* itemVariable := convertVariableDeclaration varDecl in
          ret (Val itemVariable)
      end
  | Some (ts.InitializerExpression e) =>
      logNodeError (initializerNotSupported (ts.kind e)) None ;;
      ret Undefined
  end.

(** ** convertStatement, convertBlock *)

Definition unexpectedStatementKind (k : ts.SyntaxKind.t) : jsstring :=
  str "Unexpected statement kind " ++ dquote ++ SyntaxKindName k
    ++ dquote ++ str ".".

(** The body of [convertBlock] past its guard, over the conversion of
    statements it calls back. *)
Definition convertBlockWith
    (convertStatement : ts.Statement -> M (list (JsOpt ks.Statement)))
    (tsBlock : ts.Statement) : M (JsOpt ks.Block) :=
  match tsBlock with
  | ts.Block statements =>
      let* r := mapM convertStatement statements in
      ret (Val (ks.mkBlock (flattenArray r)))
  | _ =>
      let* r := convertStatement tsBlock in
      ret (Val (ks.mkBlock r))
  end.

(** [convertStatement] on a present node.  [ksStmts || [ksStmt]] is
    [ksStmts] on the variable-statement path (an array, also an empty one,
    is truthy) and [[ksStmt]] on every other path, where [ksStmt] is still
    [null] when no test matched. *)
Fixpoint convertStatementNode (tsStatement : ts.Statement)
    : M (list (JsOpt ks.Statement)) :=
  match tsStatement with
  | ts.IfStatement expression thenStatement elseStatement =>
      let* condition := convertExpressionNode expression in
      let* then_ := convertBlockWith convertStatementNode thenStatement in
      let* else_ :=
        orUndefined (convertBlockWith convertStatementNode) elseStatement in
      ret [Val (ks.If condition then_ else_)]
  | ts.ReturnStatement expression =>
      let* expression := convertExpression expression in
      ret [Val (ks.Return expression)]
  | ts.ThrowStatement expression =>
      let* expression := convertExpression expression in
      ret [Val (ks.Throw expression)]
  | ts.ExpressionStatement expression =>
      let* expression := convertExpressionNode expression in
      ret [Val (ks.ExpressionStatement expression)]
  | ts.VariableStatement declarations =>
      let* ksStmts := mapM convertVariableDeclaration declarations in
      ret (List.map (fun d => Val (ks.Variable_ d)) ksStmts)
  | ts.WhileStatement expression statement =>
      let* condition := convertExpressionNode expression in
      let* body := convertBlockWith convertStatementNode statement in
      ret [Val (ks.While condition body)]
  | ts.ForOfStatement initializer expression statement =>
      let* itemVariable := convertInitializer (Some initializer) in
      let* items := convertExpressionNode expression in
      let* body := convertBlockWith convertStatementNode statement in
      ret [Val (ks.Foreach itemVariable items body)]
  | ts.ForStatement initializer condition incrementor statement =>
      let* itemVariable := convertInitializer initializer in
      let* condition := convertExpression condition in
      let* incrementor := convertExpression incrementor in
      let* body := convertBlockWith convertStatementNode statement in
      ret [Val (ks.For itemVariable condition incrementor body)]
  | ts.Block _ | ts.OtherStatement _ =>
      logNodeError
        (unexpectedStatementKind (ts.statementKind tsStatement)) None ;;
      ret [Null]
  end.

Definition convertStatement (tsStatement : option ts.Statement)
    : M (JsOpt (list (JsOpt ks.Statement))) :=
  orUndefined (fun s => let* r := convertStatementNode s in ret (Val r))
              tsStatement.

Definition convertBlockNode : ts.Statement -> M (JsOpt ks.Block) :=
  convertBlockWith convertStatementNode.

Definition convertBlock (tsBlock : option ts.Statement)
    : M (JsOpt ks.Block) :=
  orUndefined convertBlockNode tsBlock.

(** ** createSchemaFromSourceFile *)

(** [object[key] = value] on an object made by a literal: the own property
    [key] is written, except that the key [__proto__] reaches the setter
    of [Object.prototype] and leaves the own properties as they are. *)
Definition setProperty {V} (key : jsstring) (value : V)
    (object : gmap jsstring V) : gmap jsstring V :=
  if jsstring_eqb key (str "__proto__") then object
  else <[key := value]> object.

Definition convertVisibility (scope : jsstring) : ks.Visibility :=
  if jsstring_eqb scope (str "public") then ks.Public
  else if jsstring_eqb scope (str "protected") then ks.Protected
  else ks.Private.

(** One turn of the loop over [getInstanceProperties], for a member that
    passed the [instanceof] tests. *)
Definition convertField (getName : jsstring) (getType : ts.Type_)
    (getScope : jsstring) (getInitializer : option jsstring)
    (fields : gmap jsstring ks.Field) : M (gmap jsstring ks.Field) :=
  let* key := nameToKS getName None in
  let* type := convertTsType getType in
  ret (setProperty key
         (ks.mkField type (convertVisibility getScope) getInitializer)
         fields).

Definition convertInstanceProperty (fields : gmap jsstring ks.Field)
    (tsProp : SimpleAst.ClassInstancePropertyTypes)
    : M (gmap jsstring ks.Field) :=
  match tsProp with
  | SimpleAst.IsPropertyDeclaration p =>
      convertField (SimpleAst.PropertyDeclaration.getName p)
                   (SimpleAst.PropertyDeclaration.getType p)
                   (SimpleAst.PropertyDeclaration.getScope p)
                   (SimpleAst.PropertyDeclaration.getInitializer p) fields
  | SimpleAst.IsParameterDeclaration p =>
      convertField (SimpleAst.ParameterDeclaration.getName p)
                   (SimpleAst.ParameterDeclaration.getType p)
                   (SimpleAst.ParameterDeclaration.getScope p)
                   (SimpleAst.ParameterDeclaration.getInitializer p) fields
  | _ => ret fields
  end.

(** [getBody().compilerNode]: throws when [getBody()] is undefined. *)
Definition compilerNodeOfBody (getBody : option ts.Statement)
    : M ts.Statement :=
  match getBody with
  | Some compilerNode => ret compilerNode
  | None => throw
  end.

Definition convertMethod (methods : gmap jsstring ks.Method)
    (tsMethod : SimpleAst.MethodDeclaration.t)
    : M (gmap jsstring ks.Method) :=
  let* key := nameToKS (SimpleAst.MethodDeclaration.getName tsMethod) None in
  let* returns :=
    convertTsType (SimpleAst.MethodDeclaration.getReturnType tsMethod) in
  let* parameters :=
    mapM convertParameter
         (SimpleAst.MethodDeclaration.getParameters tsMethod) in
  let* compilerNode :=
    compilerNodeOfBody (SimpleAst.MethodDeclaration.getBody tsMethod) in
  let* body := convertBlock (Some compilerNode) in
  ret (setProperty key (ks.mkMethod returns parameters body) methods).

(** [if (constructors.length > 0) classSchema.constructor = ...], reading
    [constructors[0]] only. *)
Definition convertConstructors
    (constructors : list SimpleAst.ConstructorDeclaration.t)
    : M (option ks.Constructor) :=
  match constructors with
  | [] => ret None
  | constructor0 :: _ =>
      let* parameters :=
        mapM convertParameter
             (SimpleAst.ConstructorDeclaration.getParameters constructor0) in
      let* compilerNode :=
        compilerNodeOfBody
          (SimpleAst.ConstructorDeclaration.getBody constructor0) in
      let* body := convertBlock (Some compilerNode) in
      ret (Some (ks.mkConstructor parameters body))
  end.

(** One turn of the loop over [getClasses].  The class object is entered
    in [schema.classes] before it is filled; nothing reads the schema in
    between, so it is entered here once it is complete. *)
Definition convertClass (classes : gmap jsstring ks.Class_)
    (tsClass : SimpleAst.ClassDeclaration.t)
    : M (gmap jsstring ks.Class_) :=
  let* key := nameToKS (SimpleAst.ClassDeclaration.getName tsClass) None in
  let* fields :=
    forOf convertInstanceProperty
          (SimpleAst.ClassDeclaration.getInstanceProperties tsClass) ∅ in
  let* methods :=
    forOf convertMethod
          (SimpleAst.ClassDeclaration.getInstanceMethods tsClass) ∅ in
  let* constructor :=
    convertConstructors
      (SimpleAst.ClassDeclaration.getConstructors tsClass) in
  ret (setProperty key (ks.mkClass fields methods constructor) classes).

Definition convertEnumMember (tsEnumMember : SimpleAst.EnumMember.t)
    : M ks.EnumMember :=
  let* name := nameToKS (SimpleAst.EnumMember.getName tsEnumMember) None in
  ret (ks.mkEnumMember name).

Definition convertEnum (enums : gmap jsstring ks.Enum)
    (tsEnum : SimpleAst.EnumDeclaration.t) : M (gmap jsstring ks.Enum) :=
  let* key := nameToKS (SimpleAst.EnumDeclaration.getName tsEnum) None in
  let* values :=
    mapM convertEnumMember (SimpleAst.EnumDeclaration.getMembers tsEnum) in
  ret (setProperty key (ks.mkEnum values) enums).

Definition createSchemaFromSourceFile (typeInfo : SimpleAst.SourceFile.t)
    : M ks.SchemaFile :=
  let* enums := forOf convertEnum (SimpleAst.SourceFile.getEnums typeInfo) ∅ in
  let* classes :=
    forOf convertClass (SimpleAst.SourceFile.getClasses typeInfo) ∅ in
  ret (ks.mkSchemaFile enums classes).

End Lowering.

(** * Descriptions the properties refer to *)

(** ** nameToKS by position *)

Definition isUpper (c : N) : bool := (65 <=? c) && (c <=? 90).

(** Lowercase letter, underscore or digit. *)
Definition passesThrough (c : N) : bool :=
  ((97 <=? c) && (c <=? 122)) || (c =? 95) || ((48 <=? c) && (c <=? 57)).

(** The normalized text of [name]; [started] tells whether a character has
    been emitted before. *)
Fixpoint normalized (started : bool) (name : jsstring) : jsstring :=
  match name with
  | [] => []
  | c :: rest =>
      if isUpper c then
        (if started then [95] else []) ++ (c + 32) :: normalized true rest
      else if passesThrough c then c :: normalized true rest
      else normalized started rest
  end.

Definition invalidCharacters (name : jsstring) : jsstring :=
  List.filter (fun c => negb (isUpper c || passesThrough c)) name.

(** ** Kinds and names *)

Definition primitiveNames : list jsstring :=
  [str "number"; str "string"; str "boolean"; str "void"].

(** The node kinds [convertExpression] has a case for. *)
Definition inExpressionGrammar (k : ts.SyntaxKind.t) : bool :=
  match k with
  | ts.SyntaxKind.CallExpression | ts.SyntaxKind.BinaryExpression
  | ts.SyntaxKind.PropertyAccessExpression
  | ts.SyntaxKind.ElementAccessExpression | ts.SyntaxKind.Identifier
  | ts.SyntaxKind.NewExpression | ts.SyntaxKind.ConditionalExpression
  | ts.SyntaxKind.StringLiteral | ts.SyntaxKind.NumericLiteral
  | ts.SyntaxKind.FalseKeyword | ts.SyntaxKind.TrueKeyword
  | ts.SyntaxKind.NullKeyword | ts.SyntaxKind.ParenthesizedExpression
  | ts.SyntaxKind.PostfixUnaryExpression
  | ts.SyntaxKind.PrefixUnaryExpression
  | ts.SyntaxKind.ArrayLiteralExpression => true
  | _ => false
  end.

(** The node kinds [convertStatement] has a case for. *)
Definition inStatementGrammar (k : ts.SyntaxKind.t) : bool :=
  match k with
  | ts.SyntaxKind.IfStatement | ts.SyntaxKind.ReturnStatement
  | ts.SyntaxKind.ThrowStatement | ts.SyntaxKind.ExpressionStatement
  | ts.SyntaxKind.VariableStatement | ts.SyntaxKind.WhileStatement
  | ts.SyntaxKind.ForOfStatement | ts.SyntaxKind.ForStatement => true
  | _ => false
  end.

(** ** Results of conversions *)

(** The computation ends normally, without a TypeError. *)
Definition completes {A} (m : M A) : Prop :=
  exists (l : list Diagnostic) (a : A), m = (l, Normal a).

(** A conversion that ends normally, with its log and its value. *)
Definition lowersTo {A B} (f : A -> M B) (x : A) (r : list Diagnostic * B)
    : Prop :=
  f x = (fst r, Normal (snd r)).

(** The [Variable] statements of a declaration list, one per declarator,
    given what the initializers lower to. *)
Definition variableStatements (ds : list ts.VariableDeclaration)
    (rs : list (list Diagnostic * JsOpt ks.Expression))
    : list (JsOpt ks.Statement) :=
  List.map (fun dr : ts.VariableDeclaration * (list Diagnostic * JsOpt ks.Expression) =>
              Val (ks.Variable_
                     (ks.mkVariableDeclaration (ts.nameText (fst dr))
                                               (snd (snd dr)))))
           (combine ds rs).

(** The key [createSchemaFromSourceFile] files a class under: the text
    [nameToKS] returns for its name. *)
Definition classKey (tsClass : SimpleAst.ClassDeclaration.t) : jsstring :=
  normalized false (SimpleAst.ClassDeclaration.getName tsClass).

(** The class schema [cs] has the constructor entry the code derives from
    the declared constructors of [tsClass]: none when there is none, and
    else the parameters and the body of the first one, lowered by
    [convertParameter] and [convertBlock]. *)
Definition hasFirstConstructor (SyntaxKindName : ts.SyntaxKind.t -> jsstring)
    (tsClass : SimpleAst.ClassDeclaration.t)
    (cs : ks.Class_) : Prop :=
  match SimpleAst.ClassDeclaration.getConstructors tsClass with
  | [] => ks.constructor cs = None
  | constructor0 :: _ =>
      exists (rp : list Diagnostic * list ks.MethodParameter)
             (compilerNode : ts.Statement)
             (rb : list Diagnostic * JsOpt ks.Block),
        lowersTo (mapM convertParameter)
                 (SimpleAst.ConstructorDeclaration.getParameters constructor0) rp
        /\ SimpleAst.ConstructorDeclaration.getBody constructor0
           = Some compilerNode
        /\ lowersTo (convertBlock SyntaxKindName) (Some compilerNode) rb
        /\ ks.constructor cs = Some (ks.mkConstructor (snd rp) (snd rb))
  end.

(** The declarations of a class with every constructor after the first
    taken away. *)
Definition firstConstructorOnly (tsClass : SimpleAst.ClassDeclaration.t)
    : SimpleAst.ClassDeclaration.t :=
  SimpleAst.ClassDeclaration.mk
    (SimpleAst.ClassDeclaration.getName tsClass)
    (SimpleAst.ClassDeclaration.getInstanceProperties tsClass)
    (SimpleAst.ClassDeclaration.getInstanceMethods tsClass)
    (firstn 1 (SimpleAst.ClassDeclaration.getConstructors tsClass)).

Definition firstConstructorsOnly (typeInfo : SimpleAst.SourceFile.t)
    : SimpleAst.SourceFile.t :=
  SimpleAst.SourceFile.mk
    (SimpleAst.SourceFile.getEnums typeInfo)
    (List.map firstConstructorOnly (SimpleAst.SourceFile.getClasses typeInfo)).

(** ** Trees that lower without a TypeError *)

(** No [new] without an argument list occurs in the expression. *)
Fixpoint expressionLowers (e : ts.Expression) : bool :=
  match e with
  | ts.CallExpression expression arguments =>
      expressionLowers expression && forallb expressionLowers arguments
  | ts.BinaryExpression tsLeft _ tsRight =>
      expressionLowers tsLeft && expressionLowers tsRight
  | ts.PropertyAccessExpression expression name =>
      expressionLowers expression && expressionLowers name
  | ts.ElementAccessExpression expression argumentExpression =>
      expressionLowers expression
      && match argumentExpression with
         | Some a => expressionLowers a
         | None => true
         end
  | ts.NewExpression expression arguments =>
      expressionLowers expression
      && match arguments with
         | Some arguments => forallb expressionLowers arguments
         | None => false
         end
  | ts.ConditionalExpression condition whenTrue whenFalse =>
      expressionLowers condition && expressionLowers whenTrue
      && expressionLowers whenFalse
  | ts.ParenthesizedExpression expression => expressionLowers expression
  | ts.PostfixUnaryExpression operand _ => expressionLowers operand
  | ts.PrefixUnaryExpression _ operand => expressionLowers operand
  | ts.ArrayLiteralExpression elements => forallb expressionLowers elements
  | _ => true
  end.

Definition optionalExpressionLowers (e : option ts.Expression) : bool :=
  match e with
  | Some e => expressionLowers e
  | None => true
  end.

Definition declarationLowers (d : ts.VariableDeclaration) : bool :=
  optionalExpressionLowers (ts.initializer d).

(** A present initializer; a declaration list in it has a first declarator. *)
Definition initializerLowers (i : option ts.ForInitializer) : bool :=
  match i with
  | Some (ts.VariableDeclarationList (d :: _)) => declarationLowers d
  | Some (ts.VariableDeclarationList []) => false
  | Some (ts.InitializerExpression _) => true
  | None => false
  end.

(** A body is walked statement by statement when it is a block. *)
Definition bodyLowersWith (statementLowers : ts.Statement -> bool)
    (b : ts.Statement) : bool :=
  match b with
  | ts.Block statements => forallb statementLowers statements
  | _ => statementLowers b
  end.

(** A block in statement position is reported, not walked. *)
Fixpoint statementLowers (s : ts.Statement) : bool :=
  match s with
  | ts.IfStatement expression thenStatement elseStatement =>
      expressionLowers expression
      && bodyLowersWith statementLowers thenStatement
      && match elseStatement with
         | Some e => bodyLowersWith statementLowers e
         | None => true
         end
  | ts.ReturnStatement expression => optionalExpressionLowers expression
  | ts.ThrowStatement expression => optionalExpressionLowers expression
  | ts.ExpressionStatement expression => expressionLowers expression
  | ts.VariableStatement declarations => forallb declarationLowers declarations
  | ts.WhileStatement expression statement =>
      expressionLowers expression && bodyLowersWith statementLowers statement
  | ts.ForOfStatement initializer expression statement =>
      initializerLowers (Some initializer) && expressionLowers expression
      && bodyLowersWith statementLowers statement
  | ts.ForStatement initializer condition incrementor statement =>
      initializerLowers initializer && optionalExpressionLowers condition
      && optionalExpressionLowers incrementor
      && bodyLowersWith statementLowers statement
  | ts.Block _ | ts.OtherStatement _ => true
  end.

Definition bodyLowers : ts.Statement -> bool := bodyLowersWith statementLowers.

(** ** Concrete inputs *)

(** A name table for concrete inputs: every member the source names under
    its own name, every other kind under [Unknown], the name of kind 0. *)
Definition sampleSyntaxKindName (k : ts.SyntaxKind.t) : jsstring :=
  match k with
  | ts.SyntaxKind.CallExpression => str "CallExpression"
  | ts.SyntaxKind.BinaryExpression => str "BinaryExpression"
  | ts.SyntaxKind.PropertyAccessExpression => str "PropertyAccessExpression"
  | ts.SyntaxKind.ElementAccessExpression => str "ElementAccessExpression"
  | ts.SyntaxKind.Identifier => str "Identifier"
  | ts.SyntaxKind.NewExpression => str "NewExpression"
  | ts.SyntaxKind.ConditionalExpression => str "ConditionalExpression"
  | ts.SyntaxKind.StringLiteral => str "StringLiteral"
  | ts.SyntaxKind.NumericLiteral => str "NumericLiteral"
  | ts.SyntaxKind.FalseKeyword => str "FalseKeyword"
  | ts.SyntaxKind.TrueKeyword => str "TrueKeyword"
  | ts.SyntaxKind.NullKeyword => str "NullKeyword"
  | ts.SyntaxKind.ParenthesizedExpression => str "ParenthesizedExpression"
  | ts.SyntaxKind.PostfixUnaryExpression => str "PostfixUnaryExpression"
  | ts.SyntaxKind.PrefixUnaryExpression => str "PrefixUnaryExpression"
  | ts.SyntaxKind.ArrayLiteralExpression => str "ArrayLiteralExpression"
  | ts.SyntaxKind.PlusPlusToken => str "PlusPlusToken"
  | ts.SyntaxKind.MinusMinusToken => str "MinusMinusToken"
  | ts.SyntaxKind.PlusToken => str "PlusToken"
  | ts.SyntaxKind.MinusToken => str "MinusToken"
  | ts.SyntaxKind.TildeToken => str "TildeToken"
  | ts.SyntaxKind.ExclamationToken => str "ExclamationToken"
  | ts.SyntaxKind.VariableDeclarationList => str "VariableDeclarationList"
  | ts.SyntaxKind.IfStatement => str "IfStatement"
  | ts.SyntaxKind.ReturnStatement => str "ReturnStatement"
  | ts.SyntaxKind.ThrowStatement => str "ThrowStatement"
  | ts.SyntaxKind.ExpressionStatement => str "ExpressionStatement"
  | ts.SyntaxKind.VariableStatement => str "VariableStatement"
  | ts.SyntaxKind.WhileStatement => str "WhileStatement"
  | ts.SyntaxKind.ForOfStatement => str "ForOfStatement"
  | ts.SyntaxKind.ForStatement => str "ForStatement"
  | ts.SyntaxKind.Block => str "Block"
  | ts.SyntaxKind.Other _ => str "Unknown"
  end.

(** [class Foo { constructor(a: number) {} constructor(b: string) { return; } }] *)
Definition sampleClass : SimpleAst.ClassDeclaration.t :=
  SimpleAst.ClassDeclaration.mk (str "Foo") [] []
    [SimpleAst.ConstructorDeclaration.mk
       [SimpleAst.ParameterDeclaration.mk (str "a")
          (ts.mkType (Some (str "number")) None None) (str "public") None]
       (Some (ts.Block []));
     SimpleAst.ConstructorDeclaration.mk
       [SimpleAst.ParameterDeclaration.mk (str "b")
          (ts.mkType (Some (str "string")) None None) (str "public") None]
       (Some (ts.Block [ts.ReturnStatement None]))].

Definition sampleSourceFile : SimpleAst.SourceFile.t :=
  SimpleAst.SourceFile.mk [] [sampleClass].

Definition sampleSchema : ks.SchemaFile :=
  ks.mkSchemaFile ∅
    (<[str "foo" :=
         ks.mkClass ∅ ∅
           (Some (ks.mkConstructor
                    [ks.mkMethodParameter (str "a")
                       (ks.mkType ks.Int32 None None)]
                    (Val (ks.mkBlock []))))]> ∅).

(** ** Descriptions for the further properties *)

(** Uppercase letter, lowercase letter, digit or underscore: the
    characters [nameToKS] does not report. *)
Definition isNameCharacter (c : N) : bool := isUpper c || passesThrough c.

Definition nameCharacters (name : jsstring) : jsstring :=
  List.filter isNameCharacter name.


(** The name [convertTsType] goes by, when there is one. *)
Definition canonicalName (intrinsicName : option jsstring)
    (symbol : option ts.Symbol) : option jsstring :=
  match intrinsicName with
  | Some (c :: s) => Some (c :: s)
  | _ => option_map ts.name symbol
  end.

Definition isPrimitiveName (name : jsstring) : bool :=
  existsb (jsstring_eqb name) primitiveNames.

(** Every type that [convertTsType] reaches has a name: the type itself
    and, unless it is a primitive, its type arguments. *)
Fixpoint typeResolved (t : ts.Type_) : bool :=
  match t with
  | ts.mkType intrinsicName symbol typeArguments =>
      match canonicalName intrinsicName symbol with
      | None => false
      | Some name =>
          isPrimitiveName name
          || match typeArguments with
             | Some typeArgs => forallb typeResolved typeArgs
             | None => true
             end
      end
  end.

Definition isPrimitiveType (type : ks.PrimitiveType) : bool :=
  match type with
  | ks.Int32 | ks.String | ks.Boolean | ks.Void => true
  | ks.Array | ks.Class => false
  end.

(** A primitive carries neither a class name nor type arguments, an Array
    no class name, a Class a class name of lowercase letters, digits and
    underscores; and so for the type arguments. *)
Fixpoint wellFormedType (t : ks.Type_) : bool :=
  match t with
  | ks.mkType type className typeArguments =>
      match type with
      | ks.Array =>
          match className with None => true | Some _ => false end
          && match typeArguments with
             | Some l => forallb wellFormedType l
             | None => true
             end
      | ks.Class =>
          match className with
          | Some n => forallb passesThrough n
          | None => false
          end
          && match typeArguments with
             | Some l => forallb wellFormedType l
             | None => true
             end
      | _ =>
          match className, typeArguments with
          | None, None => true
          | _, _ => false
          end
      end
  end.

(** The test of the last [else] of [convertExpression]: the name of the
    kind, lowercased, is [thiskeyword] or [superkeyword]. *)
Definition isKeywordKind (SyntaxKindName : ts.SyntaxKind.t -> jsstring)
    (k : ts.SyntaxKind.t) : bool :=
  existsb (fun x => jsstring_eqb (toLowerCase (SyntaxKindName k))
                                 (x ++ str "keyword"))
          knownKeywords.

(** The kinds of the nodes of an expression that have no case in
    [convertExpression] and are no keyword, in the order the conversion
    meets them. *)
Fixpoint unexpectedKinds (SyntaxKindName : ts.SyntaxKind.t -> jsstring)
    (e : ts.Expression) : list ts.SyntaxKind.t :=
  match e with
  | ts.CallExpression expression arguments =>
      unexpectedKinds SyntaxKindName expression
      ++ concat (List.map (unexpectedKinds SyntaxKindName) arguments)
  | ts.BinaryExpression tsLeft _ tsRight =>
      unexpectedKinds SyntaxKindName tsLeft
      ++ unexpectedKinds SyntaxKindName tsRight
  | ts.PropertyAccessExpression expression name =>
      unexpectedKinds SyntaxKindName expression
      ++ unexpectedKinds SyntaxKindName name
  | ts.ElementAccessExpression expression argumentExpression =>
      unexpectedKinds SyntaxKindName expression
      ++ match argumentExpression with
         | Some a => unexpectedKinds SyntaxKindName a
         | None => []
         end
  | ts.NewExpression expression arguments =>
      unexpectedKinds SyntaxKindName expression
      ++ match arguments with
         | Some arguments =>
             concat (List.map (unexpectedKinds SyntaxKindName) arguments)
         | None => []
         end
  | ts.ConditionalExpression condition whenTrue whenFalse =>
      unexpectedKinds SyntaxKindName condition
      ++ unexpectedKinds SyntaxKindName whenTrue
      ++ unexpectedKinds SyntaxKindName whenFalse
  | ts.ParenthesizedExpression expression =>
      unexpectedKinds SyntaxKindName expression
  | ts.PostfixUnaryExpression operand _ =>
      unexpectedKinds SyntaxKindName operand
  | ts.PrefixUnaryExpression _ operand =>
      unexpectedKinds SyntaxKindName operand
  | ts.ArrayLiteralExpression elements =>
      concat (List.map (unexpectedKinds SyntaxKindName) elements)
  | ts.OtherExpression k =>
      if isKeywordKind SyntaxKindName k then [] else [k]
  | _ => []
  end.

(** Modelled from the spec: [ks.StatementType] of [KSLangSchema.ts], which
    is not among the sources; the members are the tags
    [TypeScriptParser.ts] writes into the [type] field of a statement. *)
Module StatementType.
Inductive t : Type :=
| If | Return | Throw | Expression | Variable_ | While | Foreach | For.
End StatementType.

(** The [type] field of a lowered statement. *)
Definition statementType (s : ks.Statement) : StatementType.t :=
  match s with
  | ks.If _ _ _ => StatementType.If
  | ks.Return _ => StatementType.Return
  | ks.Throw _ => StatementType.Throw
  | ks.ExpressionStatement _ => StatementType.Expression
  | ks.Variable_ _ => StatementType.Variable_
  | ks.While _ _ => StatementType.While
  | ks.Foreach _ _ _ => StatementType.Foreach
  | ks.For _ _ _ _ => StatementType.For
  end.

Definition entryType (entry : JsOpt ks.Statement) : JsOpt StatementType.t :=
  match entry with
  | Val s => Val (statementType s)
  | Null => Null
  | Undefined => Undefined
  end.

(** The tag a source statement is lowered under; [null] for a kind without
    a case. *)
Definition expectedType (s : ts.Statement) : JsOpt StatementType.t :=
  match s with
  | ts.IfStatement _ _ _ => Val StatementType.If
  | ts.ReturnStatement _ => Val StatementType.Return
  | ts.ThrowStatement _ => Val StatementType.Throw
  | ts.ExpressionStatement _ => Val StatementType.Expression
  | ts.VariableStatement _ => Val StatementType.Variable_
  | ts.WhileStatement _ _ => Val StatementType.While
  | ts.ForOfStatement _ _ _ => Val StatementType.Foreach
  | ts.ForStatement _ _ _ _ => Val StatementType.For
  | ts.Block _ | ts.OtherStatement _ => Null
  end.

(** The number of entries a source statement lowers to. *)
Definition entries (s : ts.Statement) : nat :=
  match s with
  | ts.VariableStatement declarations => length declarations
  | _ => 1%nat
  end.

(** The key an enum is filed under, and the enum schema it is lowered
    to: the texts [nameToKS] returns for its name and for the names of its
    members, in declaration order. *)
Definition enumKey (tsEnum : SimpleAst.EnumDeclaration.t) : jsstring :=
  normalized false (SimpleAst.EnumDeclaration.getName tsEnum).

Definition enumSchema (tsEnum : SimpleAst.EnumDeclaration.t) : ks.Enum :=
  ks.mkEnum
    (List.map (fun m => ks.mkEnumMember
                          (normalized false (SimpleAst.EnumMember.getName m)))
              (SimpleAst.EnumDeclaration.getMembers tsEnum)).

(** The members of [getInstanceProperties] that pass the [instanceof]
    tests. *)
Definition isFieldMember (tsProp : SimpleAst.ClassInstancePropertyTypes)
    : bool :=
  match tsProp with
  | SimpleAst.IsPropertyDeclaration _ | SimpleAst.IsParameterDeclaration _ =>
      true
  | _ => false
  end.

Definition withoutAccessors (tsClass : SimpleAst.ClassDeclaration.t)
    : SimpleAst.ClassDeclaration.t :=
  SimpleAst.ClassDeclaration.mk
    (SimpleAst.ClassDeclaration.getName tsClass)
    (List.filter isFieldMember
       (SimpleAst.ClassDeclaration.getInstanceProperties tsClass))
    (SimpleAst.ClassDeclaration.getInstanceMethods tsClass)
    (SimpleAst.ClassDeclaration.getConstructors tsClass).

Definition sourceFileWithoutAccessors (typeInfo : SimpleAst.SourceFile.t)
    : SimpleAst.SourceFile.t :=
  SimpleAst.SourceFile.mk
    (SimpleAst.SourceFile.getEnums typeInfo)
    (List.map withoutAccessors (SimpleAst.SourceFile.getClasses typeInfo)).

(** The key a property or a method is filed under, and what is filed. *)
Definition propertyKey (tsProp : SimpleAst.ClassInstancePropertyTypes)
    : jsstring :=
  match tsProp with
  | SimpleAst.IsPropertyDeclaration p =>
      normalized false (SimpleAst.PropertyDeclaration.getName p)
  | SimpleAst.IsParameterDeclaration p =>
      normalized false (SimpleAst.ParameterDeclaration.getName p)
  | _ => []
  end.

(** The field has the lowered type of the property, the visibility of its
    scope, and its initializer text, if any, as the default value. *)
Definition fieldEntry (tsProp : SimpleAst.ClassInstancePropertyTypes)
    (field : ks.Field) : Prop :=
  match tsProp with
  | SimpleAst.IsPropertyDeclaration p =>
      (exists l, convertTsType (SimpleAst.PropertyDeclaration.getType p)
                 = (l, Normal (ks.fieldType field)))
      /\ ks.visibility field
         = convertVisibility (SimpleAst.PropertyDeclaration.getScope p)
      /\ ks.defaultValue field = SimpleAst.PropertyDeclaration.getInitializer p
  | SimpleAst.IsParameterDeclaration p =>
      (exists l, convertTsType (SimpleAst.ParameterDeclaration.getType p)
                 = (l, Normal (ks.fieldType field)))
      /\ ks.visibility field
         = convertVisibility (SimpleAst.ParameterDeclaration.getScope p)
      /\ ks.defaultValue field
         = SimpleAst.ParameterDeclaration.getInitializer p
  | _ => False
  end.

Definition methodKey (tsMethod : SimpleAst.MethodDeclaration.t) : jsstring :=
  normalized false (SimpleAst.MethodDeclaration.getName tsMethod).

(** The method has the lowered return type, parameters and body of the
    declaration. *)
Definition methodEntry (SyntaxKindName : ts.SyntaxKind.t -> jsstring)
    (tsMethod : SimpleAst.MethodDeclaration.t) (method : ks.Method) : Prop :=
  (exists l, convertTsType (SimpleAst.MethodDeclaration.getReturnType tsMethod)
             = (l, Normal (ks.returns method)))
  /\ (exists l, mapM convertParameter
                  (SimpleAst.MethodDeclaration.getParameters tsMethod)
                = (l, Normal (ks.parameters method)))
  /\ (exists compilerNode l,
        SimpleAst.MethodDeclaration.getBody tsMethod = Some compilerNode
        /\ convertBlock SyntaxKindName (Some compilerNode)
           = (l, Normal (ks.body method))).








(** [f(a, <unknown>, <unknown> + b)] *)
Definition sampleCall : ts.Expression :=
  ts.CallExpression (ts.Identifier (str "f"))
    [ts.Identifier (str "a");
     ts.OtherExpression (ts.SyntaxKind.Other 0);
     ts.BinaryExpression (ts.OtherExpression (ts.SyntaxKind.Other 0))
                         (str "+") (ts.Identifier (str "b"))].

Definition sampleCallLowered : ks.Expression :=
  ks.Call (Val (ks.Identifier (str "f")))
    [Val (ks.Identifier (str "a"));
     Null;
     Val (ks.Binary Null (Val (ks.Identifier (str "b"))) (str "+"))].

Definition sampleUnexpected : Diagnostic :=
  mkDiagnostic (str "Unexpected expression kind " ++ dquote
                  ++ str "Unknown" ++ dquote ++ str ".") None.

(** [{ let a, b; x; {} }] *)
Definition sampleBlock : list ts.Statement :=
  [ts.VariableStatement [ts.mkVariableDeclaration (str "a") None;
                         ts.mkVariableDeclaration (str "b") None];
   ts.ExpressionStatement (ts.Identifier (str "x"));
   ts.Block []].

(** [enum Color { Red, darkBlue }] *)
Definition sampleEnum : SimpleAst.EnumDeclaration.t :=
  SimpleAst.EnumDeclaration.mk (str "Color")
    [SimpleAst.EnumMember.mk (str "Red");
     SimpleAst.EnumMember.mk (str "darkBlue")].

(** [class Point { public x: number = 0; get area() ...;
    constructor(private label: string); moveBy(dx: number): void { return; } }],
    as far as the builder reads it. *)
Definition sampleX : SimpleAst.ClassInstancePropertyTypes :=
  SimpleAst.IsPropertyDeclaration
    (SimpleAst.PropertyDeclaration.mk (str "x")
       (ts.mkType (Some (str "number")) None None) (str "public")
       (Some (str "0"))).

Definition sampleLabel : SimpleAst.ClassInstancePropertyTypes :=
  SimpleAst.IsParameterDeclaration
    (SimpleAst.ParameterDeclaration.mk (str "label")
       (ts.mkType (Some (str "string")) None None) (str "private") None).

Definition sampleMoveBy : SimpleAst.MethodDeclaration.t :=
  SimpleAst.MethodDeclaration.mk (str "moveBy")
    (ts.mkType (Some (str "void")) None None)
    [SimpleAst.ParameterDeclaration.mk (str "dx")
       (ts.mkType (Some (str "number")) None None) (str "") None]
    (Some (ts.Block [ts.ReturnStatement None])).

Definition samplePoint : SimpleAst.ClassDeclaration.t :=
  SimpleAst.ClassDeclaration.mk (str "Point")
    [sampleX; SimpleAst.IsGetAccessorDeclaration; sampleLabel]
    [sampleMoveBy] [].

Definition samplePointFile : SimpleAst.SourceFile.t :=
  SimpleAst.SourceFile.mk [sampleEnum] [samplePoint].

Definition samplePointClass : ks.Class_ :=
  ks.mkClass
    (<[str "label" := ks.mkField (ks.mkType ks.String None None)
                                 ks.Private None]>
       (<[str "x" := ks.mkField (ks.mkType ks.Int32 None None)
                                ks.Public (Some (str "0"))]> ∅))
    (<[str "move_by" :=
         ks.mkMethod (ks.mkType ks.Void None None)
           [ks.mkMethodParameter (str "dx") (ks.mkType ks.Int32 None None)]
           (Val (ks.mkBlock [Val (ks.Return Undefined)]))]> ∅)
    None.

Definition samplePointSchema : ks.SchemaFile :=
  ks.mkSchemaFile
    (<[str "color" := ks.mkEnum [ks.mkEnumMember (str "red");
                                 ks.mkEnumMember (str "dark_blue")]]> ∅)
    (<[str "point" := samplePointClass]> ∅).

(** ** Induction over nodes

    [ts.Expression] and [ts.Statement] nest lists and options of
    themselves; these principles hand the induction hypothesis to every
    nested node. *)

Section ExpressionInduction.

Variable P : ts.Expression -> Prop.

Hypothesis HCall : forall e args, P e -> Forall P args ->
  P (ts.CallExpression e args).
Hypothesis HBinary : forall l op r, P l -> P r ->
  P (ts.BinaryExpression l op r).
Hypothesis HPropertyAccess : forall e n, P e -> P n ->
  P (ts.PropertyAccessExpression e n).
Hypothesis HElementAccess : forall e a, P e ->
  match a with Some a' => P a' | None => True end ->
  P (ts.ElementAccessExpression e a).
Hypothesis HIdentifier : forall t, P (ts.Identifier t).
Hypothesis HNew : forall e args, P e ->
  match args with Some args' => Forall P args' | None => True end ->
  P (ts.NewExpression e args).
Hypothesis HConditional : forall c t f, P c -> P t -> P f ->
  P (ts.ConditionalExpression c t f).
Hypothesis HStringLiteral : forall t, P (ts.StringLiteral t).
Hypothesis HNumericLiteral : forall t, P (ts.NumericLiteral t).
Hypothesis HFalse : P ts.FalseKeyword.
Hypothesis HTrue : P ts.TrueKeyword.
Hypothesis HNull : P ts.NullKeyword.
Hypothesis HParenthesized : forall e, P e ->
  P (ts.ParenthesizedExpression e).
Hypothesis HPostfix : forall e op, P e -> P (ts.PostfixUnaryExpression e op).
Hypothesis HPrefix : forall op e, P e -> P (ts.PrefixUnaryExpression op e).
Hypothesis HArrayLiteral : forall es, Forall P es ->
  P (ts.ArrayLiteralExpression es).
Hypothesis HOther : forall k, P (ts.OtherExpression k).

Fixpoint Expression_nested_ind (e : ts.Expression) : P e :=
  let all :=
    fix all (l : list ts.Expression) : Forall P l :=
      match l with
      | [] => List.Forall_nil P
      | x :: xs => List.Forall_cons P x xs (Expression_nested_ind x) (all xs)
      end in
  match e with
  | ts.CallExpression f args =>
      HCall f args (Expression_nested_ind f) (all args)
  | ts.BinaryExpression l op r =>
      HBinary l op r (Expression_nested_ind l) (Expression_nested_ind r)
  | ts.PropertyAccessExpression f n =>
      HPropertyAccess f n (Expression_nested_ind f) (Expression_nested_ind n)
  | ts.ElementAccessExpression f a =>
      HElementAccess f a (Expression_nested_ind f)
        match a return match a with Some a' => P a' | None => True end with
        | Some a0 => Expression_nested_ind a0
        | None => I
        end
  | ts.Identifier t => HIdentifier t
  | ts.NewExpression f args =>
      HNew f args (Expression_nested_ind f)
        match args
              return match args with Some l => Forall P l | None => True end
        with
        | Some l0 => all l0
        | None => I
        end
  | ts.ConditionalExpression c t f =>
      HConditional c t f (Expression_nested_ind c) (Expression_nested_ind t)
                   (Expression_nested_ind f)
  | ts.StringLiteral t => HStringLiteral t
  | ts.NumericLiteral t => HNumericLiteral t
  | ts.FalseKeyword => HFalse
  | ts.TrueKeyword => HTrue
  | ts.NullKeyword => HNull
  | ts.ParenthesizedExpression f => HParenthesized f (Expression_nested_ind f)
  | ts.PostfixUnaryExpression f op => HPostfix f op (Expression_nested_ind f)
  | ts.PrefixUnaryExpression op f => HPrefix op f (Expression_nested_ind f)
  | ts.ArrayLiteralExpression es => HArrayLiteral es (all es)
  | ts.OtherExpression k => HOther k
  end.

End ExpressionInduction.

Section StatementInduction.

Variable P : ts.Statement -> Prop.

Hypothesis HIf : forall c t e, P t ->
  match e with Some e' => P e' | None => True end ->
  P (ts.IfStatement c t e).
Hypothesis HReturn : forall e, P (ts.ReturnStatement e).
Hypothesis HThrow : forall e, P (ts.ThrowStatement e).
Hypothesis HExpression : forall e, P (ts.ExpressionStatement e).
Hypothesis HVariable : forall ds, P (ts.VariableStatement ds).
Hypothesis HWhile : forall c b, P b -> P (ts.WhileStatement c b).
Hypothesis HForOf : forall i e b, P b -> P (ts.ForOfStatement i e b).
Hypothesis HFor : forall i c inc b, P b -> P (ts.ForStatement i c inc b).
Hypothesis HBlock : forall ss, Forall P ss -> P (ts.Block ss).
Hypothesis HOther : forall k, P (ts.OtherStatement k).

Fixpoint Statement_nested_ind (s : ts.Statement) : P s :=
  match s with
  | ts.IfStatement c t e =>
      HIf c t e (Statement_nested_ind t)
        match e return match e with Some e' => P e' | None => True end with
        | Some e0 => Statement_nested_ind e0
        | None => I
        end
  | ts.ReturnStatement e => HReturn e
  | ts.ThrowStatement e => HThrow e
  | ts.ExpressionStatement e => HExpression e
  | ts.VariableStatement ds => HVariable ds
  | ts.WhileStatement c b => HWhile c b (Statement_nested_ind b)
  | ts.ForOfStatement i e b => HForOf i e b (Statement_nested_ind b)
  | ts.ForStatement i c inc b => HFor i c inc b (Statement_nested_ind b)
  | ts.Block ss =>
      HBlock ss
        ((fix all (l : list ts.Statement) : Forall P l :=
            match l with
            | [] => List.Forall_nil P
            | x :: xs => List.Forall_cons P x xs (Statement_nested_ind x) (all xs)
            end) ss)
  | ts.OtherStatement k => HOther k
  end.

End StatementInduction.

Section TypeInduction.

Variable P : ts.Type_ -> Prop.

Hypothesis HType : forall i s a,
  match a with Some l => Forall P l | None => True end ->
  P (ts.mkType i s a).

Fixpoint Type_nested_ind (t : ts.Type_) : P t :=
  match t with
  | ts.mkType i s a =>
      HType i s a
        match a return match a with Some l => Forall P l | None => True end
        with
        | Some l0 =>
            (fix all (l : list ts.Type_) : Forall P l :=
               match l with
               | [] => List.Forall_nil P
               | x :: xs => List.Forall_cons P x xs (Type_nested_ind x) (all xs)
               end) l0
        | None => I
        end
  end.

End TypeInduction.

(** * Properties *)

(** ** The effect monad *)

Lemma bind_ret_l {A B} (a : A) (f : A -> M B) : bind (ret a) f = f a.
Proof. unfold bind, ret. destruct (f a) as [l r]. reflexivity. Qed.

Lemma bind_Normal {A B} (l : list Diagnostic) (a : A) (f : A -> M B) :
  bind (l, Normal a) f = (l ++ fst (f a), snd (f a)).
Proof. unfold bind. destruct (f a) as [l2 r]. reflexivity. Qed.

Lemma bind_TypeError {A B} (l : list Diagnostic) (f : A -> M B) :
  bind (l, TypeError) f = (l, TypeError).
Proof. reflexivity. Qed.

Ltac monad_simpl :=
  repeat first [ rewrite bind_ret_l | rewrite bind_Normal
               | rewrite bind_TypeError ];
  cbn [fst snd].

(** ** nameToKS against a description by position *)

Lemma between_upper c : between "A" "Z" c = isUpper c.
Proof. reflexivity. Qed.

Lemma passes_chain c :
  between "a" "z" c || jsstring_eqb [c] (str "_") || between "0" "9" c
  = passesThrough c.
Proof.
  unfold passesThrough. change (between "a" "z" c) with ((97 <=? c) && (c <=? 122)).
  change (between "0" "9" c) with ((48 <=? c) && (c <=? 57)).
  f_equal. f_equal. unfold jsstring_eqb. change (str "_") with [95].
  destruct (N.eqb_spec c 95) as [->|Hne].
  - apply bool_decide_eq_true_2. reflexivity.
  - apply bool_decide_eq_false_2. intros H. injection H. exact Hne.
Qed.

Lemma jsstring_eqb_nil_snoc (r : jsstring) (c : N) :
  jsstring_eqb (r ++ [c]) [] = false.
Proof.
  apply bool_decide_eq_false_2. destruct r; discriminate.
Qed.

Lemma forOf_nil {A S} (body : S -> A -> M S) (s : S) :
  forOf body [] s = ret s.
Proof. reflexivity. Qed.

Lemma forOf_cons {A S} (body : S -> A -> M S) (x : A) (xs : list A) (s : S) :
  forOf body (x :: xs) s = bind (body s x) (forOf body xs).
Proof. reflexivity. Qed.

Lemma mapM_nil {A B} (f : A -> M B) : mapM f [] = ret [].
Proof. reflexivity. Qed.

Lemma mapM_cons {A B} (f : A -> M B) (x : A) (xs : list A) :
  mapM f (x :: xs)
  = bind (f x) (fun y => bind (mapM f xs) (fun ys => ret (y :: ys))).
Proof. reflexivity. Qed.

Lemma nameToKS_body_eq (name : jsstring) (n : option Node)
    (result : jsstring) (c : N) :
  nameToKS_body name n result c =
  if isUpper c then
    ret (result ++ (if jsstring_eqb result [] then [] else [95]) ++ [c + 32])
  else if passesThrough c then ret (result ++ [c])
  else ([mkDiagnostic (invalidCharacterMessage c name) n], Normal result).
Proof.
  unfold nameToKS_body, charToLowerCase.
  rewrite between_upper, passes_chain.
  destruct (isUpper c); [reflexivity|].
  destruct (passesThrough c); reflexivity.
Qed.

Lemma nameToKS_loop (name : jsstring) (n : option Node) (l result : jsstring) :
  forOf (nameToKS_body name n) l result
  = (List.map (fun c => mkDiagnostic (invalidCharacterMessage c name) n)
              (invalidCharacters l),
     Normal (result ++ normalized (negb (jsstring_eqb result [])) l)).
Proof.
  revert result. induction l as [|c rest IH]; intros result.
  - rewrite forOf_nil. unfold ret. simpl. rewrite app_nil_r. reflexivity.
  - rewrite forOf_cons, nameToKS_body_eq.
    unfold invalidCharacters in *. cbn [normalized List.filter].
    destruct (isUpper c) eqn:Hu; cbn [orb negb].
    + rewrite bind_ret_l, IH, app_assoc, jsstring_eqb_nil_snoc. cbn [negb].
      f_equal. f_equal.
      destruct (jsstring_eqb result []); cbn [negb];
        rewrite <- !app_assoc; reflexivity.
    + destruct (passesThrough c) eqn:Hp; cbn [negb].
      * rewrite bind_ret_l, IH, jsstring_eqb_nil_snoc. cbn [negb].
        rewrite <- app_assoc. reflexivity.
      * rewrite bind_Normal, IH. reflexivity.
Qed.

Lemma nameToKS_eq (name : jsstring) (n : option Node) :
  nameToKS name n
  = (List.map (fun c => mkDiagnostic (invalidCharacterMessage c name) n)
              (invalidCharacters name),
     Normal (normalized false name)).
Proof. unfold nameToKS. rewrite nameToKS_loop. reflexivity. Qed.

(** A normalized name consists of characters that pass through. *)
Lemma normalized_passesThrough (started : bool) (name : jsstring) :
  Forall (fun c => passesThrough c = true) (normalized started name).
Proof.
  revert started. induction name as [|c rest IH]; intros started; cbn [normalized].
  - constructor.
  - destruct (isUpper c) eqn:Hu.
    + assert (Hl : passesThrough (c + 32) = true).
      { unfold isUpper in Hu. unfold passesThrough.
        apply andb_prop in Hu as [H1 H2].
        apply N.leb_le in H1, H2.
        replace (97 <=? c + 32) with true by (symmetry; apply N.leb_le; lia).
        replace (c + 32 <=? 122) with true by (symmetry; apply N.leb_le; lia).
        reflexivity. }
      destruct started; cbn [app]; repeat constructor; auto.
    + destruct (passesThrough c) eqn:Hp; [constructor; auto | apply IH].
Qed.

Lemma passesThrough_not_upper (c : N) :
  passesThrough c = true -> isUpper c = false.
Proof.
  unfold passesThrough, isUpper. intros H.
  apply Bool.andb_false_iff.
  apply orb_prop in H as [H|H]; [apply orb_prop in H as [H|H]|].
  - apply andb_prop in H as [H _]. apply N.leb_le in H.
    right. apply N.leb_gt. lia.
  - apply N.eqb_eq in H. subst c. right. reflexivity.
  - apply andb_prop in H as [_ H]. apply N.leb_le in H.
    left. apply N.leb_gt. lia.
Qed.

(** On such a name the walk changes nothing and reports nothing. *)
Lemma normalized_fixed (started : bool) (name : jsstring) :
  Forall (fun c => passesThrough c = true) name ->
  normalized started name = name /\ invalidCharacters name = [].
Proof.
  intros H. revert started.
  induction H as [|c rest Hc Hrest IH]; intros started.
  - split; reflexivity.
  - unfold invalidCharacters in *. cbn [normalized List.filter].
    rewrite (passesThrough_not_upper c Hc), Hc. cbn [orb negb].
    destruct (IH true) as [-> ->]. split; reflexivity.
Qed.

(** C2: name normalization is idempotent.  Whatever [nameToKS] returns for
    a name, it returns that text unchanged, and reports nothing, when it is
    handed that text again. *)
Theorem nameToKS_idempotent (x : jsstring) (n n' : option Node) :
  exists (l : list Diagnostic) (r : jsstring),
    nameToKS x n = (l, Normal r) /\ nameToKS r n' = ([], Normal r).
Proof.
  eexists. exists (normalized false x). split.
  - apply nameToKS_eq.
  - rewrite nameToKS_eq.
    destruct (normalized_fixed false (normalized false x)
                (normalized_passesThrough false x)) as [-> ->].
    reflexivity.
Qed.

(** C3: [nameToKS] walks the name character by character.  An uppercase
    letter is lowercased and, unless it begins the result, preceded by an
    underscore; lowercase letters, digits and the underscore pass through; any
    other character is dropped and reported, one diagnostic each, in order.
    [MyClass] gives [my_class], [fieldName] gives [field_name] and [thing2]
    stays [thing2]. *)
Theorem nameToKS_walk :
  (forall (name : jsstring) (n : option Node),
      nameToKS name n
      = (List.map (fun c => mkDiagnostic (invalidCharacterMessage c name) n)
                  (invalidCharacters name),
         Normal (normalized false name)))
  /\ nameToKS (str "MyClass") None = ([], Normal (str "my_class"))
  /\ nameToKS (str "fieldName") None = ([], Normal (str "field_name"))
  /\ nameToKS (str "thing2") None = ([], Normal (str "thing2")).
Proof.
  split; [exact nameToKS_eq|].
  repeat split; reflexivity.
Qed.

(** ** convertTsType *)

Lemma mapM_Forall2 {A B} (f : A -> M B) (xs : list A)
    (rs : list (list Diagnostic * B)) :
  Forall2 (fun x r => f x = (fst r, Normal (snd r))) xs rs ->
  mapM f xs = (concat (List.map fst rs), Normal (List.map snd rs)).
Proof.
  induction 1 as [|x r xs rs Hx _ IH].
  - reflexivity.
  - rewrite mapM_cons, Hx, bind_Normal, IH, bind_Normal. cbn.
    rewrite app_nil_r. reflexivity.
Qed.

Lemma jsstring_eqb_neq (a b : jsstring) : jsstring_eqb a b = false <-> a <> b.
Proof. unfold jsstring_eqb. apply bool_decide_eq_false. Qed.

Lemma convertTsType_eq (i : option jsstring) (s : option ts.Symbol)
    (a : option (list ts.Type_)) (name : jsstring)
    (rs : list (list Diagnostic * ks.Type_)) :
  typeText i s = ret name ->
  ~ In name primitiveNames ->
  match a with
  | None => rs = []
  | Some typeArgs =>
      Forall2 (fun x r => convertTsType x = (fst r, Normal (snd r))) typeArgs rs
  end ->
  convertTsType (ts.mkType i s a)
  = ((if jsstring_eqb name (str "Array") then []
      else List.map (fun c => mkDiagnostic (invalidCharacterMessage c name) None)
                    (invalidCharacters name))
       ++ concat (List.map fst rs),
     Normal (ks.mkType
               (if jsstring_eqb name (str "Array") then ks.Array else ks.Class)
               (if jsstring_eqb name (str "Array") then None
                else Some (normalized false name))
               (option_map (fun _ => List.map snd rs) a))).
Proof.
  intros Hname Hprim Hargs. cbn [convertTsType]. rewrite Hname, bind_ret_l.
  assert (Hn : forall p, In p primitiveNames -> jsstring_eqb name p = false).
  { intros p Hp. apply jsstring_eqb_neq. intros ->. exact (Hprim Hp). }
  rewrite !Hn by (unfold primitiveNames; simpl; tauto).
  destruct (jsstring_eqb name (str "Array")); cbn [negb].
  - rewrite bind_ret_l. destruct a as [typeArgs|].
    + rewrite (mapM_Forall2 _ _ _ Hargs). monad_simpl. cbn.
      rewrite !app_nil_r. reflexivity.
    + subst rs. reflexivity.
  - rewrite nameToKS_eq. monad_simpl. destruct a as [typeArgs|].
    + rewrite (mapM_Forall2 _ _ _ Hargs). monad_simpl. cbn.
      rewrite !app_nil_r. reflexivity.
    + subst rs. cbn. rewrite !app_nil_r. reflexivity.
Qed.

(** C4: [convertTsType] reads the canonical name of the type.  [number],
    [string], [boolean] and [void] give the primitives; [Array] gives the
    Array variant without a class name; any other name gives the Class
    variant whose class name is what [nameToKS] returns for it; and the
    generic type arguments, when the type carries them, are lowered one by
    one and attached in declared order.  [Array<string>] gives
    [Array(typeArguments=[String])] and [Foo<Bar>] gives
    [Class(foo, [Class(bar)])]. *)
Theorem convertTsType_mapping
    (i : option jsstring) (s : option ts.Symbol)
    (a : option (list ts.Type_)) (name : jsstring)
    (Hname : typeText i s = ret name) :
  (name = str "number" ->
     convertTsType (ts.mkType i s a) = ret (ks.mkType ks.Int32 None None))
  /\ (name = str "string" ->
     convertTsType (ts.mkType i s a) = ret (ks.mkType ks.String None None))
  /\ (name = str "boolean" ->
     convertTsType (ts.mkType i s a) = ret (ks.mkType ks.Boolean None None))
  /\ (name = str "void" ->
     convertTsType (ts.mkType i s a) = ret (ks.mkType ks.Void None None))
  /\ (forall rs : list (list Diagnostic * ks.Type_),
       match a with
       | None => rs = []
       | Some typeArgs =>
           Forall2 (fun x r => convertTsType x = (fst r, Normal (snd r)))
                   typeArgs rs
       end ->
       (name = str "Array" ->
          convertTsType (ts.mkType i s a)
          = (concat (List.map fst rs),
             Normal (ks.mkType ks.Array None
                       (option_map (fun _ => List.map snd rs) a))))
       /\ (~ In name (str "Array" :: primitiveNames) ->
           forall (l : list Diagnostic) (className : jsstring),
             nameToKS name None = (l, Normal className) ->
             convertTsType (ts.mkType i s a)
             = (l ++ concat (List.map fst rs),
                Normal (ks.mkType ks.Class (Some className)
                          (option_map (fun _ => List.map snd rs) a)))))
  /\ convertTsType
       (ts.mkType None (Some (ts.mkSymbol (str "Array")))
          (Some [ts.mkType (Some (str "string")) None None]))
     = ret (ks.mkType ks.Array None (Some [ks.mkType ks.String None None]))
  /\ convertTsType
       (ts.mkType None (Some (ts.mkSymbol (str "Foo")))
          (Some [ts.mkType None (Some (ts.mkSymbol (str "Bar"))) None]))
     = ret (ks.mkType ks.Class (Some (str "foo"))
              (Some [ks.mkType ks.Class (Some (str "bar")) None])).
Proof.
  repeat match goal with |- _ /\ _ => split end;
    try (intros ->; cbn [convertTsType]; rewrite Hname, bind_ret_l; reflexivity);
    try reflexivity.
  intros rs Hargs. split.
  - intros ->.
    rewrite (convertTsType_eq i s a _ rs Hname); [reflexivity | | exact Hargs].
    unfold primitiveNames. simpl. intros H.
    repeat (destruct H as [H|H]; [discriminate H|]). exact H.
  - intros Hother l className Hks.
    rewrite (convertTsType_eq i s a _ rs Hname); [| | exact Hargs].
    + rewrite nameToKS_eq in Hks. injection Hks as <- <-.
      replace (jsstring_eqb name (str "Array")) with false; [reflexivity|].
      symmetry. apply jsstring_eqb_neq. intros ->. apply Hother. left. reflexivity.
    + intros H. apply Hother. right. exact H.
Qed.

Lemma convertTsType_mapping_witness :
  typeText None (Some (ts.mkSymbol (str "Map"))) = ret (str "Map")
  /\ convertTsType
       (ts.mkType None (Some (ts.mkSymbol (str "Map")))
          (Some [ts.mkType (Some (str "string")) None None;
                 ts.mkType (Some (str "number")) None None]))
     = ([] ++ concat (List.map fst [([], ks.mkType ks.String None None);
                                    ([], ks.mkType ks.Int32 None None)]),
        Normal (ks.mkType ks.Class (Some (str "map"))
                  (Some [ks.mkType ks.String None None;
                         ks.mkType ks.Int32 None None]))).
Proof.
  split; [reflexivity|].
  destruct (convertTsType_mapping None (Some (ts.mkSymbol (str "Map")))
              (Some [ts.mkType (Some (str "string")) None None;
                     ts.mkType (Some (str "number")) None None])
              (str "Map") eq_refl) as (_ & _ & _ & _ & H & _).
  destruct (H [([], ks.mkType ks.String None None);
               ([], ks.mkType ks.Int32 None None)]) as [_ Hclass].
  - repeat constructor.
  - apply (Hclass).
    + simpl. intros F. repeat (destruct F as [F|F]; [discriminate F|]). exact F.
    + reflexivity.
Defined.

(** ** Lowering of expressions and statements *)

Section LoweringProperties.

Variable SyntaxKindName : ts.SyntaxKind.t -> jsstring.

Lemma mapM_lowersTo {A B} (f : A -> M B) (xs : list A)
    (rs : list (list Diagnostic * B)) :
  Forall2 (lowersTo f) xs rs ->
  mapM f xs = (concat (List.map fst rs), Normal (List.map snd rs)).
Proof. apply mapM_Forall2. Qed.

(** C5: member access [a.b] and index access [a[b]] lower to the same
    shape, [PropertyAccess] of the lowered object and the lowered property
    name; [a.b[c]] lowers to
    [PropertyAccess(PropertyAccess(Identifier a, Identifier b), Identifier c)]. *)
Theorem propertyAccess_unified :
  (forall (a b : ts.Expression) (la lb : list Diagnostic)
          (a' b' : JsOpt ks.Expression),
      convertExpression SyntaxKindName (Some a) = (la, Normal a') ->
      convertExpression SyntaxKindName (Some b) = (lb, Normal b') ->
      convertExpression SyntaxKindName (Some (ts.PropertyAccessExpression a b))
      = (la ++ lb, Normal (Val (ks.PropertyAccess a' b')))
      /\ convertExpression SyntaxKindName
           (Some (ts.ElementAccessExpression a (Some b)))
         = (la ++ lb, Normal (Val (ks.PropertyAccess a' b'))))
  /\ (forall a b : ts.Expression,
      convertExpression SyntaxKindName (Some (ts.PropertyAccessExpression a b))
      = convertExpression SyntaxKindName
          (Some (ts.ElementAccessExpression a (Some b))))
  /\ convertExpression SyntaxKindName
       (Some (ts.ElementAccessExpression
                (ts.PropertyAccessExpression (ts.Identifier (str "a"))
                                             (ts.Identifier (str "b")))
                (Some (ts.Identifier (str "c")))))
     = ([], Normal (Val (ks.PropertyAccess
                           (Val (ks.PropertyAccess
                                   (Val (ks.Identifier (str "a")))
                                   (Val (ks.Identifier (str "b")))))
                           (Val (ks.Identifier (str "c")))))).
Proof.
  split; [|split; reflexivity].
  intros a b la lb a' b' Ha Hb.
  unfold convertExpression, orUndefined in *.
  cbn [convertExpressionNode orUndefined]. rewrite Ha, Hb.
  monad_simpl. cbn. rewrite ?app_nil_r. split; reflexivity.
Qed.

Lemma convertOtherExpression_unexpected (k : ts.SyntaxKind.t) :
  toLowerCase (SyntaxKindName k) <> str "thiskeyword" ->
  toLowerCase (SyntaxKindName k) <> str "superkeyword" ->
  convertOtherExpression SyntaxKindName k
  = ([mkDiagnostic (unexpectedExpressionKind SyntaxKindName k) None],
     Normal Null).
Proof.
  intros Hthis Hsuper. unfold convertOtherExpression, knownKeywords.
  cbn [List.find].
  change (str "this" ++ str "keyword") with (str "thiskeyword").
  change (str "super" ++ str "keyword") with (str "superkeyword").
  apply jsstring_eqb_neq in Hthis, Hsuper. rewrite Hthis, Hsuper.
  reflexivity.
Qed.

(** The two keywords the last [else] recognizes by name. *)
Lemma keyword_lowers_to_identifier (k : ts.SyntaxKind.t) :
  (SyntaxKindName k = str "ThisKeyword" ->
   convertExpression SyntaxKindName (Some (ts.OtherExpression k))
   = ret (Val (ks.Identifier (str "this"))))
  /\ (SyntaxKindName k = str "SuperKeyword" ->
      convertExpression SyntaxKindName (Some (ts.OtherExpression k))
      = ret (Val (ks.Identifier (str "super")))).
Proof.
  split; intros H; cbn; unfold convertOtherExpression; rewrite H; reflexivity.
Qed.

Lemma outside_expression_grammar (e : ts.Expression) :
  inExpressionGrammar (ts.kind e) = false ->
  e = ts.OtherExpression (ts.kind e).
Proof. destruct e; cbn; intros H; try discriminate H; reflexivity. Qed.

(** C6: an expression node whose kind has no case in [convertExpression]
    and is not the [this] or [super] keyword is reported once and lowers to
    [null], and the conversion goes on: the other arguments of a call, the
    other operand of a binary expression and the other slots of a [for]
    statement that hold such a node lower as they do on their own. *)
Theorem unexpected_expression_lowers_to_null (e : ts.Expression)
    (Hkind : inExpressionGrammar (ts.kind e) = false)
    (Hthis : toLowerCase (SyntaxKindName (ts.kind e)) <> str "thiskeyword")
    (Hsuper : toLowerCase (SyntaxKindName (ts.kind e)) <> str "superkeyword") :
  let d := mkDiagnostic (unexpectedExpressionKind SyntaxKindName (ts.kind e))
                        None in
  convertExpression SyntaxKindName (Some e) = ([d], Normal Null)
  /\ (forall (callee : ts.Expression) (pre post : list ts.Expression)
             (rc : list Diagnostic * JsOpt ks.Expression)
             (rpre rpost : list (list Diagnostic * JsOpt ks.Expression)),
        lowersTo (convertExpressionNode SyntaxKindName) callee rc ->
        Forall2 (lowersTo (convertExpressionNode SyntaxKindName)) pre rpre ->
        Forall2 (lowersTo (convertExpressionNode SyntaxKindName)) post rpost ->
        convertExpression SyntaxKindName
          (Some (ts.CallExpression callee (pre ++ e :: post)))
        = (fst rc ++ concat (List.map fst rpre) ++ d
             :: concat (List.map fst rpost),
           Normal (Val (ks.Call (snd rc)
                          (List.map snd rpre ++ Null :: List.map snd rpost)))))
  /\ (forall (other : ts.Expression) (op : jsstring)
             (r : list Diagnostic * JsOpt ks.Expression),
        lowersTo (convertExpressionNode SyntaxKindName) other r ->
        convertExpression SyntaxKindName (Some (ts.BinaryExpression other op e))
        = (fst r ++ [d], Normal (Val (ks.Binary (snd r) Null op)))
        /\ convertExpression SyntaxKindName
             (Some (ts.BinaryExpression e op other))
           = (d :: fst r, Normal (Val (ks.Binary Null (snd r) op))))
  /\ (forall (init : ts.ForInitializer) (inc : ts.Expression)
             (body : ts.Statement)
             (ri : list Diagnostic * JsOpt ks.VariableDeclaration)
             (rinc : list Diagnostic * JsOpt ks.Expression)
             (rbody : list Diagnostic * JsOpt ks.Block),
        lowersTo (convertInitializer SyntaxKindName) (Some init) ri ->
        lowersTo (convertExpressionNode SyntaxKindName) inc rinc ->
        lowersTo (convertBlock SyntaxKindName) (Some body) rbody ->
        convertStatement SyntaxKindName
          (Some (ts.ForStatement (Some init) (Some e) (Some inc) body))
        = (fst ri ++ d :: fst rinc ++ fst rbody,
           Normal (Val [Val (ks.For (snd ri) Null (snd rinc) (snd rbody))]))).
Proof.
  intros d.
  assert (He : convertExpressionNode SyntaxKindName e = ([d], Normal Null)).
  { rewrite (outside_expression_grammar e Hkind).
    apply convertOtherExpression_unexpected; assumption. }
  split; [exact He|]. split; [|split].
  - intros callee pre post rc rpre rpost Hc Hpre Hpost.
    unfold convertExpression, orUndefined. cbn [convertExpressionNode].
    change (fix go (l : list ts.Expression) : M (list (JsOpt ks.Expression)) := _)
      with (mapM (convertExpressionNode SyntaxKindName)).
    rewrite Hc.
    rewrite (mapM_lowersTo _ _ (rpre ++ ([d], Null) :: rpost)).
    + monad_simpl. cbn. rewrite !List.map_app, concat_app. cbn.
      rewrite ?app_nil_r. reflexivity.
    + apply Forall2_app; [exact Hpre|]. constructor; [exact He | exact Hpost].
  - intros other op r Hr.
    unfold convertExpression, orUndefined. cbn [convertExpressionNode].
    unfold lowersTo in Hr.
    split; rewrite ?He, ?Hr; monad_simpl; rewrite ?He, ?Hr; monad_simpl;
      cbn; rewrite ?app_nil_r; reflexivity.
  - intros init inc body ri rinc rbody Hi Hinc Hbody.
    unfold convertStatement, orUndefined. cbn [convertStatementNode].
    unfold convertExpression at 1 2, orUndefined.
    unfold lowersTo, convertBlock, orUndefined, convertBlockNode in Hbody.
    unfold lowersTo in Hi, Hinc.
    rewrite Hi. monad_simpl. rewrite He. monad_simpl.
    rewrite Hinc. monad_simpl. rewrite Hbody. monad_simpl.
    cbn. rewrite ?app_nil_r. reflexivity.
Qed.

(** *** Trees that lower without a TypeError *)

Lemma completes_ret {A} (a : A) : completes (ret a).
Proof. exists [], a. reflexivity. Qed.

Lemma completes_log (msg : jsstring) (n : option Node) :
  completes (logNodeError msg n).
Proof. eexists _, _. reflexivity. Qed.

Lemma completes_bind {A B} (m : M A) (g : A -> M B) :
  completes m -> (forall a, completes (g a)) -> completes (bind m g).
Proof.
  intros (l & a & ->) Hg. destruct (Hg a) as (l' & b & Hb).
  exists (l ++ l'), b. rewrite bind_Normal, Hb. reflexivity.
Qed.

Lemma completes_lowersTo {A B} (f : A -> M B) (x : A) :
  completes (f x) <-> exists r, lowersTo f x r.
Proof.
  split.
  - intros (l & v & H). exists (l, v). exact H.
  - intros ([l v] & H). exists l, v. exact H.
Qed.

Lemma completes_mapM {A B} (f : A -> M B) (Q : A -> bool) (xs : list A) :
  Forall (fun x => Q x = true -> completes (f x)) xs ->
  forallb Q xs = true ->
  completes (mapM f xs).
Proof.
  induction 1 as [|x xs Hx _ IH]; cbn [forallb]; intros H.
  - apply completes_ret.
  - apply andb_prop in H as [Hq Hqs]. rewrite mapM_cons.
    apply completes_bind; [auto|]. intros y.
    apply completes_bind; [auto|]. intros ys. apply completes_ret.
Qed.

Ltac lowers_split :=
  repeat match goal with
         | H : _ && _ = true |- _ => apply andb_prop in H as [? ?]
         end.

Ltac completes_step :=
  first [ apply completes_ret
        | apply completes_log
        | apply completes_bind; [|intros ?] ].

Lemma expressionLowers_sound (e : ts.Expression) :
  expressionLowers e = true ->
  completes (convertExpressionNode SyntaxKindName e).
Proof.
  induction e as [f args IHf IHargs | l op r IHl IHr | f n IHf IHn
                 | f a IHf IHa | t | f args IHf IHargs
                 | c t f IHc IHt IHf | t | t | | | | f IHf | f op IHf
                 | op f IHf | es IHes | k] using Expression_nested_ind;
    cbn [expressionLowers convertExpressionNode]; intros Hl; lowers_split;
    repeat completes_step; auto.
  - exact (completes_mapM _ _ _ IHargs ltac:(assumption)).
  - destruct a as [a|]; cbn [orUndefined]; [auto | apply completes_ret].
  - destruct args as [args|]; [|discriminate].
    exact (completes_mapM _ _ _ IHargs ltac:(assumption)).
  - exact (completes_mapM _ _ _ IHes Hl).
  - unfold convertOtherExpression.
    destruct (List.find _ _); repeat completes_step.
Qed.

Lemma convertExpression_completes (e : option ts.Expression) :
  optionalExpressionLowers e = true ->
  completes (convertExpression SyntaxKindName e).
Proof.
  destruct e as [e|]; cbn; [apply expressionLowers_sound|].
  intros _. apply completes_ret.
Qed.

Lemma convertVariableDeclaration_completes (d : ts.VariableDeclaration) :
  declarationLowers d = true ->
  completes (convertVariableDeclaration SyntaxKindName d).
Proof.
  intros H. unfold convertVariableDeclaration.
  apply completes_bind; [apply convertExpression_completes; exact H|].
  intros. apply completes_ret.
Qed.

Lemma convertInitializer_completes (i : option ts.ForInitializer) :
  initializerLowers i = true ->
  completes (convertInitializer SyntaxKindName i).
Proof.
  destruct i as [[[|d ds]|e]|]; cbn [initializerLowers convertInitializer];
    intros H; try discriminate H.
  - apply completes_bind.
    + destruct (negb _); [apply completes_log | apply completes_ret].
    + intros _. apply completes_bind;
        [apply convertVariableDeclaration_completes; exact H|].
      intros. apply completes_ret.
  - repeat completes_step.
Qed.

Lemma statementLowers_sound (s : ts.Statement) :
  (statementLowers s = true ->
   completes (convertStatementNode SyntaxKindName s))
  /\ (bodyLowers s = true ->
      completes (convertBlockNode SyntaxKindName s)).
Proof.
  assert (Hbare : forall s : ts.Statement,
             (statementLowers s = true ->
              completes (convertStatementNode SyntaxKindName s)) ->
             statementLowers s = true ->
             completes (bind (convertStatementNode SyntaxKindName s)
                             (fun r => ret (Val (ks.mkBlock r))))).
  { intros s0 H0 Hs. apply completes_bind; [auto|].
    intros. apply completes_ret. }
  assert (Helse : forall e : option ts.Statement,
             match e with
             | Some e' =>
                 (statementLowers e' = true ->
                  completes (convertStatementNode SyntaxKindName e'))
                 /\ (bodyLowers e' = true ->
                     completes (convertBlockNode SyntaxKindName e'))
             | None => True
             end ->
             match e with
             | Some e' => bodyLowers e'
             | None => true
             end = true ->
             completes (orUndefined (convertBlockNode SyntaxKindName) e)).
  { intros [e'|] He Hl; cbn [orUndefined]; [apply He; exact Hl|].
    apply completes_ret. }
  induction s as [c t e [IHt IHtb] IHe | e | e | e | ds | c b [IHb IHbb]
                 | i e b [IHb IHbb] | i c inc b [IHb IHbb] | ss IHss | k]
    using Statement_nested_ind;
    (split; [cbn [statementLowers convertStatementNode]
            | unfold bodyLowers, convertBlockNode;
              cbn [bodyLowersWith convertBlockWith];
              fold convertBlockNode; fold bodyLowers ]);
    fold (convertBlockNode SyntaxKindName); fold bodyLowers;
    intros Hl;
    try (apply Hbare; [|exact Hl]; cbn [statementLowers convertStatementNode];
         fold (convertBlockNode SyntaxKindName); fold bodyLowers;
         clear Hl; intros Hl);
    lowers_split;
    repeat completes_step;
    auto using expressionLowers_sound, convertExpression_completes,
               convertInitializer_completes.
  - apply (completes_mapM _ declarationLowers); [|assumption].
    apply Forall_forall. intros d _. apply convertVariableDeclaration_completes.
  - apply (completes_mapM _ declarationLowers); [|assumption].
    apply Forall_forall. intros d _. apply convertVariableDeclaration_completes.
  - apply (completes_mapM _ statementLowers); [|assumption].
    eapply Forall_impl; [exact IHss|]. intros s0 [H0 _]. exact H0.
Qed.

Lemma convertBlock_completes (b : ts.Statement) :
  bodyLowers b = true -> completes (convertBlock SyntaxKindName (Some b)).
Proof. apply statementLowers_sound. Qed.

(** *** Blocks *)

Lemma convertBlock_sequence (ss : list ts.Statement)
    (rs : list (list Diagnostic * list (JsOpt ks.Statement))) :
  Forall2 (lowersTo (convertStatementNode SyntaxKindName)) ss rs ->
  convertBlock SyntaxKindName (Some (ts.Block ss))
  = (concat (List.map fst rs),
     Normal (Val (ks.mkBlock (concat (List.map snd rs))))).
Proof.
  intros H. unfold convertBlock, orUndefined, convertBlockNode, convertBlockWith.
  rewrite (mapM_lowersTo _ _ _ H). monad_simpl. cbn.
  rewrite ?app_nil_r. reflexivity.
Qed.

Lemma convertBlock_around (pre post : list ts.Statement) (s : ts.Statement)
    (rpre rpost : list (list Diagnostic * list (JsOpt ks.Statement)))
    (r : list Diagnostic * list (JsOpt ks.Statement)) :
  Forall2 (lowersTo (convertStatementNode SyntaxKindName)) pre rpre ->
  lowersTo (convertStatementNode SyntaxKindName) s r ->
  Forall2 (lowersTo (convertStatementNode SyntaxKindName)) post rpost ->
  convertBlock SyntaxKindName (Some (ts.Block (pre ++ s :: post)))
  = (concat (List.map fst rpre) ++ fst r ++ concat (List.map fst rpost),
     Normal (Val (ks.mkBlock (concat (List.map snd rpre) ++ snd r
                                ++ concat (List.map snd rpost))))).
Proof.
  intros Hpre Hs Hpost.
  rewrite (convertBlock_sequence _ (rpre ++ r :: rpost)).
  - rewrite !List.map_app, !concat_app. reflexivity.
  - apply Forall2_app; [exact Hpre|]. constructor; assumption.
Qed.

Lemma convertBlock_bare (s : ts.Statement) :
  ts.statementKind s <> ts.SyntaxKind.Block ->
  convertBlock SyntaxKindName (Some s)
  = bind (convertStatementNode SyntaxKindName s)
         (fun r => ret (Val (ks.mkBlock r))).
Proof.
  intros H. unfold convertBlock, orUndefined, convertBlockNode.
  destruct s; try reflexivity. exfalso. apply H. reflexivity.
Qed.

(** C8: [convertBlock] turns a present body into a Block.  For a braced
    sequence the statements are lowered one by one and their result
    sequences are concatenated in order; for a bare statement its result
    sequence is the statement list as it is; so a bare statement and the
    same statement in braces give the same Block.  Whatever it returns is a
    Block, and it returns one for every body whose statements lower without
    a TypeError. *)
Theorem convertBlock_uniform :
  (forall (ss : list ts.Statement)
          (rs : list (list Diagnostic * list (JsOpt ks.Statement))),
      Forall2 (lowersTo (convertStatementNode SyntaxKindName)) ss rs ->
      convertBlock SyntaxKindName (Some (ts.Block ss))
      = (concat (List.map fst rs),
         Normal (Val (ks.mkBlock (flattenArray (List.map snd rs))))))
  /\ (forall (s : ts.Statement)
             (r : list Diagnostic * list (JsOpt ks.Statement)),
        ts.statementKind s <> ts.SyntaxKind.Block ->
        lowersTo (convertStatementNode SyntaxKindName) s r ->
        convertBlock SyntaxKindName (Some s)
        = (fst r, Normal (Val (ks.mkBlock (snd r))))
        /\ convertBlock SyntaxKindName (Some (ts.Block [s]))
           = convertBlock SyntaxKindName (Some s))
  /\ (forall (b : ts.Statement) (l : list Diagnostic) (r : JsOpt ks.Block),
        convertBlock SyntaxKindName (Some b) = (l, Normal r) ->
        exists stmts : list (JsOpt ks.Statement), r = Val (ks.mkBlock stmts))
  /\ (forall b : ts.Statement,
        bodyLowers b = true ->
        exists (l : list Diagnostic) (stmts : list (JsOpt ks.Statement)),
          convertBlock SyntaxKindName (Some b)
          = (l, Normal (Val (ks.mkBlock stmts)))).
Proof.
  assert (Hblock : forall (b : ts.Statement) (l : list Diagnostic)
                          (r : JsOpt ks.Block),
             convertBlock SyntaxKindName (Some b) = (l, Normal r) ->
             exists stmts : list (JsOpt ks.Statement),
               r = Val (ks.mkBlock stmts)).
  { intros b l r H.
    unfold convertBlock, orUndefined, convertBlockNode, convertBlockWith in H.
    destruct b;
      match type of H with
      | bind ?m _ = _ => destruct m as [l0 [v|]]
      end;
      rewrite ?bind_Normal, ?bind_TypeError in H; cbn in H;
      try discriminate H; injection H as _ <-; eexists; reflexivity. }
  split; [exact convertBlock_sequence|]. split; [|split; [exact Hblock|]];
    cycle 1.
  { intros b Hb. destruct (convertBlock_completes b Hb) as (l & r & H).
    destruct (Hblock b l r H) as [stmts ->]. exists l, stmts. exact H. }
  - intros s r Hkind Hs. rewrite (convertBlock_bare s Hkind).
    rewrite (convertBlock_sequence [s] [r]) by (repeat constructor; exact Hs).
    unfold lowersTo in Hs. rewrite Hs. monad_simpl. cbn.
    rewrite ?app_nil_r. split; reflexivity.
Qed.

(** *** Statements *)

Lemma convertVariableStatement (ds : list ts.VariableDeclaration)
    (rs : list (list Diagnostic * JsOpt ks.Expression)) :
  Forall2 (fun d r => lowersTo (convertExpression SyntaxKindName)
                               (ts.initializer d) r) ds rs ->
  lowersTo (convertStatementNode SyntaxKindName) (ts.VariableStatement ds)
           (concat (List.map fst rs), variableStatements ds rs).
Proof.
  intros H. unfold lowersTo. cbn [convertStatementNode fst snd].
  rewrite (mapM_lowersTo _ _
             (List.map (fun dr : ts.VariableDeclaration * (list Diagnostic * JsOpt ks.Expression) =>
                          (fst (snd dr), ks.mkVariableDeclaration
                                           (ts.nameText (fst dr)) (snd (snd dr))))
                       (combine ds rs))).
  - monad_simpl. cbn. rewrite ?app_nil_r. unfold variableStatements.
    rewrite !List.map_map. cbn. f_equal. f_equal.
    clear -H. induction H as [|d r ds rs _ _ IH]; [reflexivity|].
    cbn. rewrite IH. reflexivity.
  - clear -H. induction H as [|d r ds rs Hd _ IH]; constructor; [|exact IH].
    unfold lowersTo in *. cbn. unfold convertVariableDeclaration.
    rewrite Hd. monad_simpl. cbn. rewrite ?app_nil_r. reflexivity.
Qed.

Lemma initializers_lower (ds : list ts.VariableDeclaration) :
  forallb declarationLowers ds = true ->
  exists rs : list (list Diagnostic * JsOpt ks.Expression),
    Forall2 (fun d r => lowersTo (convertExpression SyntaxKindName)
                                 (ts.initializer d) r) ds rs.
Proof.
  induction ds as [|d ds IH]; cbn [forallb]; intros H.
  - exists []. constructor.
  - apply andb_prop in H as [Hd Hds]. destruct (IH Hds) as [rs Hrs].
    apply convertExpression_completes, completes_lowersTo in Hd as [r Hr].
    exists (r :: rs). constructor; assumption.
Qed.

(** C7: a variable statement with n declarators lowers to n [Variable]
    statements, one per declarator, in declaration order; in a block they
    stand side by side at the place of the statement; [let a = 1, b = 2;] in
    a block gives the two [Variable] statements for [a] and [b].  The
    initializers are taken to lower without a TypeError, as they do when no
    [new] in them lacks its argument list. *)
Theorem variableStatement_expands :
  (forall (ds : list ts.VariableDeclaration)
          (rs : list (list Diagnostic * JsOpt ks.Expression)),
      Forall2 (fun d r => lowersTo (convertExpression SyntaxKindName)
                                   (ts.initializer d) r) ds rs ->
      convertStatement SyntaxKindName (Some (ts.VariableStatement ds))
      = (concat (List.map fst rs), Normal (Val (variableStatements ds rs)))
      /\ length (variableStatements ds rs) = length ds
      /\ (forall i d, nth_error ds i = Some d ->
            exists r, nth_error rs i = Some r
              /\ nth_error (variableStatements ds rs) i
                 = Some (Val (ks.Variable_
                                (ks.mkVariableDeclaration (ts.nameText d)
                                                          (snd r)))))
      /\ (forall (pre post : list ts.Statement)
                 (rpre rpost : list (list Diagnostic
                                     * list (JsOpt ks.Statement))),
            Forall2 (lowersTo (convertStatementNode SyntaxKindName)) pre rpre ->
            Forall2 (lowersTo (convertStatementNode SyntaxKindName)) post rpost ->
            convertBlock SyntaxKindName
              (Some (ts.Block (pre ++ ts.VariableStatement ds :: post)))
            = (concat (List.map fst rpre) ++ concat (List.map fst rs)
                 ++ concat (List.map fst rpost),
               Normal (Val (ks.mkBlock
                              (concat (List.map snd rpre)
                                 ++ variableStatements ds rs
                                 ++ concat (List.map snd rpost)))))))
  /\ (forall ds : list ts.VariableDeclaration,
        forallb declarationLowers ds = true ->
        exists rs : list (list Diagnostic * JsOpt ks.Expression),
          Forall2 (fun d r => lowersTo (convertExpression SyntaxKindName)
                                       (ts.initializer d) r) ds rs)
  /\ convertBlock SyntaxKindName
       (Some (ts.Block
                [ts.VariableStatement
                   [ts.mkVariableDeclaration (str "a")
                      (Some (ts.NumericLiteral (str "1")));
                    ts.mkVariableDeclaration (str "b")
                      (Some (ts.NumericLiteral (str "2")))]]))
     = ([], Normal (Val (ks.mkBlock
          [Val (ks.Variable_
                  (ks.mkVariableDeclaration (str "a")
                     (Val (ks.Literal (str "numeric") (str "1")))));
           Val (ks.Variable_
                  (ks.mkVariableDeclaration (str "b")
                     (Val (ks.Literal (str "numeric") (str "2")))))]))).
Proof.
  split; [|split; [exact initializers_lower | reflexivity]].
  intros ds rs Hinit.
  pose proof (convertVariableStatement ds rs Hinit) as Hs.
  split; [|split; [|split]].
  - unfold convertStatement, orUndefined. unfold lowersTo in Hs.
    rewrite Hs. monad_simpl. cbn. rewrite ?app_nil_r. reflexivity.
  - unfold variableStatements. rewrite length_map, length_combine.
    rewrite <- (Forall2_length _ _ _ Hinit). lia.
  - clear Hs. induction Hinit as [|d0 r0 ds rs _ _ IH]; intros i d Hi.
    + destruct i; discriminate Hi.
    + destruct i as [|i].
      * injection Hi as <-. exists r0. split; reflexivity.
      * cbn in Hi. destruct (IH i d Hi) as (r & Hr1 & Hr2).
        exists r. split; assumption.
  - intros pre post rpre rpost Hpre Hpost.
    exact (convertBlock_around pre post _ rpre rpost _ Hpre Hs Hpost).
Qed.

Lemma outside_statement_grammar (s : ts.Statement) :
  inStatementGrammar (ts.statementKind s) = false ->
  lowersTo (convertStatementNode SyntaxKindName) s
    ([mkDiagnostic (unexpectedStatementKind SyntaxKindName (ts.statementKind s))
                   None],
     [Null]).
Proof.
  destruct s; cbn; intros H; try discriminate H; reflexivity.
Qed.

(** C1, as the code has it: a statement node whose kind has no case in
    [convertStatement] is reported once and lowers to the one-entry sequence
    [[null]]; the statement list of the enclosing block holds that [null] at
    the place of the node. *)
Theorem unexpected_statement_lowers_to_null (s : ts.Statement)
    (Hkind : inStatementGrammar (ts.statementKind s) = false) :
  let d := mkDiagnostic
             (unexpectedStatementKind SyntaxKindName (ts.statementKind s))
             None in
  convertStatement SyntaxKindName (Some s) = ([d], Normal (Val [Null]))
  /\ (forall (pre post : list ts.Statement)
             (rpre rpost : list (list Diagnostic * list (JsOpt ks.Statement))),
        Forall2 (lowersTo (convertStatementNode SyntaxKindName)) pre rpre ->
        Forall2 (lowersTo (convertStatementNode SyntaxKindName)) post rpost ->
        convertBlock SyntaxKindName (Some (ts.Block (pre ++ s :: post)))
        = (concat (List.map fst rpre) ++ d :: concat (List.map fst rpost),
           Normal (Val (ks.mkBlock
                          (concat (List.map snd rpre)
                             ++ Null :: concat (List.map snd rpost)))))).
Proof.
  intros d. pose proof (outside_statement_grammar s Hkind) as Hs. split.
  - unfold convertStatement, orUndefined. unfold lowersTo in Hs.
    rewrite Hs. reflexivity.
  - intros pre post rpre rpost Hpre Hpost.
    exact (convertBlock_around pre post _ rpre rpost _ Hpre Hs Hpost).
Qed.

(** C9, on the code: a [for] statement without an initializer is not
    lowered.  [convertInitializer] reads [kind] of the absent initializer and
    the TypeError ends the conversion before the condition, the incrementor
    or the body are looked at.  An initializer of another unsupported shape,
    an expression, is reported and gives the [For] statement without an item
    variable. *)
Theorem for_without_initializer_throws
    (condition incrementor : option ts.Expression) (body : ts.Statement) :
  convertInitializer SyntaxKindName None = ([], TypeError)
  /\ convertStatement SyntaxKindName
       (Some (ts.ForStatement None condition incrementor body))
     = ([], TypeError)
  /\ (forall e : ts.Expression,
        convertStatement SyntaxKindName
          (Some (ts.ForStatement (Some (ts.InitializerExpression e))
                                 None None (ts.Block [])))
        = ([mkDiagnostic (initializerNotSupported SyntaxKindName (ts.kind e))
                         None],
           Normal (Val [Val (ks.For Undefined Undefined Undefined
                               (Val (ks.mkBlock [])))]))).
Proof. repeat split; reflexivity. Qed.

(** *** The schema of a class *)

Lemma bind_Normal_inv {A B} (m : M A) (f : A -> M B)
    (l : list Diagnostic) (b : B) :
  bind m f = (l, Normal b) ->
  exists l1 a l2, m = (l1, Normal a) /\ f a = (l2, Normal b) /\ l = l1 ++ l2.
Proof.
  destruct m as [l1 [a|]]; [|discriminate].
  rewrite bind_Normal. destruct (f a) as [l2 r] eqn:Hf. cbn.
  intros H. injection H as <- ->. exists l1, a, l2. auto.
Qed.

Lemma forOf_ext {A S} (f g : S -> A -> M S) (l : list A) (s : S) :
  (forall s x, In x l -> f s x = g s x) -> forOf f l s = forOf g l s.
Proof.
  revert s. induction l as [|x xs IH]; intros s H; [reflexivity|].
  rewrite !forOf_cons, (H s x) by (left; reflexivity).
  destruct (g s x) as [l1 [s'|]]; [|reflexivity].
  rewrite !bind_Normal, IH; [reflexivity|].
  intros s0 y Hy. apply H. right. exact Hy.
Qed.

Lemma forOf_map {A A' S} (f : S -> A -> M S) (g : A' -> A) (l : list A')
    (s : S) :
  forOf f (List.map g l) s = forOf (fun s x => f s (g x)) l s.
Proof.
  revert s. induction l as [|x xs IH]; intros s; [reflexivity|].
  cbn [List.map]. rewrite !forOf_cons.
  destruct (f s (g x)) as [l1 [s'|]]; [|reflexivity].
  rewrite !bind_Normal, IH. reflexivity.
Qed.

Lemma convertConstructors_inv
    (tsClass : SimpleAst.ClassDeclaration.t) (l : list Diagnostic)
    (c : option ks.Constructor) (fields : gmap jsstring ks.Field)
    (methods : gmap jsstring ks.Method) :
  convertConstructors SyntaxKindName
    (SimpleAst.ClassDeclaration.getConstructors tsClass) = (l, Normal c) ->
  hasFirstConstructor SyntaxKindName tsClass (ks.mkClass fields methods c).
Proof.
  unfold hasFirstConstructor, convertConstructors.
  destruct (SimpleAst.ClassDeclaration.getConstructors tsClass) as [|c0 rest].
  - intros H. injection H as _ <-. reflexivity.
  - intros H.
    apply bind_Normal_inv in H as (lp & ps & l1 & Hp & H & ->).
    apply bind_Normal_inv in H as (ln & nd & l2 & Hn & H & ->).
    apply bind_Normal_inv in H as (lb & b & l3 & Hb & H & ->).
    injection H as _ <-.
    unfold compilerNodeOfBody in Hn.
    destruct (SimpleAst.ConstructorDeclaration.getBody c0) as [nd'|] eqn:Hbody;
      [|discriminate Hn].
    injection Hn as _ ->.
    exists (lp, ps), nd, (lb, b). repeat split; assumption.
Qed.

Lemma convertClass_inv (classes classes' : gmap jsstring ks.Class_)
    (tsClass : SimpleAst.ClassDeclaration.t) (l : list Diagnostic) :
  convertClass SyntaxKindName classes tsClass = (l, Normal classes') ->
  exists cs : ks.Class_,
    hasFirstConstructor SyntaxKindName tsClass cs
    /\ classes' = setProperty (classKey tsClass) cs classes.
Proof.
  unfold convertClass. intros H.
  apply bind_Normal_inv in H as (l1 & key & l1' & Hkey & H & ->).
  apply bind_Normal_inv in H as (l2 & fields & l2' & _ & H & ->).
  apply bind_Normal_inv in H as (l3 & methods & l3' & _ & H & ->).
  apply bind_Normal_inv in H as (l4 & c & l4' & Hc & H & ->).
  injection H as _ <-.
  rewrite nameToKS_eq in Hkey. injection Hkey as _ <-.
  eexists. split; [|reflexivity].
  eapply convertConstructors_inv. exact Hc.
Qed.

Lemma lookup_setProperty {V} (key k : jsstring) (v : V)
    (object : gmap jsstring V) :
  setProperty key v object !! k
  = if bool_decide (key = k) && negb (jsstring_eqb key (str "__proto__"))
    then Some v else object !! k.
Proof.
  unfold setProperty. destruct (jsstring_eqb key (str "__proto__")).
  - rewrite andb_false_r. reflexivity.
  - rewrite andb_true_r. destruct (bool_decide_reflect (key = k)) as [->|Hne].
    + apply lookup_insert_eq.
    + apply lookup_insert_ne. exact Hne.
Qed.

(** Every entry of the class map was written by the turn of some class. *)
Lemma classes_from_declarations (cls : list SimpleAst.ClassDeclaration.t)
    (classes0 classes : gmap jsstring ks.Class_) (l : list Diagnostic)
    (key : jsstring) (cs : ks.Class_) :
  forOf (convertClass SyntaxKindName) cls classes0 = (l, Normal classes) ->
  classes !! key = Some cs ->
  classes0 !! key = Some cs
  \/ exists tsClass, In tsClass cls /\ classKey tsClass = key
                     /\ hasFirstConstructor SyntaxKindName tsClass cs.
Proof.
  revert classes0 l. induction cls as [|c rest IH]; intros classes0 l H Hl.
  - injection H as _ <-. left. exact Hl.
  - rewrite forOf_cons in H.
    apply bind_Normal_inv in H as (l1 & classes1 & l2 & Hc & Hrest & ->).
    destruct (IH _ _ Hrest Hl) as [H1 | (c' & Hin & Hk & Hf)].
    + apply convertClass_inv in Hc as (cs1 & Hf & ->).
      rewrite lookup_setProperty in H1.
      destruct (bool_decide_reflect (classKey c = key)) as [Hk|Hk];
        destruct (jsstring_eqb (classKey c) (str "__proto__")); cbn in H1;
        try (left; exact H1).
      injection H1 as <-. right. exists c. split; [left; reflexivity|]. auto.
    + right. exists c'. split; [right; exact Hin|]. auto.
Qed.

(** A key that no later class is filed under keeps its entry. *)
Lemma classes_preserved (cls : list SimpleAst.ClassDeclaration.t)
    (classes0 classes : gmap jsstring ks.Class_) (l : list Diagnostic)
    (key : jsstring) :
  forOf (convertClass SyntaxKindName) cls classes0 = (l, Normal classes) ->
  Forall (fun c => classKey c <> key) cls ->
  classes !! key = classes0 !! key.
Proof.
  revert classes0 l. induction cls as [|c rest IH]; intros classes0 l H Hne.
  - injection H as _ <-. reflexivity.
  - rewrite forOf_cons in H.
    apply bind_Normal_inv in H as (l1 & classes1 & l2 & Hc & Hrest & ->).
    inversion Hne as [|? ? Hc0 Hrest0]; subst.
    rewrite (IH _ _ Hrest Hrest0).
    apply convertClass_inv in Hc as (cs1 & _ & ->).
    rewrite lookup_setProperty.
    destruct (bool_decide_reflect (classKey c = key)) as [Hk|Hk];
      [contradiction|reflexivity].
Qed.

Lemma forOf_app_inv {A S} (f : S -> A -> M S) (xs ys : list A) (s s' : S)
    (l : list Diagnostic) :
  forOf f (xs ++ ys) s = (l, Normal s') ->
  exists l1 s1 l2, forOf f xs s = (l1, Normal s1)
                   /\ forOf f ys s1 = (l2, Normal s') /\ l = l1 ++ l2.
Proof.
  revert s l. induction xs as [|x xs IH]; intros s l H.
  - exists [], s, l. auto.
  - cbn [app] in H. rewrite forOf_cons in H.
    apply bind_Normal_inv in H as (l1 & s1 & l2 & Hx & H & ->).
    apply IH in H as (l3 & s3 & l4 & Hxs & Hys & ->).
    exists (l1 ++ l3), s3, l4. rewrite forOf_cons, Hx, bind_Normal, Hxs.
    cbn. rewrite app_assoc. auto.
Qed.

Lemma convertClass_firstConstructorOnly
    (classes : gmap jsstring ks.Class_)
    (tsClass : SimpleAst.ClassDeclaration.t) :
  convertClass SyntaxKindName classes (firstConstructorOnly tsClass)
  = convertClass SyntaxKindName classes tsClass.
Proof.
  destruct tsClass as [name props methods ctors].
  destruct ctors as [|c0 rest]; reflexivity.
Qed.

(** The turn of the loop for one class, from what its parts lower to. *)
Lemma convertClass_lowers (classes : gmap jsstring ks.Class_)
    (tsClass : SimpleAst.ClassDeclaration.t)
    (rf : list Diagnostic * gmap jsstring ks.Field)
    (rm : list Diagnostic * gmap jsstring ks.Method) :
  lowersTo (forOf convertInstanceProperty
              (SimpleAst.ClassDeclaration.getInstanceProperties tsClass)) ∅ rf ->
  lowersTo (forOf (convertMethod SyntaxKindName)
              (SimpleAst.ClassDeclaration.getInstanceMethods tsClass)) ∅ rm ->
  let keyLog :=
    List.map (fun c => mkDiagnostic
                         (invalidCharacterMessage c
                            (SimpleAst.ClassDeclaration.getName tsClass)) None)
             (invalidCharacters (SimpleAst.ClassDeclaration.getName tsClass)) in
  match SimpleAst.ClassDeclaration.getConstructors tsClass with
  | [] =>
      convertClass SyntaxKindName classes tsClass
      = (keyLog ++ fst rf ++ fst rm,
         Normal (setProperty (classKey tsClass)
                   (ks.mkClass (snd rf) (snd rm) None) classes))
  | constructor0 :: _ =>
      forall (rp : list Diagnostic * list ks.MethodParameter)
             (compilerNode : ts.Statement)
             (rb : list Diagnostic * JsOpt ks.Block),
        lowersTo (mapM convertParameter)
                 (SimpleAst.ConstructorDeclaration.getParameters constructor0)
                 rp ->
        SimpleAst.ConstructorDeclaration.getBody constructor0
        = Some compilerNode ->
        lowersTo (convertBlock SyntaxKindName) (Some compilerNode) rb ->
        convertClass SyntaxKindName classes tsClass
        = (keyLog ++ fst rf ++ fst rm ++ fst rp ++ fst rb,
           Normal (setProperty (classKey tsClass)
                     (ks.mkClass (snd rf) (snd rm)
                        (Some (ks.mkConstructor (snd rp) (snd rb))))
                     classes))
  end.
Proof.
  intros Hf Hm keyLog. unfold lowersTo in Hf, Hm.
  unfold convertClass, classKey. rewrite nameToKS_eq. fold keyLog.
  destruct (SimpleAst.ClassDeclaration.getConstructors tsClass) as [|c0 rest].
  - monad_simpl. rewrite Hf. monad_simpl. rewrite Hm. monad_simpl.
    cbn. rewrite ?app_nil_r. reflexivity.
  - intros rp nd rb Hp Hbody Hb. unfold lowersTo in Hp, Hb.
    monad_simpl. rewrite Hf. monad_simpl. rewrite Hm. monad_simpl.
    cbn [convertConstructors]. rewrite Hp. monad_simpl.
    rewrite Hbody. cbn [compilerNodeOfBody]. monad_simpl.
    rewrite Hb. monad_simpl. cbn. rewrite ?app_nil_r. reflexivity.
Qed.

Lemma createSchema_firstConstructorsOnly (typeInfo : SimpleAst.SourceFile.t) :
  createSchemaFromSourceFile SyntaxKindName (firstConstructorsOnly typeInfo)
  = createSchemaFromSourceFile SyntaxKindName typeInfo.
Proof.
  unfold createSchemaFromSourceFile, firstConstructorsOnly. cbn.
  rewrite forOf_map.
  destruct (forOf convertEnum _ _) as [le [enums|]]; [|reflexivity].
  rewrite !bind_Normal.
  rewrite (forOf_ext _ (convertClass SyntaxKindName)); [reflexivity|].
  intros; apply convertClass_firstConstructorOnly.
Qed.

(** C10: of the constructors a class declares, the schema keeps the first
    and nothing of the others.  The turn of the loop for a class files a
    class schema whose constructor entry has the parameters and the body of
    the first declared constructor, lowered by [convertParameter] and
    [convertBlock] as those of a method are, and no constructor entry when
    the class declares none.  When the schema is built, the entry of a class
    (the last one filed under its key) is of this form, and so is every
    class entry of the schema.  Taking the additional constructors away from
    the source file changes neither the schema nor the log. *)
Theorem first_constructor_retained :
  (forall (classes : gmap jsstring ks.Class_)
          (tsClass : SimpleAst.ClassDeclaration.t)
          (rf : list Diagnostic * gmap jsstring ks.Field)
          (rm : list Diagnostic * gmap jsstring ks.Method),
      lowersTo (forOf convertInstanceProperty
                  (SimpleAst.ClassDeclaration.getInstanceProperties tsClass))
               ∅ rf ->
      lowersTo (forOf (convertMethod SyntaxKindName)
                  (SimpleAst.ClassDeclaration.getInstanceMethods tsClass))
               ∅ rm ->
      let keyLog :=
        List.map (fun c => mkDiagnostic
                             (invalidCharacterMessage c
                                (SimpleAst.ClassDeclaration.getName tsClass))
                             None)
                 (invalidCharacters
                    (SimpleAst.ClassDeclaration.getName tsClass)) in
      match SimpleAst.ClassDeclaration.getConstructors tsClass with
      | [] =>
          convertClass SyntaxKindName classes tsClass
          = (keyLog ++ fst rf ++ fst rm,
             Normal (setProperty (classKey tsClass)
                       (ks.mkClass (snd rf) (snd rm) None) classes))
      | constructor0 :: _ =>
          forall (rp : list Diagnostic * list ks.MethodParameter)
                 (compilerNode : ts.Statement)
                 (rb : list Diagnostic * JsOpt ks.Block),
            lowersTo (mapM convertParameter)
                     (SimpleAst.ConstructorDeclaration.getParameters
                        constructor0) rp ->
            SimpleAst.ConstructorDeclaration.getBody constructor0
            = Some compilerNode ->
            lowersTo (convertBlock SyntaxKindName) (Some compilerNode) rb ->
            convertClass SyntaxKindName classes tsClass
            = (keyLog ++ fst rf ++ fst rm ++ fst rp ++ fst rb,
               Normal (setProperty (classKey tsClass)
                         (ks.mkClass (snd rf) (snd rm)
                            (Some (ks.mkConstructor (snd rp) (snd rb))))
                         classes))
      end)
  /\ (forall (typeInfo : SimpleAst.SourceFile.t) (log : list Diagnostic)
             (schema : ks.SchemaFile),
        createSchemaFromSourceFile SyntaxKindName typeInfo
        = (log, Normal schema) ->
        (forall (before after : list SimpleAst.ClassDeclaration.t)
                (tsClass : SimpleAst.ClassDeclaration.t),
            SimpleAst.SourceFile.getClasses typeInfo
            = before ++ tsClass :: after ->
            Forall (fun c => classKey c <> classKey tsClass) after ->
            classKey tsClass <> str "__proto__" ->
            exists cs : ks.Class_,
              ks.classes schema !! classKey tsClass = Some cs
              /\ hasFirstConstructor SyntaxKindName tsClass cs)
        /\ (forall (key : jsstring) (cs : ks.Class_),
              ks.classes schema !! key = Some cs ->
              exists tsClass : SimpleAst.ClassDeclaration.t,
                In tsClass (SimpleAst.SourceFile.getClasses typeInfo)
                /\ classKey tsClass = key
                /\ hasFirstConstructor SyntaxKindName tsClass cs))
  /\ (forall typeInfo : SimpleAst.SourceFile.t,
        createSchemaFromSourceFile SyntaxKindName
          (firstConstructorsOnly typeInfo)
        = createSchemaFromSourceFile SyntaxKindName typeInfo).
Proof.
  split; [exact convertClass_lowers|].
  split; [|exact createSchema_firstConstructorsOnly].
  intros typeInfo log schema Hbuilt.
  unfold createSchemaFromSourceFile in Hbuilt.
  apply bind_Normal_inv in Hbuilt as (le & enums & l1 & _ & Hbuilt & ->).
  apply bind_Normal_inv in Hbuilt as (lc & classes & l2 & Hclasses & H & ->).
  injection H as <- <-. cbn [ks.classes].
  split.
  - intros before after tsClass Hsplit Hlast Hproto.
    rewrite Hsplit in Hclasses.
    apply forOf_app_inv in Hclasses as (la & classes1 & lb & _ & Hclasses & _).
    rewrite forOf_cons in Hclasses.
    apply bind_Normal_inv in Hclasses as (l3 & classes2 & l4 & Hc & Hrest & _).
    rewrite (classes_preserved _ _ _ _ _ Hrest Hlast).
    apply convertClass_inv in Hc as (cs & Hf & ->).
    exists cs. split; [|exact Hf].
    rewrite lookup_setProperty.
    rewrite bool_decide_eq_true_2 by reflexivity.
    apply jsstring_eqb_neq in Hproto. rewrite Hproto. reflexivity.
  - intros key cs Hl.
    destruct (classes_from_declarations _ _ _ _ _ _ Hclasses Hl) as [H|H].
    + rewrite lookup_empty in H. discriminate H.
    + exact H.
Qed.

End LoweringProperties.

(** ** Concrete inputs *)

(** [f(a, <unknown>, b)]: the call is lowered, with [null] for the second
    argument and one diagnostic. *)
Lemma unexpected_expression_witness :
  convertExpression sampleSyntaxKindName
    (Some (ts.CallExpression (ts.Identifier (str "f"))
             [ts.Identifier (str "a");
              ts.OtherExpression (ts.SyntaxKind.Other 0);
              ts.Identifier (str "b")]))
  = ([mkDiagnostic (str "Unexpected expression kind " ++ dquote
                      ++ str "Unknown" ++ dquote ++ str ".") None],
     Normal (Val (ks.Call (Val (ks.Identifier (str "f")))
                    [Val (ks.Identifier (str "a")); Null;
                     Val (ks.Identifier (str "b"))]))).
Proof.
  assert (Hkind : inExpressionGrammar
                    (ts.kind (ts.OtherExpression (ts.SyntaxKind.Other 0)))
                  = false) by reflexivity.
  assert (Hthis : toLowerCase (sampleSyntaxKindName
                    (ts.kind (ts.OtherExpression (ts.SyntaxKind.Other 0))))
                  <> str "thiskeyword")
    by (vm_compute; intros H; discriminate H).
  assert (Hsuper : toLowerCase (sampleSyntaxKindName
                     (ts.kind (ts.OtherExpression (ts.SyntaxKind.Other 0))))
                   <> str "superkeyword")
    by (vm_compute; intros H; discriminate H).
  destruct (unexpected_expression_lowers_to_null sampleSyntaxKindName
              (ts.OtherExpression (ts.SyntaxKind.Other 0)) Hkind Hthis Hsuper)
    as (_ & Hcall & _).
  apply (Hcall (ts.Identifier (str "f")) [ts.Identifier (str "a")]
               [ts.Identifier (str "b")]
               ([], Val (ks.Identifier (str "f")))
               [([], Val (ks.Identifier (str "a")))]
               [([], Val (ks.Identifier (str "b")))]).
  - reflexivity.
  - repeat constructor.
  - repeat constructor.
Defined.

(** [a.b] and [a[b]] for identifiers [a] and [b]. *)
Lemma propertyAccess_unified_witness :
  convertExpression sampleSyntaxKindName
    (Some (ts.PropertyAccessExpression (ts.Identifier (str "a"))
                                       (ts.Identifier (str "b"))))
  = ([], Normal (Val (ks.PropertyAccess (Val (ks.Identifier (str "a")))
                                        (Val (ks.Identifier (str "b"))))))
  /\ convertExpression sampleSyntaxKindName
       (Some (ts.ElementAccessExpression (ts.Identifier (str "a"))
                                         (Some (ts.Identifier (str "b")))))
     = ([], Normal (Val (ks.PropertyAccess (Val (ks.Identifier (str "a")))
                                           (Val (ks.Identifier (str "b")))))).
Proof.
  destruct (propertyAccess_unified sampleSyntaxKindName) as (H & _).
  apply (H (ts.Identifier (str "a")) (ts.Identifier (str "b")) [] []
           (Val (ks.Identifier (str "a"))) (Val (ks.Identifier (str "b"))));
    reflexivity.
Defined.

(** [let a = f(), b;] *)
Lemma variableStatement_expands_witness :
  convertStatement sampleSyntaxKindName
    (Some (ts.VariableStatement
             [ts.mkVariableDeclaration (str "a")
                (Some (ts.CallExpression (ts.Identifier (str "f")) []));
              ts.mkVariableDeclaration (str "b") None]))
  = ([], Normal (Val
       [Val (ks.Variable_
               (ks.mkVariableDeclaration (str "a")
                  (Val (ks.Call (Val (ks.Identifier (str "f"))) []))));
        Val (ks.Variable_ (ks.mkVariableDeclaration (str "b") Undefined))])).
Proof.
  apply (proj1 (variableStatement_expands sampleSyntaxKindName)
           [ts.mkVariableDeclaration (str "a")
              (Some (ts.CallExpression (ts.Identifier (str "f")) []));
            ts.mkVariableDeclaration (str "b") None]
           [([], Val (ks.Call (Val (ks.Identifier (str "f"))) []));
            ([], Undefined)]).
  repeat constructor.
Defined.

(** [{ x; return; }] and the bare [x;]. *)
Lemma convertBlock_uniform_witness :
  convertBlock sampleSyntaxKindName
    (Some (ts.Block [ts.ExpressionStatement (ts.Identifier (str "x"));
                     ts.ReturnStatement None]))
  = ([], Normal (Val (ks.mkBlock
       [Val (ks.ExpressionStatement (Val (ks.Identifier (str "x"))));
        Val (ks.Return Undefined)])))
  /\ convertBlock sampleSyntaxKindName
       (Some (ts.ExpressionStatement (ts.Identifier (str "x"))))
     = ([], Normal (Val (ks.mkBlock
          [Val (ks.ExpressionStatement (Val (ks.Identifier (str "x"))))]))).
Proof.
  destruct (convertBlock_uniform sampleSyntaxKindName) as (Hseq & Hbare & _).
  split.
  - apply (Hseq [ts.ExpressionStatement (ts.Identifier (str "x"));
                 ts.ReturnStatement None]
                [([], [Val (ks.ExpressionStatement
                              (Val (ks.Identifier (str "x"))))]);
                 ([], [Val (ks.Return Undefined)])]).
    repeat constructor.
  - apply (Hbare (ts.ExpressionStatement (ts.Identifier (str "x")))
                 ([], [Val (ks.ExpressionStatement
                              (Val (ks.Identifier (str "x"))))])).
    + intros H. discriminate H.
    + reflexivity.
Defined.

(** C1 as stated fails: the empty block statement in [{ {} }] has a kind
    without a case in [convertStatement], and it is not dropped: it lowers to
    a sequence of one entry, and the enclosing block lists that entry. *)
Lemma unexpected_statement_not_dropped :
  inStatementGrammar (ts.statementKind (ts.Block [])) = false
  /\ (forall l : list Diagnostic,
        convertStatement sampleSyntaxKindName (Some (ts.Block []))
        <> (l, Normal (Val [])))
  /\ (forall l : list Diagnostic,
        convertBlock sampleSyntaxKindName (Some (ts.Block [ts.Block []]))
        <> (l, Normal (Val (ks.mkBlock []))))
  /\ convertBlock sampleSyntaxKindName (Some (ts.Block [ts.Block []]))
     = ([mkDiagnostic (str "Unexpected statement kind " ++ dquote
                         ++ str "Block" ++ dquote ++ str ".") None],
        Normal (Val (ks.mkBlock [Null]))).
Proof.
  split; [reflexivity|]. split; [|split].
  - intros l H. vm_compute in H. discriminate H.
  - intros l H. vm_compute in H. discriminate H.
  - reflexivity.
Qed.

(** [{ x; {} }]: the block keeps a [null] where the inner block stood. *)
Lemma unexpected_statement_witness :
  convertBlock sampleSyntaxKindName
    (Some (ts.Block [ts.ExpressionStatement (ts.Identifier (str "x"));
                     ts.Block []]))
  = ([mkDiagnostic (str "Unexpected statement kind " ++ dquote
                      ++ str "Block" ++ dquote ++ str ".") None],
     Normal (Val (ks.mkBlock
       [Val (ks.ExpressionStatement (Val (ks.Identifier (str "x")))); Null]))).
Proof.
  destruct (unexpected_statement_lowers_to_null sampleSyntaxKindName
              (ts.Block []) eq_refl) as (_ & Hblock).
  apply (Hblock [ts.ExpressionStatement (ts.Identifier (str "x"))] []
                [([], [Val (ks.ExpressionStatement
                              (Val (ks.Identifier (str "x"))))])] []).
  - repeat constructor.
  - constructor.
Defined.

Lemma first_constructor_retained_witness :
  createSchemaFromSourceFile sampleSyntaxKindName sampleSourceFile
  = ([], Normal sampleSchema)
  /\ (exists cs : ks.Class_,
        ks.classes sampleSchema !! classKey sampleClass = Some cs
        /\ hasFirstConstructor sampleSyntaxKindName sampleClass cs)
  /\ createSchemaFromSourceFile sampleSyntaxKindName
       (firstConstructorsOnly sampleSourceFile)
     = ([], Normal sampleSchema).
Proof.
  assert (Hbuilt : createSchemaFromSourceFile sampleSyntaxKindName
                     sampleSourceFile = ([], Normal sampleSchema))
    by (vm_compute; reflexivity).
  destruct (first_constructor_retained sampleSyntaxKindName)
    as (_ & Hschema & Htrunc).
  destruct (Hschema sampleSourceFile [] sampleSchema Hbuilt) as (Hfwd & _).
  split; [exact Hbuilt|]. split; [|rewrite Htrunc; exact Hbuilt].
  apply (Hfwd [] [] sampleClass).
  - reflexivity.
  - constructor.
  - vm_compute. intros H. discriminate H.
Defined.

(** * Further properties *)

(** ** nameToKS *)



(** X1: [nameToKS] never throws, and its result holds lowercase letters,
    digits and underscores only. *)
Theorem nameToKS_alphabet (name : jsstring) (n : option Node) :
  exists (l : list Diagnostic) (r : jsstring),
    nameToKS name n = (l, Normal r)
    /\ Forall (fun c => passesThrough c = true) r.
Proof.
  eexists _, _. split; [apply nameToKS_eq|].
  apply normalized_passesThrough.
Qed.


(** X3: the names [nameToKS] returns unchanged are exactly those of
    lowercase letters, digits and underscores, and for them it reports
    nothing. *)
Theorem nameToKS_fixed_points (x : jsstring) (n : option Node) :
  (snd (nameToKS x n) = Normal x
   <-> Forall (fun c => passesThrough c = true) x)
  /\ (snd (nameToKS x n) = Normal x -> nameToKS x n = ([], Normal x)).
Proof.
  rewrite nameToKS_eq. cbn [snd].
  assert (Hiff : Normal (normalized false x) = Normal x
                 <-> Forall (fun c => passesThrough c = true) x).
  { split.
    - intros H. injection H as H. rewrite <- H.
      apply normalized_passesThrough.
    - intros H. destruct (normalized_fixed false x H) as [-> _]. reflexivity. }
  split; [exact Hiff|].
  intros H. apply Hiff in H.
  destruct (normalized_fixed false x H) as [-> ->]. reflexivity.
Qed.

Lemma normalized_length (started : bool) (name : jsstring) :
  (length (nameCharacters name) <= length (normalized started name)
   /\ length (normalized started name)
      + (if started then 0
         else match nameCharacters name with [] => 0 | _ :: _ => 1 end)
      <= 2 * length (nameCharacters name))%nat.
Proof.
  unfold nameCharacters, isNameCharacter. revert started.
  induction name as [|c rest IH]; intros started.
  - destruct started; cbn; lia.
  - cbn [normalized List.filter].
    destruct (isUpper c) eqn:Hu; cbn [orb].
    + specialize (IH true). cbn [length].
      destruct started; cbn [app length]; cbn in IH; lia.
    + destruct (passesThrough c) eqn:Hp.
      * specialize (IH true). cbn [length].
        destruct started; cbn in IH; lia.
      * apply IH.
Qed.

Lemma normalized_head (name : jsstring) :
  hd_error (normalized false name)
  = hd_error (List.map charToLowerCase (nameCharacters name)).
Proof.
  unfold nameCharacters, isNameCharacter.
  induction name as [|c rest IH]; [reflexivity|].
  cbn [normalized List.filter].
  destruct (isUpper c) eqn:Hu; cbn [orb].
  - cbn. unfold charToLowerCase. rewrite between_upper, Hu. reflexivity.
  - destruct (passesThrough c) eqn:Hp; [|exact IH].
    cbn. unfold charToLowerCase. rewrite between_upper, Hu. reflexivity.
Qed.

(** X4: the result of [nameToKS] has at least as many characters as the
    name has letters, digits and underscores, and fewer than twice as many;
    it is empty exactly when the name has none; and it begins with the first
    of them, lowercased, never with a separator of its own. *)
Theorem nameToKS_length (name : jsstring) (n : option Node) :
  exists (l : list Diagnostic) (r : jsstring),
    nameToKS name n = (l, Normal r)
    /\ (length (nameCharacters name) <= length r)%nat
    /\ (length r <= 2 * length (nameCharacters name) - 1)%nat
    /\ (r = [] <-> nameCharacters name = [])
    /\ hd_error r = hd_error (List.map charToLowerCase (nameCharacters name)).
Proof.
  eexists _, _. split; [apply nameToKS_eq|].
  destruct (normalized_length false name) as [Hlo Hhi].
  split; [exact Hlo|]. split; [|split; [|apply normalized_head]].
  - destruct (nameCharacters name); cbn in *; lia.
  - split; intros H.
    + rewrite H in Hlo. destruct (nameCharacters name); [reflexivity|].
      cbn in Hlo. lia.
    + rewrite H in Hhi. cbn in Hhi.
      destruct (normalized false name); [reflexivity | cbn in Hhi; lia].
Qed.




(** ** convertTsType *)

Lemma completes_bind_inv {A B} (m : M A) (g : A -> M B) :
  completes (bind m g) ->
  exists (l : list Diagnostic) (a : A), m = (l, Normal a) /\ completes (g a).
Proof.
  intros (l & b & H). apply bind_Normal_inv in H as (l1 & a & l2 & Hm & Hg & _).
  exists l1, a. split; [exact Hm|]. exists l2, b. exact Hg.
Qed.

Lemma completes_mapM_inv {A B} (f : A -> M B) (xs : list A) :
  completes (mapM f xs) -> Forall (fun x => completes (f x)) xs.
Proof.
  induction xs as [|x xs IH]; intros H; [constructor|].
  rewrite mapM_cons in H.
  apply completes_bind_inv in H as (l & y & Hx & H).
  apply completes_bind_inv in H as (l' & ys & Hxs & _).
  constructor; [exists l, y; exact Hx|].
  apply IH. exists l', ys. exact Hxs.
Qed.

Lemma mapM_Normal_inv {A B} (f : A -> M B) (xs : list A)
    (l : list Diagnostic) (ys : list B) :
  mapM f xs = (l, Normal ys) ->
  exists rs : list (list Diagnostic * B),
    Forall2 (lowersTo f) xs rs
    /\ l = concat (List.map fst rs) /\ ys = List.map snd rs.
Proof.
  revert l ys. induction xs as [|x xs IH]; intros l ys H.
  - injection H as <- <-. exists []. repeat split. constructor.
  - rewrite mapM_cons in H.
    apply bind_Normal_inv in H as (l1 & y & l2 & Hx & H & ->).
    apply bind_Normal_inv in H as (l3 & ys' & l4 & Hxs & H & ->).
    injection H as <- <-.
    destruct (IH _ _ Hxs) as (rs & Hrs & -> & ->).
    exists ((l1, y) :: rs). split; [constructor; assumption|].
    cbn. rewrite app_nil_r. split; reflexivity.
Qed.

Lemma typeText_canonicalName (i : option jsstring) (s : option ts.Symbol) :
  typeText i s
  = match canonicalName i s with
    | Some name => ret name
    | None => throw
    end.
Proof. destruct i as [[|c r]|], s; reflexivity. Qed.

(** The primitive a primitive name stands for. *)
Lemma convertTsType_primitive (i : option jsstring) (s : option ts.Symbol)
    (a : option (list ts.Type_)) (name : jsstring) :
  canonicalName i s = Some name ->
  isPrimitiveName name = true ->
  exists type : ks.PrimitiveType,
    isPrimitiveType type = true
    /\ convertTsType (ts.mkType i s a) = ret (ks.mkType type None None).
Proof.
  intros Hn Hp. cbn [convertTsType].
  rewrite typeText_canonicalName, Hn, bind_ret_l.
  unfold isPrimitiveName, primitiveNames in Hp. cbn [existsb] in Hp.
  destruct (jsstring_eqb name (str "number"));
    [exists ks.Int32; split; reflexivity|].
  destruct (jsstring_eqb name (str "string"));
    [exists ks.String; split; reflexivity|].
  destruct (jsstring_eqb name (str "boolean"));
    [exists ks.Boolean; split; reflexivity|].
  destruct (jsstring_eqb name (str "void"));
    [exists ks.Void; split; reflexivity|].
  discriminate Hp.
Qed.

Lemma convertTsType_other (i : option jsstring) (s : option ts.Symbol)
    (a : option (list ts.Type_)) (name : jsstring) :
  canonicalName i s = Some name ->
  isPrimitiveName name = false ->
  convertTsType (ts.mkType i s a)
  = bind (if negb (jsstring_eqb name (str "Array"))
          then bind (nameToKS name None) (fun n => ret (Some n))
          else ret None)
      (fun className =>
         bind match a with
              | Some typeArgs =>
                  bind (mapM convertTsType typeArgs) (fun r => ret (Some r))
              | None => ret None
              end
           (fun typeArguments =>
              ret (ks.mkType
                     (if jsstring_eqb name (str "Array")
                      then ks.Array else ks.Class)
                     className typeArguments))).
Proof.
  intros Hn Hp. cbn [convertTsType].
  rewrite typeText_canonicalName, Hn, bind_ret_l.
  unfold isPrimitiveName, primitiveNames in Hp. cbn [existsb] in Hp.
  destruct (jsstring_eqb name (str "number")); [discriminate Hp|].
  destruct (jsstring_eqb name (str "string")); [discriminate Hp|].
  destruct (jsstring_eqb name (str "boolean")); [discriminate Hp|].
  destruct (jsstring_eqb name (str "void")); [discriminate Hp|].
  reflexivity.
Qed.

Lemma typeResolved_correct (t : ts.Type_) :
  completes (convertTsType t) <-> typeResolved t = true.
Proof.
  induction t as [i s a IH] using Type_nested_ind.
  cbn [typeResolved].
  destruct (canonicalName i s) as [name|] eqn:Hn.
  - destruct (isPrimitiveName name) eqn:Hp; cbn [orb].
    + destruct (convertTsType_primitive i s a name Hn Hp) as (ty & _ & ->).
      split; [reflexivity | intros _; apply completes_ret].
    + rewrite (convertTsType_other i s a name Hn Hp). split.
      * intros H. apply completes_bind_inv in H as (l & cn & _ & H).
        apply completes_bind_inv in H as (l' & args & H & _).
        destruct a as [typeArgs|]; [|reflexivity].
        assert (Hc : completes (mapM convertTsType typeArgs)).
        { apply bind_Normal_inv in H as (l1 & r & l2 & Hm & _ & _).
          exists l1, r. exact Hm. }
        apply completes_mapM_inv in Hc. apply forallb_forall.
        intros x Hx. rewrite List.Forall_forall in IH, Hc.
        apply IH; auto.
      * intros H. apply completes_bind.
        { destruct (negb _); [|apply completes_ret].
          rewrite nameToKS_eq, bind_Normal. eexists _, _. reflexivity. }
        intros cn. apply completes_bind; [|intros; apply completes_ret].
        destruct a as [typeArgs|]; [|apply completes_ret].
        apply completes_bind; [|intros; apply completes_ret].
        apply (completes_mapM _ typeResolved); [|exact H].
        eapply Forall_impl; [exact IH|]. intros x Hx. apply Hx.
  - cbn [convertTsType]. rewrite typeText_canonicalName, Hn. split.
    + intros (l & r & H). discriminate H.
    + discriminate.
Qed.

(** X6: [convertTsType] ends without a TypeError exactly when the type has
    a name (a non-empty intrinsic name, or a symbol) and, unless that name is
    a primitive's, so have its type arguments, all the way down.  The type
    arguments of a primitive are never looked at. *)
Theorem convertTsType_completes (t : ts.Type_) :
  completes (convertTsType t) <-> typeResolved t = true.
Proof. apply typeResolved_correct. Qed.

(** X7: what [convertTsType] returns is well formed: a primitive carries
    neither a class name nor type arguments, an Array no class name, a Class
    a class name of lowercase letters, digits and underscores, and the type
    arguments are well formed in turn.  An Array or a Class has type
    arguments exactly when the source type has, as many as it has. *)
Theorem convertTsType_wellFormed (t : ts.Type_) (l : list Diagnostic)
    (r : ks.Type_) :
  convertTsType t = (l, Normal r) ->
  wellFormedType r = true
  /\ match t, r with
     | ts.mkType _ _ a, ks.mkType type _ typeArguments =>
         option_map (@length ks.Type_) typeArguments
         = if isPrimitiveType type then None
           else option_map (@length ts.Type_) a
     end.
Proof.
  revert l r. induction t as [i s a IH] using Type_nested_ind. intros l r H.
  destruct (canonicalName i s) as [name|] eqn:Hn.
  - destruct (isPrimitiveName name) eqn:Hp.
    + destruct (convertTsType_primitive i s a name Hn Hp) as (ty & Hty & E).
      rewrite E in H. injection H as _ <-.
      destruct ty; try discriminate Hty; split; reflexivity.
    + rewrite (convertTsType_other i s a name Hn Hp) in H.
      apply bind_Normal_inv in H as (l1 & cn & l2 & Hcn & H & ->).
      apply bind_Normal_inv in H as (l3 & args & l4 & Hargs & H & ->).
      injection H as _ <-.
      assert (Hwf : match args with
                    | Some l => forallb wellFormedType l
                    | None => true
                    end = true
                    /\ option_map (@length ks.Type_) args
                       = option_map (@length ts.Type_) a).
      { destruct a as [typeArgs|].
        - apply bind_Normal_inv in Hargs as (l5 & rs & l6 & Hm & Hr & _).
          injection Hr as _ <-.
          apply mapM_Normal_inv in Hm as (rs' & Hrs & _ & ->).
          split.
          + apply forallb_forall. intros x Hx.
            apply in_map_iff in Hx as ([lx x'] & <- & Hin).
            clear -IH Hrs Hin. induction Hrs as [|y r0 ys rs0 Hy _ IHrs].
            * destruct Hin.
            * inversion IH as [|? ? IHy IHys]; subst.
              destruct Hin as [->|Hin]; [|apply IHrs; assumption].
              apply (IHy _ _ Hy).
          + cbn. rewrite length_map. f_equal. symmetry.
            eapply Forall2_length. exact Hrs.
        - injection Hargs as _ <-. split; reflexivity. }
      destruct Hwf as [Hwf Hlen].
      destruct (jsstring_eqb name (str "Array")); cbn [negb] in Hcn.
      * injection Hcn as _ <-. cbn [wellFormedType isPrimitiveType].
        rewrite Hwf. split; [reflexivity | exact Hlen].
      * rewrite nameToKS_eq, bind_Normal in Hcn. injection Hcn as _ <-.
        cbn [wellFormedType isPrimitiveType]. rewrite Hwf, andb_true_r.
        split; [|exact Hlen].
        apply forallb_forall. intros c Hc.
        pose proof (normalized_passesThrough false name) as Hall.
        rewrite List.Forall_forall in Hall. apply Hall. exact Hc.
  - cbn [convertTsType] in H. rewrite typeText_canonicalName, Hn in H.
    discriminate H.
Qed.

Lemma convertTsType_wellFormed_witness :
  wellFormedType
    (ks.mkType ks.Class (Some (str "map"))
       (Some [ks.mkType ks.String None None;
              ks.mkType ks.Array None None])) = true.
Proof.
  apply (convertTsType_wellFormed
           (ts.mkType None (Some (ts.mkSymbol (str "Map")))
              (Some [ts.mkType (Some (str "string")) None None;
                     ts.mkType None (Some (ts.mkSymbol (str "Array"))) None]))
           []).
  reflexivity.
Defined.

(** ** convertExpression *)

Section FurtherLoweringProperties.

Variable SyntaxKindName : ts.SyntaxKind.t -> jsstring.

Lemma completes_intro {A} (m : M A) (l : list Diagnostic) (a : A) :
  m = (l, Normal a) -> completes m.
Proof. intros H. exists l, a. exact H. Qed.

Lemma mapM_completes_forallb {A B} (f : A -> M B) (Q : A -> bool)
    (xs : list A) :
  Forall (fun x => completes (f x) -> Q x = true) xs ->
  completes (mapM f xs) -> forallb Q xs = true.
Proof.
  intros HF Hc. apply completes_mapM_inv in Hc.
  apply forallb_forall. intros x Hx.
  rewrite List.Forall_forall in HF, Hc. auto.
Qed.

Lemma expressionLowers_complete (e : ts.Expression) :
  completes (convertExpressionNode SyntaxKindName e) ->
  expressionLowers e = true.
Proof.
  induction e as [f args IHf IHargs | l op r IHl IHr | f n IHf IHn
                 | f a IHf IHa | t | f args IHf IHargs
                 | c t f IHc IHt IHf | t | t | | | | f IHf | f op IHf
                 | op f IHf | es IHes | k] using Expression_nested_ind;
    cbn [expressionLowers convertExpressionNode]; intros H;
    try reflexivity;
    repeat match goal with
           | H : completes (bind _ _) |- _ =>
               let E := fresh "E" in
               apply completes_bind_inv in H as (? & ? & E & H);
               apply completes_intro in E
           end;
    repeat (apply andb_true_intro; split); auto.
  - exact (mapM_completes_forallb _ _ _ IHargs E0).
  - destruct a as [a|]; [auto | reflexivity].
  - destruct args as [args|].
    + exact (mapM_completes_forallb _ _ _ IHargs E0).
    + destruct E0 as (? & ? & E0). discriminate E0.
  - exact (mapM_completes_forallb _ _ _ IHes E).
Qed.

(** X8: the lowering of an expression ends with a TypeError exactly when
    some [new] in it has no argument list; every other expression, whatever
    kinds of nodes it holds, is lowered. *)
Theorem convertExpression_completes_iff (e : ts.Expression) :
  completes (convertExpression SyntaxKindName (Some e))
  <-> expressionLowers e = true.
Proof.
  split; [apply expressionLowers_complete | apply expressionLowers_sound].
Qed.

Lemma mapM_log {A B} (f : A -> M B) (g : A -> list Diagnostic)
    (xs : list A) (l : list Diagnostic) (ys : list B) :
  Forall (fun x => forall l r, f x = (l, Normal r) -> l = g x) xs ->
  mapM f xs = (l, Normal ys) ->
  l = concat (List.map g xs).
Proof.
  intros HF H. apply mapM_Normal_inv in H as (rs & Hrs & -> & _).
  clear ys. induction Hrs as [|x r xs rs Hx _ IH]; [reflexivity|].
  inversion HF as [|? ? Hgx HF']; subst. cbn.
  rewrite (Hgx _ _ Hx), (IH HF'). reflexivity.
Qed.

Lemma convertOtherExpression_eq (k : ts.SyntaxKind.t) :
  convertOtherExpression SyntaxKindName k
  = if isKeywordKind SyntaxKindName k
    then ret (Val (ks.Identifier
                     (if jsstring_eqb (toLowerCase (SyntaxKindName k))
                                      (str "thiskeyword")
                      then str "this" else str "super")))
    else ([mkDiagnostic (unexpectedExpressionKind SyntaxKindName k) None],
          Normal Null).
Proof.
  unfold convertOtherExpression, isKeywordKind, knownKeywords.
  cbn [List.find existsb].
  change (str "this" ++ str "keyword") with (str "thiskeyword").
  change (str "super" ++ str "keyword") with (str "superkeyword").
  destruct (jsstring_eqb _ (str "thiskeyword")); [reflexivity|].
  destruct (jsstring_eqb _ (str "superkeyword")); reflexivity.
Qed.

Lemma convertExpressionNode_log (e : ts.Expression) :
  forall (l : list Diagnostic) (r : JsOpt ks.Expression),
    convertExpressionNode SyntaxKindName e = (l, Normal r) ->
    l = List.map (fun k => mkDiagnostic
                             (unexpectedExpressionKind SyntaxKindName k) None)
                 (unexpectedKinds SyntaxKindName e).
Proof.
  induction e as [f args IHf IHargs | tl op tr IHl IHr | f n IHf IHn
                 | f a IHf IHa | t | f args IHf IHargs
                 | c t f IHc IHt IHf | t | t | | | | f IHf | f op IHf
                 | op f IHf | es IHes | k] using Expression_nested_ind;
    cbn [unexpectedKinds convertExpressionNode]; intros l r H;
    repeat match goal with
           | H : bind _ _ = (_, Normal _) |- _ =>
               let E := fresh "E" in
               apply bind_Normal_inv in H as (? & ? & ? & E & H & ->)
           end;
    try (injection H as <- _);
    rewrite ?List.map_app, ?app_nil_r;
    repeat match goal with
           | IH : forall l r, convertExpressionNode _ ?x = _ -> _,
             E : convertExpressionNode _ ?x = _ |- _ =>
               rewrite (IH _ _ E); clear E
           end;
    try reflexivity.
  - rewrite concat_map, List.map_map. f_equal.
    eapply (mapM_log (convertExpressionNode SyntaxKindName)); [|exact E0].
    exact IHargs.
  - destruct a as [a|]; cbn [orUndefined] in E0.
    + rewrite (IHa _ _ E0). reflexivity.
    + injection E0 as <- _. reflexivity.
  - destruct args as [args|]; [|discriminate E0].
    rewrite concat_map, List.map_map. f_equal.
    eapply (mapM_log (convertExpressionNode SyntaxKindName)); [|exact E0].
    exact IHargs.
  - rewrite concat_map, List.map_map.
    eapply (mapM_log (convertExpressionNode SyntaxKindName)); [|exact E].
    exact IHes.
  - rewrite convertOtherExpression_eq in H.
    destruct (isKeywordKind SyntaxKindName k); injection H as <- _; reflexivity.
Qed.

(** X9: when an expression is lowered, the diagnostics are the
    [Unexpected expression kind] messages of the nodes without a case that
    are no keyword, one for each, in the order of the source; nothing else
    is reported. *)
Theorem convertExpression_diagnostics (e : ts.Expression)
    (l : list Diagnostic) (r : JsOpt ks.Expression) :
  convertExpression SyntaxKindName (Some e) = (l, Normal r) ->
  l = List.map (fun k => mkDiagnostic
                           (unexpectedExpressionKind SyntaxKindName k) None)
               (unexpectedKinds SyntaxKindName e).
Proof. apply convertExpressionNode_log. Qed.


Lemma mapM_positions {A B} (f : A -> M B) (xs : list A)
    (l : list Diagnostic) (ys : list B) :
  mapM f xs = (l, Normal ys) ->
  Forall2 (fun x y => exists lx, f x = (lx, Normal y)) xs ys.
Proof.
  intros H. apply mapM_Normal_inv in H as (rs & Hrs & _ & ->).
  induction Hrs as [|x r xs rs Hx _ IH]; constructor; [|exact IH].
  exists (fst r). exact Hx.
Qed.

(** X11: the arguments of a call, the arguments of a [new] and the items of
    an array literal keep their number and their places: the i-th entry of
    the lowered list is what the i-th source expression lowers to, a [null]
    for a node without a case included. *)
Theorem arguments_keep_positions :
  (forall (f : ts.Expression) (args : list ts.Expression)
          (l : list Diagnostic) (r : JsOpt ks.Expression),
      convertExpression SyntaxKindName (Some (ts.CallExpression f args))
      = (l, Normal r) ->
      exists m args',
        r = Val (ks.Call m args')
        /\ Forall2 (fun a a' =>
                      exists la, convertExpression SyntaxKindName (Some a)
                                 = (la, Normal a')) args args')
  /\ (forall (f : ts.Expression) (args : option (list ts.Expression))
             (l : list Diagnostic) (r : JsOpt ks.Expression),
        convertExpression SyntaxKindName (Some (ts.NewExpression f args))
        = (l, Normal r) ->
        exists c args0 args',
          args = Some args0 /\ r = Val (ks.New c args')
          /\ Forall2 (fun a a' =>
                        exists la, convertExpression SyntaxKindName (Some a)
                                   = (la, Normal a')) args0 args')
  /\ (forall (es : list ts.Expression)
             (l : list Diagnostic) (r : JsOpt ks.Expression),
        convertExpression SyntaxKindName (Some (ts.ArrayLiteralExpression es))
        = (l, Normal r) ->
        exists items,
          r = Val (ks.ArrayLiteral items)
          /\ Forall2 (fun a a' =>
                        exists la, convertExpression SyntaxKindName (Some a)
                                   = (la, Normal a')) es items).
Proof.
  unfold convertExpression, orUndefined.
  split; [|split].
  - intros f args l r H. cbn [convertExpressionNode] in H.
    apply bind_Normal_inv in H as (l1 & m & l2 & _ & H & ->).
    apply bind_Normal_inv in H as (l3 & args' & l4 & Hargs & H & ->).
    injection H as _ <-. exists m, args'. split; [reflexivity|].
    exact (mapM_positions _ _ _ _ Hargs).
  - intros f args l r H. cbn [convertExpressionNode] in H.
    apply bind_Normal_inv in H as (l1 & c & l2 & _ & H & ->).
    apply bind_Normal_inv in H as (l3 & args' & l4 & Hargs & H & ->).
    injection H as _ <-. destruct args as [args0|]; [|discriminate Hargs].
    exists c, args0, args'. split; [reflexivity|]. split; [reflexivity|].
    exact (mapM_positions _ _ _ _ Hargs).
  - intros es l r H. cbn [convertExpressionNode] in H.
    apply bind_Normal_inv in H as (l1 & items & l2 & Hitems & H & ->).
    injection H as _ <-. exists items. split; [reflexivity|].
    exact (mapM_positions _ _ _ _ Hitems).
Qed.

(** ** convertInitializer *)


(** ** convertStatement, convertBlock *)

Lemma convertStatementNode_shape (s : ts.Statement) (l : list Diagnostic)
    (r : list (JsOpt ks.Statement)) :
  convertStatementNode SyntaxKindName s = (l, Normal r) ->
  List.map entryType r = repeat (expectedType s) (entries s).
Proof.
  intros H.
  destruct s; cbn [convertStatementNode] in H;
    repeat match goal with
           | H : bind _ _ = (_, Normal _) |- _ =>
               let E := fresh "E" in
               apply bind_Normal_inv in H as (? & ? & ? & E & H & ->)
           end;
    injection H as _ <-; try reflexivity.
  apply mapM_Normal_inv in E as (rs & Hrs & _ & ->).
  cbn [expectedType entries]. rewrite (Forall2_length _ _ _ Hrs).
  clear Hrs. induction rs as [|r0 rs IH]; [reflexivity|].
  cbn. f_equal. exact IH.
Qed.

(** X13: the tags of what a statement lowers to are fixed by the source
    statement: a variable statement gives one [Variable] entry per
    declarator, every other statement with a case one entry of its tag, a
    statement without a case one [null]; no entry is ever [undefined].  The
    statement list of a block carries these tags in source order, so its
    length is the sum of the entries of its statements. *)
Theorem statements_shape :
  (forall (s : ts.Statement) (l : list Diagnostic)
          (r : JsOpt (list (JsOpt ks.Statement))),
      convertStatement SyntaxKindName (Some s) = (l, Normal r) ->
      exists stmts,
        r = Val stmts
        /\ List.map entryType stmts = repeat (expectedType s) (entries s))
  /\ (forall (ss : list ts.Statement) (l : list Diagnostic)
             (r : JsOpt ks.Block),
        convertBlock SyntaxKindName (Some (ts.Block ss)) = (l, Normal r) ->
        exists stmts,
          r = Val (ks.mkBlock stmts)
          /\ List.map entryType stmts
             = concat (List.map (fun s => repeat (expectedType s) (entries s))
                                ss)
          /\ length stmts = list_sum (List.map entries ss)).
Proof.
  split.
  - intros s l r H. unfold convertStatement, orUndefined in H.
    apply bind_Normal_inv in H as (l1 & stmts & l2 & Hs & H & ->).
    injection H as _ <-. exists stmts. split; [reflexivity|].
    exact (convertStatementNode_shape _ _ _ Hs).
  - intros ss l r H.
    unfold convertBlock, orUndefined, convertBlockNode, convertBlockWith in H.
    apply bind_Normal_inv in H as (l1 & rs & l2 & Hm & H & ->).
    injection H as _ <-. eexists. split; [reflexivity|].
    apply mapM_Normal_inv in Hm as (rs' & Hrs & _ & ->).
    unfold flattenArray.
    assert (Hshape : List.map entryType (concat (List.map snd rs'))
                     = concat (List.map (fun s => repeat (expectedType s)
                                                         (entries s)) ss)).
    { induction Hrs as [|s0 r0 ss0 rs0 Hs _ IH]; [reflexivity|].
      cbn. rewrite List.map_app, IH.
      rewrite (convertStatementNode_shape _ _ _ Hs). reflexivity. }
    split; [exact Hshape|].
    rewrite <- (length_map entryType), Hshape.
    clear. induction ss as [|s ss IH]; [reflexivity|].
    cbn. rewrite length_app, repeat_length, IH. reflexivity.
Qed.

Lemma convertExpression_option_complete (o : option ts.Expression) :
  completes (convertExpression SyntaxKindName o) ->
  optionalExpressionLowers o = true.
Proof.
  destruct o as [e|]; [apply expressionLowers_complete | reflexivity].
Qed.

Lemma convertVariableDeclaration_complete (d : ts.VariableDeclaration) :
  completes (convertVariableDeclaration SyntaxKindName d) ->
  declarationLowers d = true.
Proof.
  unfold convertVariableDeclaration. intros H.
  apply completes_bind_inv in H as (l & i & E & _).
  apply convertExpression_option_complete. exact (completes_intro _ _ _ E).
Qed.

Lemma convertInitializer_complete (i : option ts.ForInitializer) :
  completes (convertInitializer SyntaxKindName i) ->
  initializerLowers i = true.
Proof.
  destruct i as [[[|d ds]|e]|]; cbn [initializerLowers convertInitializer];
    intros H; try reflexivity.
  - apply completes_bind_inv in H as (? & ? & _ & (? & ? & H)). discriminate H.
  - apply completes_bind_inv in H as (? & ? & _ & H).
    apply completes_bind_inv in H as (? & ? & E & _).
    apply convertVariableDeclaration_complete.
    exact (completes_intro _ _ _ E).
  - destruct H as (? & ? & H). discriminate H.
Qed.

Lemma statementLowers_complete (s : ts.Statement) :
  (completes (convertStatementNode SyntaxKindName s) ->
   statementLowers s = true)
  /\ (completes (convertBlockNode SyntaxKindName s) ->
      bodyLowers s = true).
Proof.
  assert (Hbare : forall s : ts.Statement,
             (completes (convertStatementNode SyntaxKindName s) ->
              statementLowers s = true) ->
             completes (bind (convertStatementNode SyntaxKindName s)
                             (fun r => ret (Val (ks.mkBlock r)))) ->
             statementLowers s = true).
  { intros s0 H0 H. apply completes_bind_inv in H as (? & ? & E & _).
    apply H0. exact (completes_intro _ _ _ E). }
  assert (Helse : forall e : option ts.Statement,
             match e with
             | Some e' =>
                 (completes (convertStatementNode SyntaxKindName e') ->
                  statementLowers e' = true)
                 /\ (completes (convertBlockNode SyntaxKindName e') ->
                     bodyLowers e' = true)
             | None => True
             end ->
             completes (orUndefined (convertBlockNode SyntaxKindName) e) ->
             match e with
             | Some e' => bodyLowers e'
             | None => true
             end = true).
  { intros [e'|] He H; [apply He; exact H | reflexivity]. }
  induction s as [c t e [IHt IHtb] IHe | e | e | e | ds | c b [IHb IHbb]
                 | i e b [IHb IHbb] | i c inc b [IHb IHbb] | ss IHss | k]
    using Statement_nested_ind;
    (split; [cbn [statementLowers convertStatementNode]
            | unfold bodyLowers, convertBlockNode;
              cbn [bodyLowersWith convertBlockWith];
              fold convertBlockNode; fold bodyLowers ]);
    fold (convertBlockNode SyntaxKindName); fold bodyLowers;
    intros H;
    try (apply Hbare in H;
         [exact H
         | cbn [statementLowers convertStatementNode];
           fold (convertBlockNode SyntaxKindName); fold bodyLowers;
           clear H; intros H]);
    try reflexivity;
    repeat match goal with
           | H : completes (bind _ _) |- _ =>
               let E := fresh "E" in
               apply completes_bind_inv in H as (? & ? & E & H);
               apply completes_intro in E
           end;
    repeat (apply andb_true_intro; split);
    auto using expressionLowers_complete, convertExpression_option_complete,
               convertInitializer_complete.
  - apply (mapM_completes_forallb
             (convertVariableDeclaration SyntaxKindName)); [|exact E].
    apply List.Forall_forall. intros d _.
    apply convertVariableDeclaration_complete.
  - apply (mapM_completes_forallb
             (convertVariableDeclaration SyntaxKindName)); [|exact E].
    apply List.Forall_forall. intros d _.
    apply convertVariableDeclaration_complete.
  - apply (mapM_completes_forallb (convertStatementNode SyntaxKindName));
      [|exact E].
    eapply Forall_impl; [exact IHss|]. intros s0 [H0 _]. exact H0.
Qed.

(** X14: the lowering of a statement, and of a body passed to
    [convertBlock], ends with a TypeError exactly when the conversion reaches
    a [new] without an argument list, a [for] without an initializer, or a
    [for] or [for-of] whose declaration list is empty.  It does not reach
    the statements of a nested block statement, an initializer that is an
    expression, or the declarators after the first of a loop initializer, so
    nothing in them can throw. *)
Theorem convertStatement_completes_iff :
  (forall s : ts.Statement,
      completes (convertStatement SyntaxKindName (Some s))
      <-> statementLowers s = true)
  /\ (forall b : ts.Statement,
        completes (convertBlock SyntaxKindName (Some b))
        <-> bodyLowers b = true).
Proof.
  split.
  - intros s. unfold convertStatement, orUndefined. split.
    + intros H. apply completes_bind_inv in H as (? & ? & E & _).
      apply statementLowers_complete. exact (completes_intro _ _ _ E).
    + intros H. apply completes_bind;
        [apply statementLowers_sound; exact H | intros; apply completes_ret].
  - intros b. split;
      [apply statementLowers_complete | apply statementLowers_sound].
Qed.

Lemma convertBlock_Normal_inv (ss : list ts.Statement)
    (l : list Diagnostic) (r : JsOpt ks.Block) :
  convertBlock SyntaxKindName (Some (ts.Block ss)) = (l, Normal r) ->
  exists rs : list (list Diagnostic * list (JsOpt ks.Statement)),
    Forall2 (lowersTo (convertStatementNode SyntaxKindName)) ss rs
    /\ l = concat (List.map fst rs)
    /\ r = Val (ks.mkBlock (concat (List.map snd rs))).
Proof.
  intros H.
  unfold convertBlock, orUndefined, convertBlockNode, convertBlockWith in H.
  apply bind_Normal_inv in H as (l1 & rs & l2 & Hm & H & ->).
  injection H as <- <-.
  apply mapM_Normal_inv in Hm as (rs' & Hrs & -> & ->).
  exists rs'. rewrite app_nil_r. auto.
Qed.

(** X15: lowering a block of two runs of statements is lowering the two
    runs one after the other: the block of [a ++ b] is lowered exactly when
    the blocks of [a] and of [b] are, the statement list is the first list
    followed by the second, and so is the log. *)
Theorem convertBlock_concatenation
    (sa sb : list ts.Statement) (l : list Diagnostic) (r : JsOpt ks.Block) :
  convertBlock SyntaxKindName (Some (ts.Block (sa ++ sb))) = (l, Normal r)
  <-> exists (la lb : list Diagnostic) (ra rb : list (JsOpt ks.Statement)),
        convertBlock SyntaxKindName (Some (ts.Block sa))
        = (la, Normal (Val (ks.mkBlock ra)))
        /\ convertBlock SyntaxKindName (Some (ts.Block sb))
           = (lb, Normal (Val (ks.mkBlock rb)))
        /\ l = la ++ lb
        /\ r = Val (ks.mkBlock (ra ++ rb)).
Proof.
  split.
  - intros H. apply convertBlock_Normal_inv in H as (rs & Hrs & -> & ->).
    apply Forall2_app_inv_l in Hrs as (rsa & rsb & Ha & Hb & ->).
    exists (concat (List.map fst rsa)), (concat (List.map fst rsb)),
           (concat (List.map snd rsa)), (concat (List.map snd rsb)).
    rewrite !List.map_app, !concat_app.
    split; [apply convertBlock_sequence; exact Ha|].
    split; [apply convertBlock_sequence; exact Hb|]. auto.
  - intros (la & lb & ra & rb & Ha & Hb & -> & ->).
    apply convertBlock_Normal_inv in Ha as (rsa & Hrsa & -> & Ea).
    apply convertBlock_Normal_inv in Hb as (rsb & Hrsb & -> & Eb).
    injection Ea as ->. injection Eb as ->.
    rewrite (convertBlock_sequence SyntaxKindName _ (rsa ++ rsb))
      by (apply Forall2_app; assumption).
    rewrite !List.map_app, !concat_app. reflexivity.
Qed.

Lemma mapM_aborts {A B} (f : A -> M B) (pre post : list A) (x : A)
    (rpre : list (list Diagnostic * B)) (lx : list Diagnostic) :
  Forall2 (lowersTo f) pre rpre ->
  f x = (lx, TypeError) ->
  mapM f (pre ++ x :: post) = (concat (List.map fst rpre) ++ lx, TypeError).
Proof.
  intros Hpre Hx. induction Hpre as [|p r pre rpre Hp _ IH].
  - cbn [app]. rewrite mapM_cons, Hx. reflexivity.
  - cbn [app]. rewrite mapM_cons. unfold lowersTo in Hp.
    rewrite Hp, bind_Normal, IH. cbn. rewrite app_assoc. reflexivity.
Qed.

(** X16: a TypeError in a statement of a block ends the lowering of the
    block there: the result is the TypeError, the log holds what the earlier
    statements and the failing one reported, and the statements after it are
    not looked at. *)
Theorem convertBlock_aborts (pre post : list ts.Statement) (s : ts.Statement)
    (rpre : list (list Diagnostic * list (JsOpt ks.Statement)))
    (ls : list Diagnostic) :
  Forall2 (lowersTo (convertStatementNode SyntaxKindName)) pre rpre ->
  convertStatementNode SyntaxKindName s = (ls, TypeError) ->
  convertBlock SyntaxKindName (Some (ts.Block (pre ++ s :: post)))
  = (concat (List.map fst rpre) ++ ls, TypeError).
Proof.
  intros Hpre Hs.
  unfold convertBlock, orUndefined, convertBlockNode, convertBlockWith.
  rewrite (mapM_aborts _ pre post s rpre ls Hpre Hs). reflexivity.
Qed.

(** *** Loops that file entries under keys *)

Section KeyedLoop.

Context {A V : Type}.
Variable body : gmap jsstring V -> A -> M (gmap jsstring V).
Variable keep : A -> bool.
Variable keyOf : A -> jsstring.
Variable entryOf : A -> V -> Prop.

Hypothesis body_files : forall s x l s',
  keep x = true ->
  body s x = (l, Normal s') ->
  exists v, entryOf x v /\ s' = setProperty (keyOf x) v s.

Hypothesis body_skips : forall s x l s',
  keep x = false -> body s x = (l, Normal s') -> s' = s.

Lemma keyed_step (s s' : gmap jsstring V) (x : A) (l : list Diagnostic)
    (key : jsstring) :
  body s x = (l, Normal s') ->
  (keep x = true /\ keyOf x = key /\ key <> str "__proto__"
   /\ exists v, entryOf x v /\ s' !! key = Some v)
  \/ ((keep x = true -> keyOf x = key -> key = str "__proto__")
      /\ s' !! key = s !! key).
Proof.
  intros H. destruct (keep x) eqn:Hkeep.
  - apply (body_files _ _ _ _ Hkeep) in H as (v & He & ->).
    rewrite lookup_setProperty.
    destruct (bool_decide_reflect (keyOf x = key)) as [Hk|Hk];
      destruct (jsstring_eqb (keyOf x) (str "__proto__")) eqn:Hproto;
      cbn [andb negb].
    + right. split; [|reflexivity]. intros _ _. rewrite <- Hk.
      apply bool_decide_eq_true_1 in Hproto. exact Hproto.
    + left. split; [reflexivity|]. split; [exact Hk|]. split.
      * rewrite <- Hk. apply jsstring_eqb_neq. exact Hproto.
      * exists v. auto.
    + right. split; [|reflexivity]. intros _ Hk'. contradiction.
    + right. split; [|reflexivity]. intros _ Hk'. contradiction.
  - apply (body_skips _ _ _ _ Hkeep) in H as ->.
    right. split; [|reflexivity]. intros Hk. discriminate Hk.
Qed.

Lemma keyed_loop_origin (xs : list A) (s0 s : gmap jsstring V)
    (l : list Diagnostic) (key : jsstring) (v : V) :
  forOf body xs s0 = (l, Normal s) ->
  s !! key = Some v ->
  s0 !! key = Some v
  \/ (key <> str "__proto__"
      /\ exists x, In x xs /\ keep x = true /\ keyOf x = key
                   /\ entryOf x v).
Proof.
  revert s0 l. induction xs as [|x rest IH]; intros s0 l H Hl.
  - injection H as _ <-. left. exact Hl.
  - rewrite forOf_cons in H.
    apply bind_Normal_inv in H as (l1 & s1 & l2 & Hx & Hrest & ->).
    destruct (IH _ _ Hrest Hl) as [H1 | (Hp & x' & Hin & Hkp & Hk & He)].
    + destruct (keyed_step _ _ _ _ key Hx)
        as [(Hkp & Hk & Hp & v' & He & Hv) | (_ & Hsame)].
      * rewrite H1 in Hv. injection Hv as <-. right. split; [exact Hp|].
        exists x. split; [left; reflexivity|]. auto.
      * left. rewrite <- Hsame. exact H1.
    + right. split; [exact Hp|]. exists x'. split; [right; exact Hin|]. auto.
Qed.

Lemma keyed_loop_preserved (xs : list A) (s0 s : gmap jsstring V)
    (l : list Diagnostic) (key : jsstring) :
  forOf body xs s0 = (l, Normal s) ->
  Forall (fun x => keep x = true -> keyOf x <> key) xs ->
  s !! key = s0 !! key.
Proof.
  revert s0 l. induction xs as [|x rest IH]; intros s0 l H Hne.
  - injection H as _ <-. reflexivity.
  - rewrite forOf_cons in H.
    apply bind_Normal_inv in H as (l1 & s1 & l2 & Hx & Hrest & ->).
    inversion Hne as [|? ? Hx0 Hrest0]; subst.
    rewrite (IH _ _ Hrest Hrest0).
    destruct (keyed_step _ _ _ _ key Hx)
      as [(Hkp & Hk & _) | (_ & Hsame)]; [|exact Hsame].
    exfalso. exact (Hx0 Hkp Hk).
Qed.

Lemma keyed_loop_last (before after : list A) (x : A)
    (s0 s : gmap jsstring V) (l : list Diagnostic) :
  forOf body (before ++ x :: after) s0 = (l, Normal s) ->
  keep x = true ->
  Forall (fun y => keep y = true -> keyOf y <> keyOf x) after ->
  keyOf x <> str "__proto__" ->
  exists v, entryOf x v /\ s !! keyOf x = Some v.
Proof.
  intros H Hkeep Hlast Hproto.
  apply forOf_app_inv in H as (la & s1 & lb & _ & H & _).
  rewrite forOf_cons in H.
  apply bind_Normal_inv in H as (l3 & s2 & l4 & Hx & Hrest & _).
  rewrite (keyed_loop_preserved _ _ _ _ _ Hrest Hlast).
  destruct (keyed_step _ _ _ _ (keyOf x) Hx)
    as [(_ & _ & _ & v & He & Hv) | (Hp & _)].
  - exists v. auto.
  - exfalso. apply Hproto. apply Hp; [exact Hkeep | reflexivity].
Qed.

Lemma keyed_loop_keys (xs : list A) (s0 s : gmap jsstring V)
    (l : list Diagnostic) (key : jsstring) :
  forOf body xs s0 = (l, Normal s) ->
  (is_Some (s !! key)
   <-> is_Some (s0 !! key)
       \/ (key <> str "__proto__"
           /\ exists x, In x xs /\ keep x = true /\ keyOf x = key)).
Proof.
  revert s0 l. induction xs as [|x rest IH]; intros s0 l H.
  - injection H as _ <-. split; [auto|].
    intros [H | (_ & x & [] & _)]. exact H.
  - rewrite forOf_cons in H.
    apply bind_Normal_inv in H as (l1 & s1 & l2 & Hx & Hrest & ->).
    rewrite (IH _ _ Hrest).
    destruct (keyed_step _ _ _ _ key Hx)
      as [(Hkp & Hk & Hp & v & _ & Hv) | (Hp & Hsame)].
    + rewrite Hv. split.
      * intros _. right. split; [exact Hp|]. exists x.
        split; [left; reflexivity|]. auto.
      * intros _. left. eexists. reflexivity.
    + rewrite Hsame. split.
      * intros [H | (Hp' & y & Hin & Hy)]; [left; exact H|].
        right. split; [exact Hp'|]. exists y. split; [right; exact Hin|exact Hy].
      * intros [H | (Hp' & y & [->|Hin] & Hkp & Hy)]; [left; exact H | |].
        -- exfalso. apply Hp'. apply Hp; assumption.
        -- right. split; [exact Hp'|]. exists y. auto.
Qed.

End KeyedLoop.

(** ** createSchemaFromSourceFile *)














Lemma convertEnumMembers_eq (members : list SimpleAst.EnumMember.t) :
  exists l : list Diagnostic,
    mapM convertEnumMember members
    = (l, Normal (List.map (fun m => ks.mkEnumMember
                             (normalized false (SimpleAst.EnumMember.getName m)))
                           members)).
Proof.
  induction members as [|m ms [l IH]].
  - exists []. reflexivity.
  - eexists. rewrite mapM_cons. unfold convertEnumMember at 1.
    rewrite nameToKS_eq. monad_simpl. rewrite IH. monad_simpl. reflexivity.
Qed.

Lemma convertEnum_eq (enums : gmap jsstring ks.Enum)
    (tsEnum : SimpleAst.EnumDeclaration.t) :
  exists l : list Diagnostic,
    convertEnum enums tsEnum
    = (l, Normal (setProperty (enumKey tsEnum) (enumSchema tsEnum) enums)).
Proof.
  unfold convertEnum, enumKey, enumSchema.
  destruct (convertEnumMembers_eq (SimpleAst.EnumDeclaration.getMembers tsEnum))
    as [l E].
  eexists. rewrite nameToKS_eq. monad_simpl. rewrite E. monad_simpl.
  reflexivity.
Qed.



Lemma convertEnum_files (s : gmap jsstring ks.Enum)
    (x : SimpleAst.EnumDeclaration.t) (l : list Diagnostic)
    (s' : gmap jsstring ks.Enum) :
  convertEnum s x = (l, Normal s') ->
  exists v, v = enumSchema x /\ s' = setProperty (enumKey x) v s.
Proof.
  destruct (convertEnum_eq s x) as [l' E]. rewrite E.
  intros H. injection H as _ <-. eexists. split; reflexivity.
Qed.

Lemma convertClass_files (s : gmap jsstring ks.Class_)
    (c : SimpleAst.ClassDeclaration.t) (l : list Diagnostic)
    (s' : gmap jsstring ks.Class_) :
  convertClass SyntaxKindName s c = (l, Normal s') ->
  exists cs,
    (forall s2, convertClass SyntaxKindName s2 c
                = (l, Normal (setProperty (classKey c) cs s2)))
    /\ s' = setProperty (classKey c) cs s.
Proof.
  unfold convertClass, classKey. rewrite nameToKS_eq. intros H.
  apply bind_Normal_inv in H as (l1 & key & l1' & Hkey & H & ->).
  injection Hkey as <- <-.
  apply bind_Normal_inv in H as (l2 & fields & l2' & Hf & H & ->).
  apply bind_Normal_inv in H as (l3 & methods & l3' & Hm & H & ->).
  apply bind_Normal_inv in H as (l4 & ctor & l4' & Hc & H & ->).
  injection H as <- <-.
  exists (ks.mkClass fields methods ctor). split; [|reflexivity].
  intros s2. rewrite bind_Normal, Hf, bind_Normal, Hm, bind_Normal, Hc,
    bind_Normal. reflexivity.
Qed.

(** X18: when the schema is built, an enum is filed under the text
    [nameToKS] returns for its name, with the texts it returns for the names
    of its members, one per member in declaration order, repeated names
    included.  Of several enums with the same key the last one is kept. *)
Theorem enum_entries (typeInfo : SimpleAst.SourceFile.t)
    (log : list Diagnostic) (schema : ks.SchemaFile)
    (before after : list SimpleAst.EnumDeclaration.t)
    (tsEnum : SimpleAst.EnumDeclaration.t) :
  createSchemaFromSourceFile SyntaxKindName typeInfo = (log, Normal schema) ->
  SimpleAst.SourceFile.getEnums typeInfo = before ++ tsEnum :: after ->
  Forall (fun e => enumKey e <> enumKey tsEnum) after ->
  enumKey tsEnum <> str "__proto__" ->
  ks.enums schema !! enumKey tsEnum = Some (enumSchema tsEnum)
  /\ length (ks.values (enumSchema tsEnum))
     = length (SimpleAst.EnumDeclaration.getMembers tsEnum).
Proof.
  intros H Hsplit Hlast Hproto. unfold createSchemaFromSourceFile in H.
  apply bind_Normal_inv in H as (le & enums & l1 & Henums & H & ->).
  apply bind_Normal_inv in H as (lc & classes & l2 & _ & H & ->).
  injection H as _ <-. cbn [ks.enums]. rewrite Hsplit in Henums.
  destruct (keyed_loop_last convertEnum (fun _ => true) enumKey
              (fun x v => v = enumSchema x))
    with (before := before) (after := after) (x := tsEnum)
         (s0 := (∅ : gmap jsstring ks.Enum)) (s := enums) (l := le)
    as (v & -> & Hv); try assumption; try reflexivity.
  { intros s x l s' _. apply convertEnum_files. }
  { intros ? ? ? ? Hf. discriminate Hf. }
  { eapply Forall_impl; [exact Hlast|]. intros e He _. exact He. }
  split; [exact Hv|]. unfold enumSchema. cbn. apply length_map.
Qed.

(** X19: the keys of the schema are the texts [nameToKS] returns for the
    declared names, [__proto__] left out: a class, or an enum, whose name
    normalizes to [__proto__] gets no entry, and nothing else is missing or
    added. *)
Theorem schema_keys (typeInfo : SimpleAst.SourceFile.t)
    (log : list Diagnostic) (schema : ks.SchemaFile) :
  createSchemaFromSourceFile SyntaxKindName typeInfo = (log, Normal schema) ->
  forall key : jsstring,
    (is_Some (ks.classes schema !! key)
     <-> key <> str "__proto__"
         /\ exists c, In c (SimpleAst.SourceFile.getClasses typeInfo)
                      /\ classKey c = key)
    /\ (is_Some (ks.enums schema !! key)
        <-> key <> str "__proto__"
            /\ exists e, In e (SimpleAst.SourceFile.getEnums typeInfo)
                         /\ enumKey e = key).
Proof.
  intros H key. unfold createSchemaFromSourceFile in H.
  apply bind_Normal_inv in H as (le & enums & l1 & Henums & H & ->).
  apply bind_Normal_inv in H as (lc & classes & l2 & Hclasses & H & ->).
  injection H as _ <-. cbn [ks.enums ks.classes]. split.
  - assert (Hfiles : forall (s : gmap jsstring ks.Class_)
                            (x : SimpleAst.ClassDeclaration.t)
                            (l : list Diagnostic) (s' : gmap jsstring ks.Class_),
               true = true ->
               convertClass SyntaxKindName s x = (l, Normal s') ->
               exists v, True /\ s' = setProperty (classKey x) v s).
    { intros s x l s' _ Hx. apply convertClass_files in Hx as (cs & _ & ->).
      exists cs. auto. }
    rewrite (keyed_loop_keys (convertClass SyntaxKindName) (fun _ => true)
               classKey (fun _ _ => True) Hfiles
               ltac:(intros ? ? ? ? Hf; discriminate Hf)
               _ _ _ _ key Hclasses).
    rewrite lookup_empty. split.
    + intros [[? Hx] | (Hp & c & Hin & _ & Hk)]; [discriminate Hx|]. eauto.
    + intros (Hp & c & Hin & Hk). right. split; [exact Hp|]. exists c. auto.
  - rewrite (keyed_loop_keys convertEnum (fun _ => true) enumKey
               (fun x v => v = enumSchema x)
               (fun s x l s' _ => convertEnum_files s x l s')
               ltac:(intros ? ? ? ? Hf; discriminate Hf)
               _ _ _ _ key Henums).
    rewrite lookup_empty. split.
    + intros [[? Hx] | (Hp & e & Hin & _ & Hk)]; [discriminate Hx|]. eauto.
    + intros (Hp & e & Hin & Hk). right. split; [exact Hp|]. exists e. auto.
Qed.

(** X20: the entry of a class in the schema depends on that class alone:
    it is the entry the schema of a source file holding only this class has.
    Of several classes with the same key the last one is kept. *)
Theorem class_entry_local (typeInfo : SimpleAst.SourceFile.t)
    (log : list Diagnostic) (schema : ks.SchemaFile)
    (before after : list SimpleAst.ClassDeclaration.t)
    (tsClass : SimpleAst.ClassDeclaration.t) :
  createSchemaFromSourceFile SyntaxKindName typeInfo = (log, Normal schema) ->
  SimpleAst.SourceFile.getClasses typeInfo = before ++ tsClass :: after ->
  Forall (fun c => classKey c <> classKey tsClass) after ->
  classKey tsClass <> str "__proto__" ->
  exists (l : list Diagnostic) (alone : ks.SchemaFile),
    createSchemaFromSourceFile SyntaxKindName
      (SimpleAst.SourceFile.mk [] [tsClass]) = (l, Normal alone)
    /\ is_Some (ks.classes alone !! classKey tsClass)
    /\ ks.classes schema !! classKey tsClass
       = ks.classes alone !! classKey tsClass.
Proof.
  intros H Hsplit Hlast Hproto. unfold createSchemaFromSourceFile in H.
  apply bind_Normal_inv in H as (le & enums & l1 & _ & H & ->).
  apply bind_Normal_inv in H as (lc & classes & l2 & Hclasses & H & ->).
  injection H as _ <-. cbn [ks.classes]. rewrite Hsplit in Hclasses.
  destruct (keyed_loop_last (convertClass SyntaxKindName) (fun _ => true)
              classKey
              (fun c cs => exists l, forall s2,
                   convertClass SyntaxKindName s2 c
                   = (l, Normal (setProperty (classKey c) cs s2))))
    with (before := before) (after := after) (x := tsClass)
         (s0 := (∅ : gmap jsstring ks.Class_)) (s := classes) (l := lc)
    as (cs & (l & Hcs) & Hv); try assumption; try reflexivity.
  { intros s x l s' _ Hx. apply convertClass_files in Hx as (cs & Hcs & ->).
    exists cs. split; [|reflexivity]. exists l. exact Hcs. }
  { intros ? ? ? ? Hf. discriminate Hf. }
  { eapply Forall_impl; [exact Hlast|]. intros c Hc _. exact Hc. }
  exists l, (ks.mkSchemaFile ∅ (setProperty (classKey tsClass) cs ∅)).
  assert (Hlook : setProperty (classKey tsClass) cs
                    (∅ : gmap jsstring ks.Class_) !! classKey tsClass
                  = Some cs).
  { rewrite lookup_setProperty, bool_decide_eq_true_2 by reflexivity.
    apply jsstring_eqb_neq in Hproto. rewrite Hproto. reflexivity. }
  split; [|split].
  - unfold createSchemaFromSourceFile. cbn [SimpleAst.SourceFile.getEnums
      SimpleAst.SourceFile.getClasses]. rewrite forOf_nil, bind_ret_l.
    rewrite forOf_cons, Hcs, bind_Normal, forOf_nil. cbn.
    rewrite !app_nil_r. reflexivity.
  - cbn [ks.classes]. rewrite Hlook. eexists. reflexivity.
  - cbn [ks.classes]. rewrite Hlook. exact Hv.
Qed.

Lemma forOf_filter {A S} (body : S -> A -> M S) (keep : A -> bool)
    (xs : list A) (s : S) :
  (forall s x, keep x = false -> body s x = ret s) ->
  forOf body (List.filter keep xs) s = forOf body xs s.
Proof.
  intros H. revert s. induction xs as [|x xs IH]; intros s; [reflexivity|].
  cbn [List.filter]. destruct (keep x) eqn:Hk.
  - rewrite !forOf_cons. destruct (body s x) as [l [s'|]]; [|reflexivity].
    rewrite !bind_Normal, IH. reflexivity.
  - rewrite forOf_cons, (H s x Hk), bind_ret_l. apply IH.
Qed.

(** X21: the accessors among the instance properties of a class are passed
    over: without them the class, and the whole source file, lowers to the
    same schema with the same log, or fails the same way. *)
Theorem accessors_skipped :
  (forall (classes : gmap jsstring ks.Class_)
          (tsClass : SimpleAst.ClassDeclaration.t),
      convertClass SyntaxKindName classes (withoutAccessors tsClass)
      = convertClass SyntaxKindName classes tsClass)
  /\ (forall typeInfo : SimpleAst.SourceFile.t,
        createSchemaFromSourceFile SyntaxKindName
          (sourceFileWithoutAccessors typeInfo)
        = createSchemaFromSourceFile SyntaxKindName typeInfo).
Proof.
  assert (Hclass : forall (classes : gmap jsstring ks.Class_)
                          (tsClass : SimpleAst.ClassDeclaration.t),
             convertClass SyntaxKindName classes (withoutAccessors tsClass)
             = convertClass SyntaxKindName classes tsClass).
  { intros classes tsClass. unfold convertClass, withoutAccessors.
    cbn [SimpleAst.ClassDeclaration.getName
           SimpleAst.ClassDeclaration.getInstanceProperties
           SimpleAst.ClassDeclaration.getInstanceMethods
           SimpleAst.ClassDeclaration.getConstructors].
    rewrite forOf_filter; [reflexivity|].
    intros s x Hx. destruct x; try discriminate Hx; reflexivity. }
  split; [exact Hclass|].
  intros typeInfo.
  unfold createSchemaFromSourceFile, sourceFileWithoutAccessors.
  cbn [SimpleAst.SourceFile.getEnums SimpleAst.SourceFile.getClasses].
  rewrite forOf_map.
  destruct (forOf convertEnum _ _) as [le [enums|]]; [|reflexivity].
  rewrite !bind_Normal.
  rewrite (forOf_ext _ (convertClass SyntaxKindName)); [reflexivity|].
  intros. apply Hclass.
Qed.

Lemma convertField_files (getName : jsstring) (getType : ts.Type_)
    (getScope : jsstring) (getInitializer : option jsstring)
    (s s' : gmap jsstring ks.Field) (l : list Diagnostic) :
  convertField getName getType getScope getInitializer s = (l, Normal s') ->
  exists v,
    ((exists lt, convertTsType getType = (lt, Normal (ks.fieldType v)))
     /\ ks.visibility v = convertVisibility getScope
     /\ ks.defaultValue v = getInitializer)
    /\ s' = setProperty (normalized false getName) v s.
Proof.
  unfold convertField. rewrite nameToKS_eq. intros H.
  apply bind_Normal_inv in H as (l1 & key & l2 & Hkey & H & ->).
  injection Hkey as _ <-.
  apply bind_Normal_inv in H as (l3 & ty & l4 & Hty & H & ->).
  injection H as _ <-. eexists. split; [|reflexivity].
  cbn. split; [exists l3; exact Hty | split; reflexivity].
Qed.

Lemma convertInstanceProperty_files (s : gmap jsstring ks.Field)
    (x : SimpleAst.ClassInstancePropertyTypes) (l : list Diagnostic)
    (s' : gmap jsstring ks.Field) :
  isFieldMember x = true ->
  convertInstanceProperty s x = (l, Normal s') ->
  exists v, fieldEntry x v /\ s' = setProperty (propertyKey x) v s.
Proof.
  destruct x; cbn [isFieldMember convertInstanceProperty fieldEntry
                   propertyKey]; intros Hk H; try discriminate Hk;
    exact (convertField_files _ _ _ _ _ _ _ H).
Qed.

Lemma convertInstanceProperty_skips (s : gmap jsstring ks.Field)
    (x : SimpleAst.ClassInstancePropertyTypes) (l : list Diagnostic)
    (s' : gmap jsstring ks.Field) :
  isFieldMember x = false ->
  convertInstanceProperty s x = (l, Normal s') -> s' = s.
Proof.
  destruct x; cbn [isFieldMember convertInstanceProperty]; intros Hk H;
    try discriminate Hk; injection H as _ <-; reflexivity.
Qed.

Lemma convertMethod_files (s : gmap jsstring ks.Method)
    (m : SimpleAst.MethodDeclaration.t) (l : list Diagnostic)
    (s' : gmap jsstring ks.Method) :
  convertMethod SyntaxKindName s m = (l, Normal s') ->
  exists v, methodEntry SyntaxKindName m v
            /\ s' = setProperty (methodKey m) v s.
Proof.
  unfold convertMethod, methodKey, methodEntry. rewrite nameToKS_eq.
  intros H.
  apply bind_Normal_inv in H as (l1 & key & l2 & Hkey & H & ->).
  injection Hkey as _ <-.
  apply bind_Normal_inv in H as (l3 & returns & l4 & Hr & H & ->).
  apply bind_Normal_inv in H as (l5 & parameters & l6 & Hp & H & ->).
  apply bind_Normal_inv in H as (l7 & nd & l8 & Hn & H & ->).
  apply bind_Normal_inv in H as (l9 & body & l10 & Hb & H & ->).
  injection H as _ <-.
  unfold compilerNodeOfBody in Hn.
  destruct (SimpleAst.MethodDeclaration.getBody m) as [nd'|];
    [|discriminate Hn].
  injection Hn as _ ->.
  eexists. split; [|reflexivity]. cbn.
  split; [exists l3; exact Hr|]. split; [exists l5; exact Hp|].
  exists nd, l9. auto.
Qed.

Lemma convertClass_members (classes classes' : gmap jsstring ks.Class_)
    (tsClass : SimpleAst.ClassDeclaration.t) (l : list Diagnostic) :
  convertClass SyntaxKindName classes tsClass = (l, Normal classes') ->
  exists (cs : ks.Class_) (lf lm : list Diagnostic),
    classes' = setProperty (classKey tsClass) cs classes
    /\ forOf convertInstanceProperty
         (SimpleAst.ClassDeclaration.getInstanceProperties tsClass) ∅
       = (lf, Normal (ks.fields cs))
    /\ forOf (convertMethod SyntaxKindName)
         (SimpleAst.ClassDeclaration.getInstanceMethods tsClass) ∅
       = (lm, Normal (ks.methods cs)).
Proof.
  unfold convertClass, classKey. rewrite nameToKS_eq. intros H.
  apply bind_Normal_inv in H as (l1 & key & l1' & Hkey & H & ->).
  injection Hkey as _ <-.
  apply bind_Normal_inv in H as (l2 & fields & l2' & Hf & H & ->).
  apply bind_Normal_inv in H as (l3 & methods & l3' & Hm & H & ->).
  apply bind_Normal_inv in H as (l4 & ctor & l4' & Hc & H & ->).
  injection H as _ <-.
  exists (ks.mkClass fields methods ctor), l2, l3. auto.
Qed.

(** X22: the fields of a class schema are the properties and promoted
    parameters among its instance properties, by the text [nameToKS] returns
    for their names ([__proto__] left out); accessors give no field.  A field
    has the lowered type of its property, [Public] or [Protected] for the
    scopes [public] and [protected] and [Private] for any other, and the
    initializer text, unchanged, as default value when there is one.  Of
    several properties with the same key the last one is kept. *)
Theorem class_fields (classes classes' : gmap jsstring ks.Class_)
    (tsClass : SimpleAst.ClassDeclaration.t) (l : list Diagnostic) :
  convertClass SyntaxKindName classes tsClass = (l, Normal classes') ->
  exists cs : ks.Class_,
    classes' = setProperty (classKey tsClass) cs classes
    /\ (forall key : jsstring,
          is_Some (ks.fields cs !! key)
          <-> key <> str "__proto__"
              /\ exists p,
                   In p (SimpleAst.ClassDeclaration.getInstanceProperties
                           tsClass)
                   /\ isFieldMember p = true /\ propertyKey p = key)
    /\ (forall (before after : list SimpleAst.ClassInstancePropertyTypes)
               (p : SimpleAst.ClassInstancePropertyTypes),
          SimpleAst.ClassDeclaration.getInstanceProperties tsClass
          = before ++ p :: after ->
          isFieldMember p = true ->
          Forall (fun q => isFieldMember q = true ->
                           propertyKey q <> propertyKey p) after ->
          propertyKey p <> str "__proto__" ->
          exists field, ks.fields cs !! propertyKey p = Some field
                        /\ fieldEntry p field).
Proof.
  intros H. apply convertClass_members in H as (cs & lf & lm & -> & Hf & _).
  exists cs. split; [reflexivity|]. split.
  - intros key.
    rewrite (keyed_loop_keys convertInstanceProperty isFieldMember propertyKey
               fieldEntry convertInstanceProperty_files
               convertInstanceProperty_skips _ _ _ _ key Hf).
    rewrite lookup_empty. split.
    + intros [[? Hx] | Hr]; [discriminate Hx | exact Hr].
    + intros Hr. right. exact Hr.
  - intros before after p Hsplit Hkeep Hlast Hproto. rewrite Hsplit in Hf.
    destruct (keyed_loop_last convertInstanceProperty isFieldMember
                propertyKey fieldEntry convertInstanceProperty_files
                convertInstanceProperty_skips _ _ _ _ _ _ Hf Hkeep Hlast Hproto)
      as (v & He & Hv).
    exists v. auto.
Qed.

(** X23: the methods of a class schema are its instance methods, by the
    text [nameToKS] returns for their names ([__proto__] left out), each with
    its lowered return type, parameters and body.  Of several methods with
    the same key, overloads among them, the last one is kept, where of
    several constructors the first is. *)
Theorem class_methods (classes classes' : gmap jsstring ks.Class_)
    (tsClass : SimpleAst.ClassDeclaration.t) (l : list Diagnostic) :
  convertClass SyntaxKindName classes tsClass = (l, Normal classes') ->
  exists cs : ks.Class_,
    classes' = setProperty (classKey tsClass) cs classes
    /\ (forall key : jsstring,
          is_Some (ks.methods cs !! key)
          <-> key <> str "__proto__"
              /\ exists m,
                   In m (SimpleAst.ClassDeclaration.getInstanceMethods tsClass)
                   /\ methodKey m = key)
    /\ (forall (before after : list SimpleAst.MethodDeclaration.t)
               (m : SimpleAst.MethodDeclaration.t),
          SimpleAst.ClassDeclaration.getInstanceMethods tsClass
          = before ++ m :: after ->
          Forall (fun m' => methodKey m' <> methodKey m) after ->
          methodKey m <> str "__proto__" ->
          exists method, ks.methods cs !! methodKey m = Some method
                         /\ methodEntry SyntaxKindName m method).
Proof.
  intros H. apply convertClass_members in H as (cs & lf & lm & -> & _ & Hm).
  assert (Hfiles : forall (s : gmap jsstring ks.Method)
                          (x : SimpleAst.MethodDeclaration.t)
                          (l : list Diagnostic) (s' : gmap jsstring ks.Method),
             true = true ->
             convertMethod SyntaxKindName s x = (l, Normal s') ->
             exists v, methodEntry SyntaxKindName x v
                       /\ s' = setProperty (methodKey x) v s).
  { intros s x l0 s' _. apply convertMethod_files. }
  assert (Hskips : forall (s : gmap jsstring ks.Method)
                          (x : SimpleAst.MethodDeclaration.t)
                          (l : list Diagnostic) (s' : gmap jsstring ks.Method),
             true = false ->
             convertMethod SyntaxKindName s x = (l, Normal s') -> s' = s).
  { intros ? ? ? ? Hf. discriminate Hf. }
  exists cs. split; [reflexivity|]. split.
  - intros key.
    rewrite (keyed_loop_keys (convertMethod SyntaxKindName) (fun _ => true)
               methodKey (methodEntry SyntaxKindName) Hfiles Hskips
               _ _ _ _ key Hm).
    rewrite lookup_empty. split.
    + intros [[? Hx] | (Hp & m & Hin & _ & Hk)]; [discriminate Hx|]. eauto.
    + intros (Hp & m & Hin & Hk). right. split; [exact Hp|]. exists m. auto.
  - intros before after m Hsplit Hlast Hproto. rewrite Hsplit in Hm.
    destruct (keyed_loop_last (convertMethod SyntaxKindName) (fun _ => true)
                methodKey (methodEntry SyntaxKindName) Hfiles Hskips
                _ _ _ _ _ _ Hm eq_refl
                (Forall_impl _ _ _ Hlast (fun m' Hm' _ => Hm')) Hproto)
      as (v & He & Hv).
    exists v. auto.
Qed.

(** X24: a parameter list is lowered place by place: the i-th lowered
    parameter has the text [nameToKS] returns for the i-th declared name and
    the lowered type of the i-th declared type, so number and order are
    kept; neither scope nor initializer of a parameter is read. *)
Theorem parameters_keep_positions
    (tsParams : list SimpleAst.ParameterDeclaration.t)
    (l : list Diagnostic) (parameters : list ks.MethodParameter) :
  mapM convertParameter tsParams = (l, Normal parameters) ->
  Forall2 (fun tsParam parameter =>
             nameToKS (SimpleAst.ParameterDeclaration.getName tsParam) None
             = (List.map (fun c => mkDiagnostic
                                     (invalidCharacterMessage c
                                        (SimpleAst.ParameterDeclaration.getName
                                           tsParam)) None)
                         (invalidCharacters
                            (SimpleAst.ParameterDeclaration.getName tsParam)),
                Normal (ks.parameterName parameter))
             /\ exists lt,
                  convertTsType (SimpleAst.ParameterDeclaration.getType tsParam)
                  = (lt, Normal (ks.parameterType parameter)))
          tsParams parameters.
Proof.
  intros H. apply mapM_positions in H.
  induction H as [|p q ps qs (lx & Hp) _ IH]; constructor; [|exact IH].
  unfold convertParameter in Hp. rewrite nameToKS_eq in *.
  apply bind_Normal_inv in Hp as (l1 & name & l2 & Hname & Hp & ->).
  injection Hname as _ <-.
  apply bind_Normal_inv in Hp as (l3 & ty & l4 & Hty & Hp & ->).
  injection Hp as _ <-. cbn. split; [reflexivity|]. exists l3. exact Hty.
Qed.

End FurtherLoweringProperties.

(** ** Concrete inputs for the further properties *)

Lemma sampleCall_lowers :
  convertExpression sampleSyntaxKindName (Some sampleCall)
  = ([sampleUnexpected; sampleUnexpected], Normal (Val sampleCallLowered)).
Proof. reflexivity. Qed.

Lemma convertExpression_diagnostics_witness :
  [sampleUnexpected; sampleUnexpected]
  = List.map (fun k => mkDiagnostic
                         (unexpectedExpressionKind sampleSyntaxKindName k) None)
             (unexpectedKinds sampleSyntaxKindName sampleCall).
Proof.
  exact (convertExpression_diagnostics sampleSyntaxKindName sampleCall _ _
           sampleCall_lowers).
Defined.


Lemma arguments_keep_positions_witness :
  exists m args',
    Val sampleCallLowered = Val (ks.Call m args')
    /\ Forall2 (fun a a' =>
                  exists la, convertExpression sampleSyntaxKindName (Some a)
                             = (la, Normal a'))
               [ts.Identifier (str "a");
                ts.OtherExpression (ts.SyntaxKind.Other 0);
                ts.BinaryExpression (ts.OtherExpression (ts.SyntaxKind.Other 0))
                                    (str "+") (ts.Identifier (str "b"))]
               args'.
Proof.
  destruct (arguments_keep_positions sampleSyntaxKindName) as (Hcall & _).
  apply (Hcall _ _ _ _ sampleCall_lowers).
Defined.


Lemma sampleBlock_lowers :
  convertBlock sampleSyntaxKindName (Some (ts.Block sampleBlock))
  = ([mkDiagnostic (str "Unexpected statement kind " ++ dquote
                      ++ str "Block" ++ dquote ++ str ".") None],
     Normal (Val (ks.mkBlock
       [Val (ks.Variable_ (ks.mkVariableDeclaration (str "a") Undefined));
        Val (ks.Variable_ (ks.mkVariableDeclaration (str "b") Undefined));
        Val (ks.ExpressionStatement (Val (ks.Identifier (str "x"))));
        Null]))).
Proof. reflexivity. Qed.

Lemma statements_shape_witness :
  exists stmts,
    Val (ks.mkBlock
       [Val (ks.Variable_ (ks.mkVariableDeclaration (str "a") Undefined));
        Val (ks.Variable_ (ks.mkVariableDeclaration (str "b") Undefined));
        Val (ks.ExpressionStatement (Val (ks.Identifier (str "x"))));
        Null])
    = Val (ks.mkBlock stmts)
    /\ List.map entryType stmts
       = concat (List.map (fun s => repeat (expectedType s) (entries s))
                          sampleBlock)
    /\ length stmts = list_sum (List.map entries sampleBlock).
Proof.
  destruct (statements_shape sampleSyntaxKindName) as (_ & Hblock).
  apply (Hblock _ _ _ sampleBlock_lowers).
Defined.

(** [{ x; for (;;) {} y; }] *)
Lemma convertBlock_aborts_witness :
  convertBlock sampleSyntaxKindName
    (Some (ts.Block
             ([ts.ExpressionStatement (ts.Identifier (str "x"))]
                ++ ts.ForStatement None None None (ts.Block [])
                :: [ts.ExpressionStatement (ts.Identifier (str "y"))])))
  = (concat (List.map fst
       [(([] : list Diagnostic),
         [Val (ks.ExpressionStatement (Val (ks.Identifier (str "x"))))])])
       ++ [],
     TypeError).
Proof.
  apply convertBlock_aborts.
  - repeat constructor.
  - reflexivity.
Defined.

Lemma samplePointFile_builds :
  createSchemaFromSourceFile sampleSyntaxKindName samplePointFile
  = ([], Normal samplePointSchema).
Proof. vm_compute. reflexivity. Qed.

Lemma enum_entries_witness :
  ks.enums samplePointSchema !! enumKey sampleEnum
  = Some (enumSchema sampleEnum)
  /\ length (ks.values (enumSchema sampleEnum))
     = length (SimpleAst.EnumDeclaration.getMembers sampleEnum).
Proof.
  apply (enum_entries sampleSyntaxKindName samplePointFile [] samplePointSchema
           [] [] sampleEnum samplePointFile_builds).
  - reflexivity.
  - constructor.
  - vm_compute. intros H. discriminate H.
Defined.

Lemma schema_keys_witness :
  (is_Some (ks.classes samplePointSchema !! str "point")
   <-> str "point" <> str "__proto__"
       /\ exists c, In c (SimpleAst.SourceFile.getClasses samplePointFile)
                    /\ classKey c = str "point")
  /\ (is_Some (ks.enums samplePointSchema !! str "point")
      <-> str "point" <> str "__proto__"
          /\ exists e, In e (SimpleAst.SourceFile.getEnums samplePointFile)
                       /\ enumKey e = str "point").
Proof.
  exact (schema_keys sampleSyntaxKindName samplePointFile [] samplePointSchema
           samplePointFile_builds (str "point")).
Defined.

Lemma class_entry_local_witness :
  exists (l : list Diagnostic) (alone : ks.SchemaFile),
    createSchemaFromSourceFile sampleSyntaxKindName
      (SimpleAst.SourceFile.mk [] [samplePoint]) = (l, Normal alone)
    /\ is_Some (ks.classes alone !! classKey samplePoint)
    /\ ks.classes samplePointSchema !! classKey samplePoint
       = ks.classes alone !! classKey samplePoint.
Proof.
  apply (class_entry_local sampleSyntaxKindName samplePointFile []
           samplePointSchema [] [] samplePoint samplePointFile_builds).
  - reflexivity.
  - constructor.
  - vm_compute. intros H. discriminate H.
Defined.

Lemma samplePoint_lowers :
  convertClass sampleSyntaxKindName ∅ samplePoint
  = ([], Normal (<[str "point" := samplePointClass]> ∅)).
Proof. vm_compute. reflexivity. Qed.

Lemma class_fields_witness :
  exists cs : ks.Class_,
    (<[str "point" := samplePointClass]> ∅ : gmap jsstring ks.Class_)
    = setProperty (classKey samplePoint) cs ∅
    /\ (forall key : jsstring,
          is_Some (ks.fields cs !! key)
          <-> key <> str "__proto__"
              /\ exists p,
                   In p (SimpleAst.ClassDeclaration.getInstanceProperties
                           samplePoint)
                   /\ isFieldMember p = true /\ propertyKey p = key)
    /\ (forall (before after : list SimpleAst.ClassInstancePropertyTypes)
               (p : SimpleAst.ClassInstancePropertyTypes),
          SimpleAst.ClassDeclaration.getInstanceProperties samplePoint
          = before ++ p :: after ->
          isFieldMember p = true ->
          Forall (fun q => isFieldMember q = true ->
                           propertyKey q <> propertyKey p) after ->
          propertyKey p <> str "__proto__" ->
          exists field, ks.fields cs !! propertyKey p = Some field
                        /\ fieldEntry p field).
Proof.
  exact (class_fields sampleSyntaxKindName ∅ _ samplePoint []
           samplePoint_lowers).
Defined.

Lemma class_methods_witness :
  exists cs : ks.Class_,
    (<[str "point" := samplePointClass]> ∅ : gmap jsstring ks.Class_)
    = setProperty (classKey samplePoint) cs ∅
    /\ (forall key : jsstring,
          is_Some (ks.methods cs !! key)
          <-> key <> str "__proto__"
              /\ exists m,
                   In m (SimpleAst.ClassDeclaration.getInstanceMethods
                           samplePoint)
                   /\ methodKey m = key)
    /\ (forall (before after : list SimpleAst.MethodDeclaration.t)
               (m : SimpleAst.MethodDeclaration.t),
          SimpleAst.ClassDeclaration.getInstanceMethods samplePoint
          = before ++ m :: after ->
          Forall (fun m' => methodKey m' <> methodKey m) after ->
          methodKey m <> str "__proto__" ->
          exists method, ks.methods cs !! methodKey m = Some method
                         /\ methodEntry sampleSyntaxKindName m method).
Proof.
  exact (class_methods sampleSyntaxKindName ∅ _ samplePoint []
           samplePoint_lowers).
Defined.

Lemma parameters_keep_positions_witness :
  Forall2 (fun tsParam parameter =>
             nameToKS (SimpleAst.ParameterDeclaration.getName tsParam) None
             = (List.map (fun c => mkDiagnostic
                                     (invalidCharacterMessage c
                                        (SimpleAst.ParameterDeclaration.getName
                                           tsParam)) None)
                         (invalidCharacters
                            (SimpleAst.ParameterDeclaration.getName tsParam)),
                Normal (ks.parameterName parameter))
             /\ exists lt,
                  convertTsType (SimpleAst.ParameterDeclaration.getType tsParam)
                  = (lt, Normal (ks.parameterType parameter)))
          (SimpleAst.MethodDeclaration.getParameters sampleMoveBy)
          [ks.mkMethodParameter (str "dx") (ks.mkType ks.Int32 None None)].
Proof.
  apply (parameters_keep_positions
           (SimpleAst.MethodDeclaration.getParameters sampleMoveBy) []).
  reflexivity.
Defined.
